(** * ares: the global 21-cm driver [ares/simulations/Global21cm.py]

    A shallow embedding of the class [Global21cm]: its lazily created
    attributes, [__init__], [reboot], [carryover_kwargs], the generator
    [step], the outer feedback loop [run], the convergence test
    [_is_converged] and [save].

    Conventions of the embedding.
    - A Python object is a record whose lazily created attributes are
      [option] fields ([None] = [hasattr] is false).
    - A Python exception is a [Raise] in the [result] type; methods that
      assign attributes run in a state-and-exception monad in which the
      assignments made before an exception survive it.
    - numpy's float64 is an abstract type [F] with the operations the code
      uses (class [Numeric]); every definition and every generic theorem is
      stated for an arbitrary interpretation of these operations; the
      concrete evaluations use exact rationals, and IEEE doubles where a
      NaN or a rounding is of interest.  1-d arrays are lists.
    - Objects that the module only receives (the multi-phase medium, the
      radiation field, the populations, the parameter file) are records of
      the attributes and methods that this module touches.
    - Printing and the progress bar leave no trace in the state; the
      elapsed time that [run] stores is a value of the environment. *)

From Stdlib Require Import ZArith QArith Qminmax Qabs Lia.
From Corelib Require Import PrimFloat.
From stdpp Require Import base option list strings gmap pretty.

Set Default Proof Using "Type".
Local Open Scope Z_scope.

(* ================================================================== *)
(** * Exceptions and the two monads *)

Inductive exn : Type :=
| AttributeError | IndexError | KeyError | ValueError | TypeError
| NameError | IOError | NotImplementedError | RuntimeError | ImportError.

#[global] Instance exn_eq_dec : EqDecision exn.
Proof. solve_decision. Defined.

Inductive result (A : Type) : Type :=
| Ok (a : A)
| Raise (e : exn).
Arguments Ok {A} a.
Arguments Raise {A} e.

Definition rbind {A B} (m : result A) (k : A -> result B) : result B :=
  match m with
  | Ok a => k a
  | Raise e => Raise e
  end.

Notation "'let?' x ':=' m 'in' k" := (rbind m (fun x => k))
  (at level 10, x binder, m at level 100, k at level 200,
   format "'[v' 'let?'  x  ':='  m  'in' '/' k ']'").

(** Dictionary subscript [d[k]] and list subscript [l[i]]. *)
Definition getitem {V} (d : gmap string V) (k : string) : result V :=
  match d !! k with
  | Some v => Ok v
  | None => Raise KeyError
  end.

Definition index {A} (l : list A) (i : nat) : result A :=
  match l !! i with
  | Some v => Ok v
  | None => Raise IndexError
  end.

(** [l[-k]] for [k >= 1]. *)
Definition index_from_end {A} (l : list A) (k : nat) : result A :=
  index (rev l) (k - 1)%nat.

(** The state-and-exception monad of methods: the state reached when an
    exception is raised is kept, as attribute assignments are in Python. *)
Definition M (S A : Type) : Type := S -> result A * S.

Definition ret {S A} (a : A) : M S A := fun s => (Ok a, s).
Definition raise {S A} (e : exn) : M S A := fun s => (Raise e, s).
Definition bind {S A B} (m : M S A) (k : A -> M S B) : M S B :=
  fun s => match m s with
           | (Ok a, s') => k a s'
           | (Raise e, s') => (Raise e, s')
           end.
Definition lift {S A} (r : result A) : M S A := fun s => (r, s).
Definition gets {S A} (f : S -> A) : M S A := fun s => (Ok (f s), s).
Definition modify {S} (f : S -> S) : M S unit := fun s => (Ok tt, f s).
(** [try: m except e: h]. *)
Definition try_except {S A} (m : M S A) (e : exn) (h : M S A) : M S A :=
  fun s => match m s with
           | (Raise e', s') =>
               if bool_decide (e' = e) then h s' else (Raise e', s')
           | r => r
           end.

(** A property of the state that a method keeps, whether it returns or
    raises. *)
Definition stable {S A} (P : S -> Prop) (m : M S A) : Prop :=
  forall s, P s -> P (snd (m s)).

Notation "'let!' x ':=' m 'in' k" := (bind m (fun x => k))
  (at level 10, x binder, m at level 100, k at level 200,
   format "'[v' 'let!'  x  ':='  m  'in' '/' k ']'").
Notation "m ';;' k" := (bind m (fun _ => k))
  (at level 100, k at level 200, right associativity).

(* ================================================================== *)
(** * Numbers and 1-d arrays *)

(** The arithmetic of numpy's float64 that the module uses.  [lit q] is
    the value of the Python literal written [q]. *)
Class Numeric (F : Type) : Type := {
  lit : Q -> F;
  fadd : F -> F -> F;
  fsub : F -> F -> F;
  fmul : F -> F -> F;
  fdiv : F -> F -> F;
  fabs : F -> F;
  flt : F -> F -> bool;
  fle : F -> F -> bool;
  feq : F -> F -> bool;
  fmin : F -> F -> F;      (* np.minimum on two scalars *)
  fmax : F -> F -> F;      (* np.maximum on two scalars *)
}.

(** The order facts about [np.minimum] and [np.maximum] that the ceiling
    argument uses.  They hold for IEEE doubles too: a NaN compares false
    with everything and both functions return one of their arguments. *)
Class NumericOrder (F : Type) `{Numeric F} : Prop := {
  flt_fle_trans : forall a b c,
    flt b a = false -> fle b c = true -> flt c a = false;
  fmin_r : forall a c, flt c (fmin a c) = false;
  fmax_cases : forall a b, fmax a b = a \/ fmax a b = b;
}.

(** The law of [np.maximum] that a running maximum needs: the result is
    not below the first argument.  It holds for the rationals; for
    doubles it fails at NaN. *)
Class NumericMax (F : Type) `{Numeric F} : Prop := {
  fmax_ge_l : forall a b, fle a (fmax a b) = true;
}.

(** Exact rationals, every result in lowest terms. *)
#[global] Instance Q_numeric : Numeric Q := {|
  lit q := Qred q;
  fadd a b := Qred (a + b);
  fsub a b := Qred (a - b);
  fmul a b := Qred (a * b);
  fdiv a b := Qred (a / b);
  fabs a := Qred (Qabs a);
  flt a b := negb (Qle_bool b a);
  fle a b := Qle_bool a b;
  feq a b := Qeq_bool a b;
  fmin a b := if Qle_bool a b then a else b;
  fmax a b := if Qle_bool b a then a else b;
|}.

(** IEEE doubles.  A literal is its numerator over its denominator, each
    converted exactly (the literals of the module have numerators and
    denominators whose odd part is below 2^53) and divided with one
    rounding, which is the double that Python reads.  [np.minimum] and
    [np.maximum] return a NaN argument. *)
Fixpoint float_of_pos (p : positive) : float :=
  match p with
  | xH => 1%float
  | xO p' => (2 * float_of_pos p')%float
  | xI p' => (2 * float_of_pos p' + 1)%float
  end.

Definition float_of_Z (z : Z) : float :=
  match z with
  | Z0 => 0%float
  | Zpos p => float_of_pos p
  | Zneg p => (- float_of_pos p)%float
  end.

Definition float_is_nan (x : float) : bool := negb (PrimFloat.eqb x x).

#[global] Instance float_numeric : Numeric float := {|
  lit q := (float_of_Z (Qnum q) / float_of_pos (Qden q))%float;
  fadd := PrimFloat.add;
  fsub := PrimFloat.sub;
  fmul := PrimFloat.mul;
  fdiv := PrimFloat.div;
  fabs := PrimFloat.abs;
  flt := PrimFloat.ltb;
  fle := PrimFloat.leb;
  feq := PrimFloat.eqb;
  fmin a b := if float_is_nan a then a
              else if float_is_nan b then b
              else if PrimFloat.ltb b a then b else a;
  fmax a b := if float_is_nan a then a
              else if float_is_nan b then b
              else if PrimFloat.ltb a b then b else a;
|}.

Section Arrays.
Context {F : Type} `{Numeric F}.

Definition of_Z (n : Z) : F := lit (inject_Z n).

(** [a[-1::-1]]. *)
Definition reversed (a : list F) : list F := rev a.

(** [np.where(mask)]: the positions at which the mask is true. *)
Fixpoint np_where_from (i : nat) (mask : list bool) : list nat :=
  match mask with
  | [] => []
  | b :: mask' =>
      if b then i :: np_where_from (S i) mask'
      else np_where_from (S i) mask'
  end.
Definition np_where (mask : list bool) : list nat := np_where_from 0 mask.

(** [a[idx]] with an index array: IndexError on a position outside [a]. *)
Fixpoint fancy_index (a : list F) (idx : list nat) : result (list F) :=
  match idx with
  | [] => Ok []
  | i :: idx' =>
      let? x := index a i in
      let? xs := fancy_index a idx' in
      Ok (x :: xs)
  end.

(** An elementwise binary ufunc on two 1-d arrays, with numpy's
    broadcasting: arrays of one length are combined position by position,
    an array of length 1 is stretched along the other, and any other
    pair of lengths is a ValueError. *)
Definition elementwise (op : F -> F -> F) (a b : list F) : result (list F) :=
  if bool_decide (length a = length b) then Ok (zip_with op a b)
  else
    match a, b with
    | [x], _ => Ok (map (op x) b)
    | _, [y] => Ok (map (fun x => op x y) a)
    | _, _ => Raise ValueError
    end.

(** The array that broadcasting makes of [a] against an array of length
    [n]. *)
Definition broadcast_to (n : nat) (a : list F) : list F :=
  if bool_decide (length a = n) then a
  else match a with
       | [x] => replicate n x
       | _ => a
       end.

(** [np.interp] at one point.  [xp] is increasing, as numpy requires;
    below the first sample the first value is returned, from the last
    sample on the last value, a sample point returns its value, and a
    NaN abscissa is returned as it is. *)
Fixpoint interp_walk (x : F) (x0 f0 : F) (xp fp : list F) : F :=
  match xp, fp with
  | x1 :: xp', f1 :: fp' =>
      if flt x x1 then
        if feq x x0 then f0
        else fadd (fmul (fdiv (fsub f1 f0) (fsub x1 x0)) (fsub x x0)) f0
      else interp_walk x x1 f1 xp' fp'
  | _, _ => f0
  end.

Definition interp1 (x : F) (x0 f0 : F) (xp fp : list F) : F :=
  if negb (feq x x) then x
  else if flt x x0 then f0
  else interp_walk x x0 f0 xp fp.

(** [np.interp(x, xp, fp)]: ValueError on an empty sample array or on
    sample arrays of different lengths. *)
Definition np_interp (x xp fp : list F) : result (list F) :=
  match xp, fp with
  | x0 :: xp', f0 :: fp' =>
      if bool_decide (length xp' = length fp')
      then Ok (map (fun xi => interp1 xi x0 f0 xp' fp') x)
      else Raise ValueError
  | _, _ => Raise ValueError
  end.

Definition np_sum (a : list F) : F := fold_left fadd a (of_Z 0).

(** [a.mean()]: the sum over the number of elements (0/0 when empty). *)
Definition np_mean (a : list F) : F :=
  fdiv (np_sum a) (of_Z (Z.of_nat (length a))).

(** [np.mean([a, b], axis=0)]: the two rows are added and divided by 2.
    Rows of different lengths make an array of two objects, and the sum
    over it is [a + b], which broadcasts like any ufunc. *)
Definition np_mean_rows (a b : list F) : result (list F) :=
  elementwise (fun x y => fdiv (fadd x y) (of_Z 2)) a b.

(** [np.maximum.accumulate(a)]. *)
Fixpoint accumulate_from (acc : F) (a : list F) : list F :=
  match a with
  | [] => []
  | x :: a' => let acc' := fmax acc x in acc' :: accumulate_from acc' a'
  end.
Definition np_maximum_accumulate (a : list F) : list F :=
  match a with
  | [] => []
  | x :: a' => x :: accumulate_from x a'
  end.

(** [np.allclose(a, b, rtol, atol)] on two arrays of one shape:
    [|a - b| <= atol + rtol * |b|] everywhere. *)
Fixpoint np_allclose (a b : list F) (rtol atol : F) : bool :=
  match a, b with
  | x :: a', y :: b' =>
      fle (fabs (fsub x y)) (fadd atol (fmul rtol (fabs y)))
      && np_allclose a' b' rtol atol
  | _, _ => true
  end.

(** [a.max()]: ValueError on an empty array. *)
Definition np_max (a : list F) : result F :=
  match a with
  | [] => Raise ValueError
  | x :: a' => Ok (fold_left fmax a' x)
  end.
End Arrays.

(* ================================================================== *)
(** * The data model *)

Section Model.
Context {F : Type} {NF : Numeric F}.

(** A dictionary from field names to series ([history._data], an entry
    of the suite) and a per-step record of one parcel ([data_igm], ...;
    the parcels have a single cell, so a field is one number and
    [np.atleast_1d], [x[0]] and [squeeze] are the identity). *)
Local Abbreviation Data := (gmap string (list F)).
Local Abbreviation Snapshot := (gmap string F).

(** Values that keyword arguments take. *)
Inductive Value : Type :=
| VNone
| VBool (b : bool)
| VInt (n : Z)
| VNum (x : F)
| VStr (s : string)
| VObject (id : nat)                  (* a reference to an instance *)
| VFunction (f : list F -> list F)    (* a user function of redshift *)
| VMminInterp (z Mmin : list F).      (* run's closure [f_Mmin] *)

(** Python truthiness of a keyword value. *)
Definition truthy (v : Value) : bool :=
  match v with
  | VNone => false
  | VBool b => b
  | VInt n => negb (n =? 0)%Z
  | VNum x => negb (feq x (of_Z 0))
  | VStr s => negb (bool_decide (s = ""))
  | _ => true
  end.

(** [pf['feedback_LW_Mmin']]: None, a string, a function, or anything
    else.  A string comes with whether it is the interned object that a
    literal of its content denotes, which is what [is] tests. *)
Inductive MminOption : Type :=
| MminNone
| MminNamed (name : string) (interned : bool)
| MminFunction (f : list F -> list F)
| MminOther.

(** [pf['feedback_LW_fsh']]: None, a function, or any other value. *)
Inductive FshOption : Type :=
| FshNone
| FshFunction (f : list F -> list F)
| FshOther.

(** The entries of the parameter file that the class reads. *)
Record ParameterFile : Type := {
  verbose : bool;
  debug : bool;
  progress_bar : bool;
  final_redshift : F;
  track_extrema : bool;
  save_rate_coefficients : bool;
  compute_fluxes_at_start : bool;
  feedback_maxiter : Z;
  feedback_LW_Mmin : MminOption;
  feedback_LW_fsh : FshOption;
  feedback_LW_felt_by : list nat;
  feedback_LW_Tcut : F;
  feedback_LW_Mmin_uponly : bool;
  feedback_LW_rtol : F;
  feedback_LW_atol : F;
  feedback_LW_mean_err : bool;
}.

(** [pop.halos]: the halo-mass-function table. *)
Record Halos : Type := {
  halos_id : nat;
  halos_z : list F;
  VirialMass : F -> list F -> list F;
}.

(** A source population. *)
Record Population : Type := {
  is_lya_src : bool;
  sed_tab : bool;
  src : nat;                 (* the spectral model instance *)
  halos : Halos;
  pop_Mmin : list F;         (* [pop.Mmin], tabulated over [halos.z] *)
}.

(** The flux arrays of one step; only handed on to [update_Jlw]. *)
Local Abbreviation Fluxes := (list (list F)).

(** [medium.field]. *)
Record RadiationField : Type := {
  pops : list Population;
  solve_rte : list (list bool);
  bands_by_pop : list (list (F * F));
  LymanAlphaFlux : F -> nat -> F;
  LymanWernerFlux : F -> nat -> F;
  interp_Ja : nat -> F -> F;          (* [_interp[i]['Ja']] *)
  interp_Jlw : nat -> F -> F;         (* [_interp[i]['Jlw']] *)
  all_fluxes : list Fluxes;
  update_Jlw : nat -> nat -> Fluxes -> F * F;
  tau_solver : option nat;   (* [_tau_solver] when the field has [tau] *)
}.

(** What the medium's generator yields. *)
Record StepRecord : Type := {
  step_t : F;
  step_z : F;
  step_igm : Snapshot;
  step_cgm : Snapshot;
  step_RC_igm : Snapshot;
  step_RC_cgm : Snapshot;
}.

(** The multi-phase medium.  [run] binds [self.all_t], [self.all_z],
    ... to the medium's own lists, so what [run] appends is appended
    here. *)
Record MultiPhaseMedium : Type := {
  tf : F;
  all_t : list F;
  all_z : list F;
  all_data_igm : list Snapshot;
  all_data_cgm : list Snapshot;
  all_RCs_igm : list Snapshot;
  all_RCs_cgm : list Snapshot;
  field : RadiationField;
  cosm_nH : F -> F;                       (* [grid.cosm.nH] *)
  hydr_Ts : F -> F -> F -> F -> F -> F;   (* [grid.hydr.Ts] *)
  hydr_dTb : F -> F -> F -> F;            (* [grid.hydr.dTb] *)
}.

Inductive PhenomKind : Type := Tanh | Gaussian | Parametric.

(** Code that the class calls and that lives elsewhere. *)
Record Env : Type := {
  new_ParameterFile : gmap string Value -> ParameterFile;
  new_MultiPhaseMedium : gmap string Value -> MultiPhaseMedium;
  _insert_inits : MultiPhaseMedium -> MultiPhaseMedium;
  medium_step : MultiPhaseMedium -> list StepRecord;
  (** lines 174-197: the phenomenological model, its parameter file and
      the history it returns on its output grid *)
  phenom_model : PhenomKind -> gmap string Value -> ParameterFile * Data;
  is_stopping_point : list F -> list F -> bool;   (* [self.track] *)
  E_LyA : F;
  pi : F;
  pow : F -> F -> F;
  log10 : F -> F;
  elapsed : F;                                    (* [t2 - t1] *)
  (** whether [import h5py] finds the module *)
  h5py_installed : bool;
  (** whether the series that the medium records under a key holds one
      number at each step; where it holds an array of several,
      ['%-20.8e' %] refuses the element (line 584: the ASCII format fails
      with several populations) *)
  scalar_series : string -> bool;
}.

(** The instance.  Attributes that [run] writes and nothing else in the
    class reads ([pb], [all_dTb], [history_igm], [history_cgm],
    [rates_igm], [rates_cgm]) and the flags [is_tanh], [is_gauss],
    [is_param], read only inside [_check_if_phenom], are locals here. *)
Record Global21cm : Type := {
  kwargs : gmap string Value;
  is_phenom : bool;
  _suite : option (list Data);
  _count : option Z;
  _timer : option F;
  _pf : option ParameterFile;
  _medium : option MultiPhaseMedium;
  _history : option Data;
  _carryover_kwargs : option (gmap string Value);
  _maxiter : option Z;
  blobs : option Data;
}.

Definition set_kwargs v (s : Global21cm) : Global21cm :=
  {| kwargs := v; is_phenom := is_phenom s; _suite := _suite s;
     _count := _count s; _timer := _timer s; _pf := _pf s;
     _medium := _medium s; _history := _history s;
     _carryover_kwargs := _carryover_kwargs s; _maxiter := _maxiter s;
     blobs := blobs s |}.
Definition set_is_phenom v (s : Global21cm) : Global21cm :=
  {| kwargs := kwargs s; is_phenom := v; _suite := _suite s;
     _count := _count s; _timer := _timer s; _pf := _pf s;
     _medium := _medium s; _history := _history s;
     _carryover_kwargs := _carryover_kwargs s; _maxiter := _maxiter s;
     blobs := blobs s |}.
Definition set__suite v (s : Global21cm) : Global21cm :=
  {| kwargs := kwargs s; is_phenom := is_phenom s; _suite := v;
     _count := _count s; _timer := _timer s; _pf := _pf s;
     _medium := _medium s; _history := _history s;
     _carryover_kwargs := _carryover_kwargs s; _maxiter := _maxiter s;
     blobs := blobs s |}.
Definition set__count v (s : Global21cm) : Global21cm :=
  {| kwargs := kwargs s; is_phenom := is_phenom s; _suite := _suite s;
     _count := v; _timer := _timer s; _pf := _pf s;
     _medium := _medium s; _history := _history s;
     _carryover_kwargs := _carryover_kwargs s; _maxiter := _maxiter s;
     blobs := blobs s |}.
Definition set__timer v (s : Global21cm) : Global21cm :=
  {| kwargs := kwargs s; is_phenom := is_phenom s; _suite := _suite s;
     _count := _count s; _timer := v; _pf := _pf s;
     _medium := _medium s; _history := _history s;
     _carryover_kwargs := _carryover_kwargs s; _maxiter := _maxiter s;
     blobs := blobs s |}.
Definition set__pf v (s : Global21cm) : Global21cm :=
  {| kwargs := kwargs s; is_phenom := is_phenom s; _suite := _suite s;
     _count := _count s; _timer := _timer s; _pf := v;
     _medium := _medium s; _history := _history s;
     _carryover_kwargs := _carryover_kwargs s; _maxiter := _maxiter s;
     blobs := blobs s |}.
Definition set__medium v (s : Global21cm) : Global21cm :=
  {| kwargs := kwargs s; is_phenom := is_phenom s; _suite := _suite s;
     _count := _count s; _timer := _timer s; _pf := _pf s;
     _medium := v; _history := _history s;
     _carryover_kwargs := _carryover_kwargs s; _maxiter := _maxiter s;
     blobs := blobs s |}.
Definition set__history v (s : Global21cm) : Global21cm :=
  {| kwargs := kwargs s; is_phenom := is_phenom s; _suite := _suite s;
     _count := _count s; _timer := _timer s; _pf := _pf s;
     _medium := _medium s; _history := v;
     _carryover_kwargs := _carryover_kwargs s; _maxiter := _maxiter s;
     blobs := blobs s |}.
Definition set__carryover_kwargs v (s : Global21cm) : Global21cm :=
  {| kwargs := kwargs s; is_phenom := is_phenom s; _suite := _suite s;
     _count := _count s; _timer := _timer s; _pf := _pf s;
     _medium := _medium s; _history := _history s;
     _carryover_kwargs := v; _maxiter := _maxiter s;
     blobs := blobs s |}.
Definition set__maxiter v (s : Global21cm) : Global21cm :=
  {| kwargs := kwargs s; is_phenom := is_phenom s; _suite := _suite s;
     _count := _count s; _timer := _timer s; _pf := _pf s;
     _medium := _medium s; _history := _history s;
     _carryover_kwargs := _carryover_kwargs s; _maxiter := v;
     blobs := blobs s |}.

(** ['pop_Mmin{%i}' % popid] and the like. *)
Definition braced (name : string) (i : nat) : string :=
  name +:+ "{" +:+ pretty i +:+ "}".

(* ================================================================== *)
(** * The class *)

Context (env : Env).

Local Abbreviation Self := Global21cm.

Definition hasattr {A} (o : option A) : bool :=
  match o with Some _ => true | None => false end.

(** [self.x] for an attribute without a property: AttributeError when it
    was never assigned. *)
Definition getattr {A} (f : Self -> option A) : M Self A :=
  fun self => match f self with
              | Some v => (Ok v, self)
              | None => (Raise AttributeError, self)
              end.

(** [delattr(self, x)]. *)
Definition delattr {A} (f : Self -> option A)
    (clear : Self -> Self) : M Self unit :=
  fun self => match f self with
              | Some _ => (Ok tt, clear self)
              | None => (Raise AttributeError, self)
              end.

(** ** Properties *)

Definition count : M Self Z :=
  fun self => match _count self with
              | Some c => (Ok c, self)
              | None => (Ok 0, set__count (Some 0) self)
              end.

Definition pf : M Self ParameterFile :=
  fun self => match _pf self with
              | Some p => (Ok p, self)
              | None => let p := new_ParameterFile env (kwargs self) in
                        (Ok p, set__pf (Some p) self)
              end.

Definition medium : M Self MultiPhaseMedium :=
  fun self => match _medium self with
              | Some m => (Ok m, self)
              | None => let m := new_MultiPhaseMedium env (kwargs self) in
                        (Ok m, set__medium (Some m) self)
              end.

(** [self.pops] is [self.medium.field.pops]. *)
Definition get_pops : M Self (list Population) :=
  let! m := medium in ret (pops (field m)).

(** The [history] property belongs to the parent analysis class, which
    is not part of these sources; [reboot] deletes [_history], so the
    property is backed by that attribute: reading it without a finished
    run is an AttributeError and assigning it stores the table. *)
Definition history : M Self Data := getattr _history.

Definition maxiter : M Self Z :=
  fun self => match _maxiter self with
              | Some n => (Ok n, self)
              | None =>
                  match pf self with
                  | (Ok p, self') =>
                      (Ok (feedback_maxiter p),
                       set__maxiter (Some (feedback_maxiter p)) self')
                  | (Raise e, self') => (Raise e, self')
                  end
              end.

(** ** [_check_if_phenom] and [__init__] *)

Definition phenom_kind (kw : gmap string Value) : option PhenomKind :=
  match kw !! "tanh_model" with
  | Some v => if truthy v then Some Tanh else None
  | None =>
      match kw !! "gaussian_model" with
      | Some v => if truthy v then Some Gaussian else None
      | None =>
          match kw !! "parametric_model" with
          | Some v => if truthy v then Some Parametric else None
          | None => None
          end
      end
  end.

Definition _check_if_phenom (kw : gmap string Value) : M Self bool :=
  match phenom_kind kw with
  | None => ret false
  | Some k =>
      let ph := phenom_model env k kw in
      modify (set__pf (Some (fst ph))) ;;
      modify (set__history (Some (snd ph))) ;;
      ret true
  end.

Definition defaults : gmap string Value := {[ "load_ics" := VBool true ]}.

Definition __init__ (kw : gmap string Value) : M Self unit :=
  let! ph := _check_if_phenom kw in
  modify (set_is_phenom ph) ;;
  (* kwargs.update(defaults) *)
  let kw1 := defaults ∪ kw in
  let kw2 := match kw1 !! "problem_type" with
             | Some _ => kw1
             | None => <["problem_type" := VInt 101]> kw1
             end in
  modify (set_kwargs kw2) ;;
  let! p := pf in
  (* [self.pf['verbose'] and self.count == 0]: print_sim only prints *)
  (if verbose p then (let! c := count in ret tt) else ret tt) ;;
  let! su := gets _suite in
  match su with
  | None => modify (set__suite (Some []))
  | Some _ => ret tt
  end.

(** An object without attributes, and the constructor call. *)
Definition blank : Self :=
  {| kwargs := ∅; is_phenom := false; _suite := None; _count := None;
     _timer := None; _pf := None; _medium := None; _history := None;
     _carryover_kwargs := None; _maxiter := None; blobs := None |}.

Definition new_Global21cm (kw : gmap string Value) : result unit * Self :=
  __init__ kw blank.

(** ** [carryover_kwargs] and [reboot] *)

Fixpoint carryover_pops (i : nat) (ps : list Population)
    (d : gmap string Value) : gmap string Value :=
  match ps with
  | [] => d
  | pop :: ps' =>
      let d1 := if sed_tab pop
                then <[braced "pop_psm_instance" i := VObject (src pop)]> d
                else d in
      let d2 := if (i =? 0)%nat
                then <["hmf_instance" := VObject (halos_id (halos pop))]> d1
                else d1 in
      carryover_pops (S i) ps' d2
  end.

Definition carryover_tau (fld : RadiationField) : gmap string Value :=
  match tau_solver fld with
  | Some t => {[ "tau_instance" := VObject t ]}
  | None => ∅
  end.

Definition carryover_kwargs : M Self (gmap string Value) :=
  let! memo := gets _carryover_kwargs in
  match memo with
  | Some d => ret d
  | None =>
      modify (set__carryover_kwargs (Some ∅)) ;;
      let! m := medium in
      let d0 := carryover_tau (field m) in
      let! ps := get_pops in
      let d := carryover_pops 0 ps d0 in
      modify (set__carryover_kwargs (Some d)) ;;
      ret d
  end.

Definition reboot : M Self unit :=
  let! c := count in
  (if (c =? 1)%Z
   then let! ck := carryover_kwargs in
        (* kwargs.update(carryover_kwargs) *)
        modify (fun self => set_kwargs (ck ∪ kwargs self) self)
   else ret tt) ;;
  delattr _pf (set__pf None) ;;
  delattr _medium (set__medium None) ;;
  delattr _history (set__history None) ;;
  let! kw := gets kwargs in
  __init__ kw.

(** ** [step] *)

(** [E0 <= E_LyA < E1]. *)
Definition band_has_LyA (band : F * F) : bool :=
  fle (fst band) (E_LyA env) && flt (E_LyA env) (snd band).

(** Lines 465-472: the fluxes [(this_Ja, this_Jlw)] of band [j] of
    population [i]. *)
Definition band_fluxes (p : ParameterFile) (fld : RadiationField) (z : F)
    (i j : nat) : result (F * F) :=
  if compute_fluxes_at_start p
  then Ok (interp_Ja fld i z, interp_Jlw fld i z)
  else let? fluxes := index_from_end (all_fluxes fld) 1 in
       Ok (update_Jlw fld i j fluxes).

(** The loop over the bands of population [i] (lines 460-475); [J] is
    the pair of running sums [(Ja, Jlw)]. *)
Fixpoint step_bands (p : ParameterFile) (fld : RadiationField) (z : F)
    (i j : nat) (bands : list (F * F)) (J : F * F) : result (F * F) :=
  match bands with
  | [] => Ok J
  | band :: bands' =>
      if negb (band_has_LyA band) then step_bands p fld z i (S j) bands' J
      else
        let? this := band_fluxes p fld z i j in
        step_bands p fld z i (S j) bands'
          (fadd (fst J) (fst this), fadd (snd J) (snd this))
  end.

(** The loop over the populations (lines 449-475). *)
Fixpoint step_pops (p : ParameterFile) (fld : RadiationField) (z : F)
    (i : nat) (ps : list Population) (J : F * F) : result (F * F) :=
  match ps with
  | [] => Ok J
  | pop :: ps' =>
      if negb (is_lya_src pop) then step_pops p fld z (S i) ps' J
      else
        let? rte := index (solve_rte fld) i in
        if negb (existsb id rte) then
          let Ja := fadd (fst J) (LymanAlphaFlux fld z i) in
          let Jlw := match feedback_LW_Mmin p with
                     | MminNone => snd J
                     | _ => fadd (snd J) (LymanWernerFlux fld z i)
                     end in
          step_pops p fld z (S i) ps' (Ja, Jlw)
        else
          let? bands := index (bands_by_pop fld) i in
          let? J' := step_bands p fld z i 0 bands J in
          step_pops p fld z (S i) ps' J'
  end.

(** The fluxes of one step: [Ja = 0.0], [Jlw = 0.0], then the loops. *)
Definition step_fluxes (p : ParameterFile) (fld : RadiationField)
    (z : F) : result (F * F) :=
  step_pops p fld z 0 (pops fld) (of_Z 0, of_Z 0).

(** One turn of the generator's loop: the record that the medium yields
    with [Ts], [dTb], [Ja] and [Jlw] added to its igm state. *)
Definition step_record (p : ParameterFile) (m : MultiPhaseMedium)
    (r : StepRecord) : result StepRecord :=
  let z := step_z r in
  let? J := step_fluxes p (field m) z in
  let n_H := cosm_nH m z in
  let? Tk := getitem (step_igm r) "Tk" in
  let? h_2 := getitem (step_igm r) "h_2" in
  let? e := getitem (step_igm r) "e" in
  let Ts := hydr_Ts m z Tk (fst J) h_2 (fmul e n_H) in
  let? x_cgm := getitem (step_cgm r) "h_2" in
  let? h_2' := getitem (step_igm r) "h_2" in
  let xavg := fadd x_cgm (fmul (fsub (lit 1) x_cgm) h_2') in
  let dTb := hydr_dTb m z xavg Ts in
  Ok {| step_t := step_t r; step_z := z;
        step_igm := <["Jlw" := snd J]> (<["Ja" := fst J]>
                      (<["dTb" := dTb]> (<["Ts" := Ts]> (step_igm r))));
        step_cgm := step_cgm r;
        step_RC_igm := step_RC_igm r; step_RC_cgm := step_RC_cgm r |}.

(** ** [_init_dTb] *)

Definition _init_dTb_one (m : MultiPhaseMedium) (i : nat)
    (data_igm : Snapshot) : result (F * F) :=
  let? z := index (all_z m) i in
  let n_H := cosm_nH m z in
  let? Tk := getitem data_igm "Tk" in
  let? h_2 := getitem data_igm "h_2" in
  let? e := getitem data_igm "e" in
  let Ts := hydr_Ts m z Tk (lit 0) h_2 (fmul e n_H) in
  let? cgm := index (all_data_cgm m) i in
  let? QHII := getitem cgm "h_2" in
  let xavg := fadd QHII (fmul (fsub (lit 1) QHII) h_2) in
  Ok (hydr_dTb m z xavg Ts, Ts).

(** The loop of [_init_dTb]: [done] are the records already given their
    [dTb] and [Ts]; they keep them when a later record raises. *)
Fixpoint _init_dTb_loop (m : MultiPhaseMedium) (i : nat)
    (todo done : list Snapshot) (dTb : list F)
    : result (list F) * list Snapshot :=
  match todo with
  | [] => (Ok dTb, done)
  | d :: todo' =>
      match _init_dTb_one m i d with
      | Ok (Tb, Ts) =>
          _init_dTb_loop m (S i) todo'
            (done ++ [<["Ts" := Ts]> (<["dTb" := Tb]> d)]) (dTb ++ [Tb])
      | Raise e => (Raise e, done ++ todo)
      end
  end.

Definition with_all_data_igm (l : list Snapshot)
    (m : MultiPhaseMedium) : MultiPhaseMedium :=
  {| tf := tf m; all_t := all_t m; all_z := all_z m;
     all_data_igm := l; all_data_cgm := all_data_cgm m;
     all_RCs_igm := all_RCs_igm m; all_RCs_cgm := all_RCs_cgm m;
     field := field m; cosm_nH := cosm_nH m; hydr_Ts := hydr_Ts m;
     hydr_dTb := hydr_dTb m |}.

Definition _init_dTb : M Self (list F) :=
  let! m := medium in
  let r := _init_dTb_loop m 0 (all_data_igm m) [] [] in
  modify (set__medium (Some (with_all_data_igm (snd r) m))) ;;
  lift (fst r).

(** ** [_sort_history] *)

(** Modelled from the spec: [util.ReadData._sort_history] is not part of
    these sources.  Spec 4.2: it folds the sequence of per-step records
    into a table from prefixed field names to series, never dropping or
    reordering a step.  The fields are those of the first record; a later
    record that lacks one of them is a KeyError. *)
Definition _sort_history (all_data : list Snapshot) (prefix : string)
    : result Data :=
  match all_data with
  | [] => Ok ∅
  | d0 :: _ =>
      foldr (fun (kv : string * F) (acc : result Data) =>
               let? tab := acc in
               let? series :=
                 match mapM (fun d : Snapshot => d !! kv.1) all_data with
                 | Some l => Ok l
                 | None => Raise KeyError
                 end in
               Ok (<[prefix +:+ kv.1 := series]> tab))
            (Ok ∅) (map_to_list d0)
  end.

(** ** The update of Mmin (the feedback block of [run], lines 304-375) *)

(** What a self-shielding function returns: the constant function
    returns a float, the others an array. *)
Inductive ndarray : Type :=
| Scalar (x : F)
| Array (a : list F).

(** [a * b] for [b] an array. *)
Definition nd_mul (a : ndarray) (b : list F) : result (list F) :=
  match a with
  | Scalar x => Ok (map (fmul x) b)
  | Array a' => elementwise fmul a' b
  end.

Definition attr {A} (o : option A) : result A :=
  match o with
  | Some v => Ok v
  | None => Raise AttributeError
  end.

(** [NH2(z, Mh, fH2=3.5e-4)]. *)
Definition NH2 (z Mh : F) : F :=
  let fH2 := lit (35 # 100000) in
  fmul (fmul (fmul (lit (inject_Z (10 ^ 17)))
                   (fdiv fH2 (lit (35 # 100000))))
             (pow env (fdiv Mh (lit (inject_Z (10 ^ 6))))
                      (fdiv (lit 1) (lit 3))))
       (pow env (fdiv (fadd (lit 1) z) (lit 20)) (lit 2)).

(** The nested [f_sh] of lines 315-325: the power law in the column
    density, with Mmin from the last entry of the suite after the first
    iteration and from the population's own table on the first. *)
Definition f_sh_power_law (p : ParameterFile) (cnt : Z)
    (su : option (list Data)) (ps : list Population)
    (z : list F) : result ndarray :=
  let? popid := index (feedback_LW_felt_by p) 0 in
  let? Mmin :=
    if (1 <? cnt)%Z then
      let s := braced "pop_Mmin" popid in
      let? suite := attr su in
      let? last := index_from_end suite 1 in
      let? zs := getitem last "z" in
      let? Ms := getitem last s in
      np_interp z (reversed zs) (reversed Ms)
    else
      let? pop := index ps popid in
      np_interp z (halos_z (halos pop)) (pop_Mmin pop) in
  let? r := elementwise
              (fun zi Mi =>
                 fmin (lit 1)
                      (pow env (fdiv (NH2 zi Mi) (lit (inject_Z (10 ^ 14))))
                               (lit (- 3 # 4))))
              z Mmin in
  Ok (Array r).

Definition is_not_None (o : FshOption) : bool :=
  match o with FshNone => false | _ => true end.

(** Lines 311-330, branch by branch: [is not None], then
    [type(...) is FunctionType], then [else]. *)
Definition f_sh (p : ParameterFile) (cnt : Z) (su : option (list Data))
    (ps : list Population) : list F -> result ndarray :=
  if is_not_None (feedback_LW_fsh p) then f_sh_power_law p cnt su ps
  else
    match feedback_LW_fsh p with
    | FshFunction f => fun z => Ok (Array (f z))
    | _ => fun _ => Ok (Scalar (lit 1))
    end.

(** [f_J] (line 334); [Jlw] is already [history['Jlw'] / 1e-21]. *)
Definition f_J (p : ParameterFile) (cnt : Z) (su : option (list Data))
    (ps : list Population) (ztmp Jlw zz : list F) : result (list F) :=
  let? sh := f_sh p cnt su ps zz in
  let? J := np_interp zz (reversed ztmp) (reversed Jlw) in
  nd_mul sh J.

(** The named formula of lines 337-338. *)
Definition visbal2015 (fJ : list F -> result (list F))
    (zz : list F) : result (list F) :=
  let? J := fJ zz in
  elementwise
    (fun z j =>
       fmul (fmul (fmul (lit (5 # 2)) (lit (inject_Z (10 ^ 5))))
                  (pow env (fdiv (fadd (lit 1) z) (lit 26)) (lit (- 3 # 2))))
            (fadd (lit 1)
                  (fmul (lit (696 # 100))
                        (pow env (fmul (fmul (lit 4) (pi env)) j)
                                 (lit (47 # 100))))))
    zz J.

(** Lines 336-342.  [is 'visbal2015'] compares objects: it holds for the
    interned string of that content and for no other string object. *)
Definition f_M (p : ParameterFile) (cnt : Z) (su : option (list Data))
    (ps : list Population) (ztmp Jlw : list F)
    : result (list F -> result (list F)) :=
  match feedback_LW_Mmin p with
  | MminNamed name interned =>
      if interned && bool_decide (name = "visbal2015")
      then Ok (visbal2015 (f_J p cnt su ps ztmp Jlw))
      else Raise NotImplementedError
  | MminFunction f => Ok (fun zz => Ok (f zz))
  | _ => Raise NotImplementedError
  end.

(** The series that lines 307-370 compute. *)
Record MminUpdate : Type := {
  ztmp : list F;
  _Mmin_next : list F;
  Mmin_ceil : list F;
  Mmin : list F;
}.

Definition Mmin_update (p : ParameterFile) (cnt : Z)
    (su : option (list Data)) (ps : list Population)
    (hist : Data) : result MminUpdate :=
  let? z := getitem hist "z" in
  let? Jlw0 := getitem hist "Jlw" in
  let Jlw := map (fun x => fdiv x (lit (1 # 10 ^ 21))) Jlw0 in
  let? fM := f_M p cnt su ps z Jlw in
  let? next :=
    if (1 <? cnt)%Z then
      let? suite := attr su in
      let? hist' := index_from_end suite 1 in
      let? popid := index (feedback_LW_felt_by p) 0 in
      let s := braced "pop_Mmin" popid in
      let? hz := getitem hist' "z" in
      let? hM := getitem hist' s in
      let? _Mmin_prev := np_interp z (reversed hz) (reversed hM) in
      let? raw := fM z in
      np_mean_rows raw _Mmin_prev
    else fM z in
  let Tcut := feedback_LW_Tcut p in
  let? popid := index (feedback_LW_felt_by p) 0 in
  let? pop_fb := index ps popid in
  let ceil := VirialMass (halos pop_fb) Tcut z in
  let? clipped := elementwise fmin next ceil in
  let final := if feedback_LW_Mmin_uponly p
               then np_maximum_accumulate clipped
               else clipped in
  Ok {| ztmp := z; _Mmin_next := next; Mmin_ceil := ceil; Mmin := final |}.

(** The closure [f_Mmin] of line 375, applied. *)
Definition f_Mmin (z Mm zz : list F) : result (list F) :=
  let? l := np_interp zz (reversed z) (map (log10 env) (reversed Mm)) in
  Ok (map (pow env (lit 10)) l).

(** Lines 378-381: the entry appended to the suite and the keyword
    arguments of the next iteration. *)
Definition suite_entry (p : ParameterFile) (hist : Data)
    (Mm : list F) : Data :=
  foldl (fun d popid => <[braced "pop_Mmin" popid := Mm]> d)
        hist (feedback_LW_felt_by p).

Definition kwargs_with_Mmin (p : ParameterFile) (u : MminUpdate)
    (kw : gmap string Value) : gmap string Value :=
  foldl (fun d popid =>
           <[braced "pop_Mmin" popid := VMminInterp (ztmp u) (Mmin u)]> d)
        kw (feedback_LW_felt_by p).

(** ** [_is_converged] *)

Record Errors : Type := {
  dTb_pre : list F;
  dTb_now_interp : list F;
  err_rel : list F;
  err_abs : list F;
}.

(** Lines 528-538 on the reversed series.  The two indexed arrays have
    one index list, hence one length. *)
Definition convergence_errors (znow dTb_now zpre dTb_pre0 : list F)
    : result Errors :=
  let ok := map (fun z => flt z (lit 50)) znow in
  let? interp := np_interp zpre znow dTb_now in
  let? pre := fancy_index dTb_pre0 (np_where ok) in
  let? now := fancy_index interp (np_where ok) in
  Ok {| dTb_pre := pre; dTb_now_interp := now;
        err_rel := zip_with (fun n q => fabs (fdiv (fsub n q) n)) now pre;
        err_abs := zip_with (fun n q => fabs (fsub n q)) now pre |}.

(** Lines 540-544: the report formats the means and the maxima; [max]
    of an empty array raises. *)
Definition debug_report (e : Errors) : result unit :=
  let? _ := np_max (err_rel e) in
  let? _ := np_max (err_abs e) in
  Ok tt.

(** Lines 549-575. *)
Definition tolerance_test (p : ParameterFile) (e : Errors) : bool :=
  let rtol := feedback_LW_rtol p in
  let atol := feedback_LW_atol p in
  if feedback_LW_mean_err p then
    let early :=
      if flt (lit 0) rtol then
        if flt rtol (np_mean (err_rel e)) then Some false
        else if flt (np_mean (err_rel e)) rtol && feq atol (lit 0)
             then Some true
             else None
      else None in
    match early with
    | Some b => b
    | None =>
        if flt (lit 0) atol
        then (if flt (np_mean (err_abs e)) atol then true else false)
        else false
    end
  else
    if np_allclose (dTb_pre e) (dTb_now_interp e) rtol atol
    then true else false.

Definition _is_converged : M Self bool :=
  let! c := count in
  if (c =? 1)%Z then ret false
  else
    let! h := history in
    let! z_ := lift (getitem h "z") in
    let! h' := history in
    let! dTb_ := lift (getitem h' "dTb") in
    let! suite := getattr _suite in
    let! sim_pre := lift (index_from_end suite 2) in
    let! zpre_ := lift (getitem sim_pre "z") in
    let! dpre_ := lift (getitem sim_pre "dTb") in
    let! e := lift (convergence_errors (reversed z_) (reversed dTb_)
                                       (reversed zpre_) (reversed dpre_)) in
    let! p := pf in
    (if debug p then lift (debug_report e) else ret tt) ;;
    let! c' := count in
    let! mx := maxiter in
    if (mx <=? c')%Z then ret true
    else
      let! p' := pf in
      ret (tolerance_test p' e).

(** ** [run] *)

Definition zero_fluxes (element : Snapshot) : Snapshot :=
  <["Jlw" := lit 0]> (<["Ja" := lit 0]> element).

(** Lines 258-264: the appends go to the medium's lists. *)
Definition append_step (r : StepRecord)
    (m : MultiPhaseMedium) : MultiPhaseMedium :=
  {| tf := tf m;
     all_t := all_t m ++ [step_t r];
     all_z := all_z m ++ [step_z r];
     all_data_igm := all_data_igm m ++ [step_igm r];
     all_data_cgm := all_data_cgm m ++ [step_cgm r];
     all_RCs_igm := all_RCs_igm m ++ [step_RC_igm r];
     all_RCs_cgm := all_RCs_cgm m ++ [step_RC_cgm r];
     field := field m; cosm_nH := cosm_nH m; hydr_Ts := hydr_Ts m;
     hydr_dTb := hydr_dTb m |}.

(** The loop of lines 244-269 over what the medium's generator yields;
    each record is augmented by [step] when the loop asks for it. *)
Fixpoint run_loop (p : ParameterFile) (m : MultiPhaseMedium)
    (pending : list StepRecord) (all_dTb : list F)
    : result (list F) * MultiPhaseMedium :=
  match pending with
  | [] => (Ok all_dTb, m)
  | r0 :: pending' =>
      match step_record p m r0 with
      | Raise e => (Raise e, m)
      | Ok r =>
          if flt (step_z r) (final_redshift p) then (Ok all_dTb, m)
          else
            match getitem (step_igm r) "dTb" with
            | Raise e => (Raise e, m)
            | Ok dTb =>
                let m' := append_step r m in
                let all_dTb' := all_dTb ++ [dTb] in
                if track_extrema p
                   && is_stopping_point env (all_z m') all_dTb'
                then (Ok all_dTb', m')
                else run_loop p m' pending' all_dTb'
            end
      end
  end.

(** [self.history[k] = self.history[k']]. *)
Definition history_alias (k k' : string) : M Self unit :=
  let! h := history in
  let! v := lift (getitem h k') in
  modify (set__history (Some (<[k := v]> h))).

(** [self.history.update(d)] and [self.history[k] = v]. *)
Definition history_update (d : Data) : M Self unit :=
  let! h := history in modify (set__history (Some (d ∪ h))).

(** Lines 273-296. *)
Definition finalize_history (p : ParameterFile) : M Self unit :=
  let! m := medium in
  let! history_igm := lift (_sort_history (all_data_igm m) "igm_") in
  let! history_cgm := lift (_sort_history (all_data_cgm m) "cgm_") in
  modify (set__history (Some history_igm)) ;;
  history_update history_cgm ;;
  history_alias "dTb" "igm_dTb" ;;
  history_alias "Ts" "igm_Ts" ;;
  history_alias "Ja" "igm_Ja" ;;
  history_alias "Jlw" "igm_Jlw" ;;
  (if save_rate_coefficients p then
     let! rates_igm := lift (_sort_history (all_RCs_igm m) "igm_") in
     let! rates_cgm := lift (_sort_history (all_RCs_cgm m) "cgm_") in
     history_update rates_igm ;;
     history_update rates_cgm
   else ret tt) ;;
  history_update {[ "t" := all_t m ]} ;;
  history_update {[ "z" := all_z m ]}.

(** Lines 212-221: whether [run] returns at once, and the reboot. *)
Definition run_entry : M Self bool :=
  let! ph := gets is_phenom in
  if ph then ret true
  else
    let! has_history := gets (fun self => hasattr (_history self)) in
    let! has_suite := gets (fun self => hasattr (_suite self)) in
    if has_history && negb has_suite then ret true
    else
      let! su := gets _suite in
      match su with
      | Some (_ :: _) => reboot ;; ret false
      | _ => ret false
      end.

(** Lines 223-299: one pass of the medium, the history and the count. *)
Definition run_pass : M Self unit :=
  let! m := medium in
  modify (set__medium (Some (_insert_inits env m))) ;;
  let! p := pf in
  let! m1 := medium in
  modify (set__medium
            (Some (with_all_data_igm (map zero_fluxes (all_data_igm m1))
                                     m1))) ;;
  let! all_dTb := _init_dTb in
  let! m2 := medium in
  let lp := run_loop p m2 (medium_step env m2) all_dTb in
  modify (set__medium (Some (snd lp))) ;;
  let! _ := lift (fst lp) in
  let! p' := pf in
  finalize_history p' ;;
  let! c := count in
  modify (set__count (Some (c + 1)%Z)).

(** [run]; the fuel is the depth of Python's call stack still free, and
    running out of it is the RuntimeError of the recursion limit. *)
Fixpoint run (fuel : nat) : M Self unit :=
  match fuel with
  | O => raise RuntimeError
  | S fuel' =>
      let! done := run_entry in
      if done then ret tt
      else
        run_pass ;;
        let! p := pf in
        (match feedback_LW_Mmin p with
         | MminNone => ret tt
         | _ =>
             let! h := history in
             let! c := count in
             let! su := gets _suite in
             let! ps := get_pops in
             let! u := lift (Mmin_update p c su ps h) in
             let! suite := getattr _suite in
             let! h' := history in
             modify (set__suite
                       (Some (suite ++ [suite_entry p h' (Mmin u)]))) ;;
             modify (fun self =>
                       set_kwargs (kwargs_with_Mmin p u (kwargs self))
                                  self) ;;
             let! conv := _is_converged in
             if conv then ret tt else run fuel'
         end) ;;
        modify (set__timer (Some (elapsed env)))
  end.

(** ** [save] *)

(** What a file holds. *)
Inductive FileData : Type :=
| Empty                             (* opened for writing, nothing dumped *)
| Pickled (objs : list Data)        (* one pickle.dump per table *)
| PickledBlobs (b : Data)
| PickledPF (p : ParameterFile)
| Hdf5 (d : Data)
| Npz (d : Data)
| NpzBlobs (b : Data)
| Ascii (header : list string) (rows : list (list F))
| Foreign (tag : nat).              (* a file this class did not write *)

Local Abbreviation FS := (gmap string FileData).

Definition on_self {A} (m : M Self A) : M (Self * FS) A :=
  fun w => let r := m (fst w) in (fst r, (snd r, snd w)).
Definition path_exists (fn : string) : M (Self * FS) bool :=
  gets (fun w => hasattr (snd w !! fn)).
Definition os_remove (fn : string) : M (Self * FS) unit :=
  modify (fun w => (fst w, delete fn (snd w))).
Definition write_file (fn : string) (d : FileData) : M (Self * FS) unit :=
  modify (fun w => (fst w, <[fn := d]> (snd w))).

Definition is_nil {A} (l : list A) : bool :=
  match l with [] => true | _ => false end.

Definition history_path (prefix suffix : string) : string :=
  prefix +:+ ".history." +:+ suffix.
Definition blobs_path (prefix suffix : string) : string :=
  prefix +:+ ".blobs." +:+ suffix.
Definition parameters_path (prefix : string) : string :=
  prefix +:+ ".parameters.pkl".

(** Lines 598-604: the check of the history file. *)
Definition save_check (prefix suffix : string) (clobber : bool)
    : M (Self * FS) unit :=
  let fn := history_path prefix suffix in
  let! ex := path_exists fn in
  if ex then (if clobber then os_remove fn else raise IOError)
  else ret tt.

(** [for key in self.history]: the keys in the order of the dictionary,
    which is the order of the map here. *)
Definition dict_keys (h : Data) : list string := (map_to_list h).*1.

(** Lines 655-661: row [i] of the ASCII table, the element [i] of every
    series in the order of the keys.  A series that has no element [i]
    is an IndexError; an element that is not one number is a TypeError
    of the format. *)
Fixpoint ascii_row (h : Data) (i : nat) (keys : list string)
    : result (list F) :=
  match keys with
  | [] => Ok []
  | k :: keys' =>
      let? series := getitem h k in
      let? x := index series i in
      let? _ := (if scalar_series env k then Ok tt else Raise TypeError) in
      let? rest := ascii_row h i keys' in
      Ok (x :: rest)
  end.

(** The loop of lines 655-666 from row [i] on, [n] rows to go: the rows
    printed before a row raises stay in the file. *)
Fixpoint ascii_rows (h : Data) (keys : list string) (i n : nat)
    (printed : list (list F)) : result unit * list (list F) :=
  match n with
  | O => (Ok tt, printed)
  | S n' =>
      match ascii_row h i keys with
      | Ok r => ascii_rows h keys (S i) n' (printed ++ [r])
      | Raise e => (Raise e, printed)
      end
  end.

(** Lines 606-671: the history file and the blobs. *)
Definition save_history (prefix suffix : string) : M (Self * FS) unit :=
  let fn := history_path prefix suffix in
  let! suite := on_self (getattr _suite) in
  (* [raise NotImplemented('help!')] calls an object that is not
     callable: the exception is a TypeError *)
  (if negb (is_nil suite) && negb (bool_decide (suffix = "pkl"))
   then raise TypeError else ret tt) ;;
  if bool_decide (suffix = "pkl") then
    (if negb (is_nil suite) then write_file fn (Pickled suite)
     else
       write_file fn Empty ;;
       let! h := on_self history in
       write_file fn (Pickled [h])) ;;
    try_except
      (write_file (blobs_path prefix suffix) Empty ;;
       let! b := on_self (getattr blobs) in
       write_file (blobs_path prefix suffix) (PickledBlobs b))
      AttributeError (ret tt)
  else if bool_decide (suffix = "hdf5") || bool_decide (suffix = "h5") then
    (if h5py_installed env then ret tt else raise ImportError) ;;
    write_file fn Empty ;;
    let! h := on_self history in
    write_file fn (Hdf5 h)
  else if bool_decide (suffix = "npz") then
    write_file fn Empty ;;
    let! h := on_self history in
    write_file fn (Npz h) ;;
    let! b := on_self (getattr blobs) in
    if negb (size b =? 0)%nat
    then write_file (blobs_path prefix suffix) (NpzBlobs b)
    else ret tt
  else
    write_file fn Empty ;;
    let! h := on_self history in
    let keys := dict_keys h in
    write_file fn (Ascii keys []) ;;
    (* [len(self.history[key])] with the [key] that the header loop left
       bound: the last one, and a NameError when there was none *)
    match last keys with
    | None => raise NameError
    | Some key =>
        let! series := lift (getitem h key) in
        let rows := ascii_rows h keys 0 (length series) [] in
        write_file fn (Ascii keys (snd rows)) ;;
        lift (fst rows)
    end.

(** Lines 673-687: the parameter file. *)
Definition save_parameters (prefix : string) (clobber : bool)
    : M (Self * FS) unit :=
  let pfn := parameters_path prefix in
  let! pex := path_exists pfn in
  let! write_pf :=
    (if pex then
       if clobber then os_remove pfn ;; ret true else ret false
     else ret true) in
  if write_pf : bool then
    write_file pfn Empty ;;
    let! p := on_self pf in
    write_file pfn (PickledPF p)
  else ret tt.

Definition save (prefix suffix : string) (clobber : bool)
    : M (Self * FS) unit :=
  save_check prefix suffix clobber ;;
  save_history prefix suffix ;;
  save_parameters prefix clobber.

(** The number of rows that the ASCII loop goes through: the length of
    the series under the key that the header loop left bound. *)
Definition ascii_height (h : Data) : nat :=
  match last (dict_keys h) with
  | Some key => length (default [] (h !! key))
  | None => O
  end.

(** A table that the ASCII format can print: every series has an
    element for every row and, when there is a row, holds one number at
    each step. *)
Definition ascii_printable (h : Data) : Prop :=
  map_Forall (fun k series =>
                (ascii_height h <= length series)%nat
                /\ (ascii_height h <> O -> scalar_series env k = true)) h.

(** The rows of such a table. *)
Definition ascii_table (h : Data) : list (list F) :=
  map (fun i => omap (fun k => h !! k ≫= (fun series => series !! i))
                     (dict_keys h))
      (seq 0 (ascii_height h)).

(** The rows that the ASCII loop prints: all of them, or those before
    the first row that raises. *)
Definition printed_rows (h : Data) : list (list F) :=
  snd (ascii_rows h (dict_keys h) 0 (ascii_height h) []).

(** What the history file holds after a save, by format. *)
Definition history_payload (suffix : string) (suite : list Data)
    (h : Data) : FileData :=
  if bool_decide (suffix = "pkl") then
    (if is_nil suite then Pickled [h] else Pickled suite)
  else if bool_decide (suffix = "hdf5") || bool_decide (suffix = "h5")
  then Hdf5 h
  else if bool_decide (suffix = "npz") then Npz h
  else Ascii (dict_keys h) (printed_rows h).

(** The selection as the claim words it (C4): the errors over the points
    of the previous grid that lie below z = 50.  [convergence_errors]
    above is the code; this one only serves the comparison. *)
Definition convergence_errors_claimed (znow dTb_now zpre dTb_pre0 : list F)
    : result Errors :=
  let ok := map (fun z => flt z (lit 50)) zpre in
  let? interp := np_interp zpre znow dTb_now in
  let? pre := fancy_index dTb_pre0 (np_where ok) in
  let? now := fancy_index interp (np_where ok) in
  Ok {| dTb_pre := pre; dTb_now_interp := now;
        err_rel := zip_with (fun n q => fabs (fdiv (fsub n q) n)) now pre;
        err_abs := zip_with (fun n q => fabs (fsub n q)) now pre |}.

(** A series that never falls from one position to the next. *)
Fixpoint nondecreasing (l : list F) : Prop :=
  match l with
  | x :: l' =>
      match l' with
      | y :: _ => fle x y = true /\ nondecreasing l'
      | [] => True
      end
  | [] => True
  end.


(** The parameter file with another self-shielding option. *)
Definition with_feedback_LW_fsh (o : FshOption)
    (p : ParameterFile) : ParameterFile :=
  {| verbose := verbose p; debug := debug p;
     progress_bar := progress_bar p; final_redshift := final_redshift p;
     track_extrema := track_extrema p;
     save_rate_coefficients := save_rate_coefficients p;
     compute_fluxes_at_start := compute_fluxes_at_start p;
     feedback_maxiter := feedback_maxiter p;
     feedback_LW_Mmin := feedback_LW_Mmin p;
     feedback_LW_fsh := o;
     feedback_LW_felt_by := feedback_LW_felt_by p;
     feedback_LW_Tcut := feedback_LW_Tcut p;
     feedback_LW_Mmin_uponly := feedback_LW_Mmin_uponly p;
     feedback_LW_rtol := feedback_LW_rtol p;
     feedback_LW_atol := feedback_LW_atol p;
     feedback_LW_mean_err := feedback_LW_mean_err p |}.

(** The terms of the Lyman-Werner sum, in the order of the loops of
    [step] (C7): for a population with radiative transfer the flux of
    each of its bands that contains the Lyman-alpha line, and for one
    without it its closed-form flux when [closed_form] is set. *)
Fixpoint band_terms (p : ParameterFile) (fld : RadiationField) (z : F)
    (i j : nat) (bands : list (F * F)) : result (list F) :=
  match bands with
  | [] => Ok []
  | band :: bands' =>
      if band_has_LyA band then
        let? this := band_fluxes p fld z i j in
        let? rest := band_terms p fld z i (S j) bands' in
        Ok (snd this :: rest)
      else band_terms p fld z i (S j) bands'
  end.

Fixpoint Jlw_terms (closed_form : bool) (p : ParameterFile)
    (fld : RadiationField) (z : F) (i : nat)
    (ps : list Population) : result (list F) :=
  match ps with
  | [] => Ok []
  | pop :: ps' =>
      if is_lya_src pop then
        let? rte := index (solve_rte fld) i in
        let? mine :=
          if existsb id rte then
            let? bands := index (bands_by_pop fld) i in
            band_terms p fld z i 0 bands
          else Ok (if closed_form then [LymanWernerFlux fld z i] else []) in
        let? rest := Jlw_terms closed_form p fld z (S i) ps' in
        Ok (mine ++ rest)
      else Jlw_terms closed_form p fld z (S i) ps'
  end.

(** Whether minimum-halo-mass feedback is configured. *)
Definition feedback_configured (p : ParameterFile) : bool :=
  match feedback_LW_Mmin p with
  | MminNone => false
  | _ => true
  end.

(** The keys that [carryover_kwargs] writes. *)
Definition carryover_key (k : string) : Prop :=
  k = "tau_instance" \/ k = "hmf_instance"
  \/ exists i, k = braced "pop_psm_instance" i.

Definition carryover_only (d : gmap string Value) : Prop :=
  forall k, is_Some (d !! k) -> carryover_key k.

(** What [self.count] returns, and the suite of an object that may not
    have one yet. *)
Definition count_of (self : Global21cm) : Z := default 0 (_count self).
Definition suite_of (self : Global21cm) : list Data :=
  default [] (_suite self).

(** ** The remaining properties *)

(** The setter of [maxiter]: it reads the parameter file for its message
    and stores the value. *)
Definition set_maxiter (value : Z) : M Self unit :=
  let! p := pf in
  modify (set__maxiter (Some value)).

(** The terms of the Lyman-alpha sum of [step], in the order of its
    loops: the closed-form flux of a population without radiative
    transfer, and for one with it the flux of each of its bands that
    contains the line. *)
Fixpoint Ja_band_terms (p : ParameterFile) (fld : RadiationField) (z : F)
    (i j : nat) (bands : list (F * F)) : result (list F) :=
  match bands with
  | [] => Ok []
  | band :: bands' =>
      if band_has_LyA band then
        let? this := band_fluxes p fld z i j in
        let? rest := Ja_band_terms p fld z i (S j) bands' in
        Ok (fst this :: rest)
      else Ja_band_terms p fld z i (S j) bands'
  end.

Fixpoint Ja_terms (p : ParameterFile) (fld : RadiationField) (z : F)
    (i : nat) (ps : list Population) : result (list F) :=
  match ps with
  | [] => Ok []
  | pop :: ps' =>
      if is_lya_src pop then
        let? rte := index (solve_rte fld) i in
        let? mine :=
          if existsb id rte then
            let? bands := index (bands_by_pop fld) i in
            Ja_band_terms p fld z i 0 bands
          else Ok [LymanAlphaFlux fld z i] in
        let? rest := Ja_terms p fld z (S i) ps' in
        Ok (mine ++ rest)
      else Ja_terms p fld z (S i) ps'
  end.

End Model.

(* ================================================================== *)
(** * Concrete instances used by the evaluations below *)

Module Example.
Local Open Scope Q_scope.

Definition table (z dTb Jlw : list Q) : gmap string (list Q) :=
  <["Jlw" := Jlw]> (<["dTb" := dTb]> (<["z" := z]> ∅)).

Definition mk_pf (dbg : bool) (maxit : Z) (mmin : @MminOption Q)
    (fsh : @FshOption Q) (uponly : bool) (rtol atol : Q)
    (mean_err : bool) : @ParameterFile Q :=
  {| verbose := false; debug := dbg; progress_bar := false;
     final_redshift := 6%Q; track_extrema := false;
     save_rate_coefficients := false; compute_fluxes_at_start := false;
     feedback_maxiter := maxit; feedback_LW_Mmin := mmin;
     feedback_LW_fsh := fsh; feedback_LW_felt_by := [0%nat];
     feedback_LW_Tcut := 10000%Q; feedback_LW_Mmin_uponly := uponly;
     feedback_LW_rtol := rtol; feedback_LW_atol := atol;
     feedback_LW_mean_err := mean_err |}.

(** A halo table whose virial mass is [vm z]. *)
Definition halos_of (vm : Q -> Q) : @Halos Q :=
  {| halos_id := 7; halos_z := [5; 50]%Q;
     VirialMass := fun _ zs => map vm zs |}.

Definition pop_of (lya : bool) (vm : Q -> Q) : @Population Q :=
  {| is_lya_src := lya; sed_tab := true; src := 3;
     halos := halos_of vm; pop_Mmin := [100; 100]%Q |}.

(** A field whose populations use the closed-form fluxes. *)
Definition field_of (ps : list (@Population Q)) : @RadiationField Q :=
  {| pops := ps; solve_rte := map (fun _ => [false]) ps;
     bands_by_pop := map (fun _ => []) ps;
     LymanAlphaFlux := fun _ _ => 2%Q;
     LymanWernerFlux := fun _ _ => 1%Q;
     interp_Ja := fun _ _ => 0%Q; interp_Jlw := fun _ _ => 0%Q;
     all_fluxes := [];
     update_Jlw := fun _ _ _ => (0%Q, 0%Q);
     tau_solver := Some 11%nat |}.

Definition snapshot (Tk h_2 e : Q) : gmap string Q :=
  <["e" := e]> (<["h_2" := h_2]> (<["Tk" := Tk]> ∅)).

(** A medium that has not stepped yet; its physics returns simple
    combinations of the arguments. *)
Definition medium_of (ps : list (@Population Q)) : @MultiPhaseMedium Q :=
  {| tf := 1%Q; all_t := []; all_z := [];
     all_data_igm := []; all_data_cgm := [];
     all_RCs_igm := []; all_RCs_cgm := [];
     field := field_of ps;
     cosm_nH := fun z => z;
     hydr_Ts := fun z Tk Ja h_2 ne => Tk;
     hydr_dTb := fun z xavg Ts => (- z)%Q |}.

Definition raw_step (t z : Q) : @StepRecord Q :=
  {| step_t := t; step_z := z;
     step_igm := snapshot 10 0 0; step_cgm := snapshot 10000 0 1;
     step_RC_igm := ∅; step_RC_cgm := ∅ |}.

(** An environment whose medium yields two steps. *)
Definition env_of (p : @ParameterFile Q) (ps : list (@Population Q))
    (pw : Q -> Q -> Q) : @Env Q :=
  {| new_ParameterFile := fun _ => p;
     new_MultiPhaseMedium := fun _ => medium_of ps;
     _insert_inits := fun m => m;
     medium_step := fun _ => [raw_step 1 30; raw_step 2 20];
     phenom_model := fun _ _ => (p, ∅);
     is_stopping_point := fun _ _ => false;
     E_LyA := (102 # 10)%Q; pi := (355 # 113)%Q;
     pow := pw; log10 := fun x => x; elapsed := 1%Q;
     h5py_installed := true;
     scalar_series := fun _ => true |}.

(** An object in the state of the second iteration of a feedback run. *)
Definition sim_of (p : @ParameterFile Q) (cnt : Z)
    (suite : list (gmap string (list Q)))
    (h : gmap string (list Q)) : @Global21cm Q :=
  {| kwargs := <["problem_type" := VInt 101]> defaults;
     is_phenom := false; _suite := Some suite; _count := Some cnt;
     _timer := None; _pf := Some p;
     _medium := Some (medium_of [pop_of true (fun _ => 1000%Q)]);
     _history := Some h; _carryover_kwargs := None; _maxiter := None;
     blobs := None |}.

(** *** [_is_converged] at [count = 1] with [feedback_maxiter = 1] *)
Definition pf_maxiter1 : @ParameterFile Q :=
  mk_pf false 1 (MminFunction (fun z => z)) FshNone false 0 0 false.
Definition sim_first : @Global21cm Q :=
  sim_of pf_maxiter1 1 [table [30; 20] [5; 7] [0; 0]]
         (table [30; 20] [5; 7] [0; 0]).

(** *** A second iteration whose curve is far from the first one *)
Definition pf_maxiter2 : @ParameterFile Q :=
  mk_pf true 2 (MminFunction (fun z => z)) FshNone false (1 # 100) 0 true.
Definition sim_second : @Global21cm Q :=
  sim_of pf_maxiter2 2
         [table [30; 20] [5; 7] [0; 0]; table [30; 20] [500000; 9] [0; 0]]
         (table [30; 20] [500000; 9] [0; 0]).

Definition env1 : @Env Q := env_of pf_maxiter1 [] (fun _ _ => 0).

(** *** A second iteration whose newest grid has more points than the
    previous one *)
Definition table_shorter : gmap string (list Q) :=
  table [60; 52; 30; 6] [1; 2; 3; 4] [0; 0; 0; 0].
Definition table_longer : gmap string (list Q) :=
  table [60; 55; 48; 30; 6] [100; 200; 300; 400; 500] [0; 0; 0; 0; 0].
Definition sim_longer : @Global21cm Q :=
  sim_of pf_maxiter2 2 [table_shorter; table_longer] table_longer.

(** *** The running maximum over a ceiling that falls *)
Definition falling_ceiling (z : Q) : Q := if Qle_bool 15 z then 10 else 5.
Definition pf_uponly : @ParameterFile Q :=
  mk_pf false 5 (MminFunction (fun z => map (fun _ => 8) z)) FshNone
        true 0 0 false.

(** *** A ceiling that rises as redshift falls *)
Definition rising_ceiling (z : Q) : Q := 80 - z.

(** *** A user-supplied self-shielding function *)
Definition pf_user_fsh : @ParameterFile Q :=
  mk_pf false 5 (MminNamed "visbal2015" true)
        (FshFunction (fun z => map (fun _ => 2) z)) false 0 0 false.

(** *** The fluxes of a step *)
Definition pf_no_feedback : @ParameterFile Q :=
  mk_pf false 5 MminNone FshNone false 0 0 false.

(** Two sources of Lyman-alpha photons and one population that is none:
    the first uses the closed form, the third has two bands, of which
    the second contains the line. *)
Definition field_two_sources : @RadiationField Q :=
  {| pops := [pop_of true rising_ceiling; pop_of false rising_ceiling;
              pop_of true rising_ceiling];
     solve_rte := [[false]; [false]; [false; true]];
     bands_by_pop := [[]; []; [(5, 102 # 10); (102 # 10, 136 # 10)]];
     LymanAlphaFlux := fun _ _ => 2;
     LymanWernerFlux := fun _ _ => 1;
     interp_Ja := fun _ _ => 0; interp_Jlw := fun _ _ => 0;
     all_fluxes := [[]];
     update_Jlw := fun i j _ => (5, 3);
     tau_solver := None |}.

Definition medium_two_sources : @MultiPhaseMedium Q :=
  {| tf := 1; all_t := []; all_z := [];
     all_data_igm := []; all_data_cgm := [];
     all_RCs_igm := []; all_RCs_cgm := [];
     field := field_two_sources;
     cosm_nH := fun z => z;
     hydr_Ts := fun z Tk Ja h_2 ne => Tk;
     hydr_dTb := fun z xavg Ts => - z |}.

(** *** A run without feedback and a run with it *)
Definition pop0 : @Population Q := pop_of true rising_ceiling.
Definition env_no_feedback : @Env Q :=
  env_of pf_no_feedback [pop0] (fun _ _ => 0).
Definition pf_feedback : @ParameterFile Q :=
  mk_pf false 2 (MminFunction (fun z => map (fun zi => 100 - zi) z))
        FshNone false 0 0 false.
Definition env_feedback : @Env Q :=
  env_of pf_feedback [pop0] (fun _ _ => 0).

Definition after_first : @Global21cm Q :=
  snd (run env_no_feedback 5 (snd (new_Global21cm env_no_feedback ∅))).
Definition after_second : @Global21cm Q :=
  snd (run env_no_feedback 5 after_first).

(** *** Files *)
Definition files_with_history : gmap string (@FileData Q) :=
  {[ "out.history.pkl" := Foreign 0; "out.history.txt" := Foreign 1 ]}.

(** *** An installation without h5py, and a table whose series differ in
    length *)
Definition without_h5py (e : @Env Q) : @Env Q :=
  {| new_ParameterFile := new_ParameterFile e;
     new_MultiPhaseMedium := new_MultiPhaseMedium e;
     _insert_inits := _insert_inits e;
     medium_step := medium_step e;
     phenom_model := phenom_model e;
     is_stopping_point := is_stopping_point e;
     E_LyA := E_LyA e; pi := pi e; pow := pow e; log10 := log10 e;
     elapsed := elapsed e;
     h5py_installed := false;
     scalar_series := scalar_series e |}.
Definition files_with_h5 : gmap string (@FileData Q) :=
  {[ "out.history.h5" := Foreign 3 ]}.

(** *** A run with feedback from a new object *)
Definition after_feedback : @Global21cm Q :=
  snd (run env_feedback 5 (snd (new_Global21cm env_feedback ∅))).

(** *** The iterations of a run with feedback, one by one.  With one
    level of the call stack left, the first iteration raises at its
    recursive call and leaves the object as the second call finds it. *)
Definition medium_in (s : @Global21cm Q) : @MultiPhaseMedium Q :=
  default (medium_of []) (_medium s).
Definition history_in (s : @Global21cm Q) : gmap string (list Q) :=
  default ∅ (_history s).
Definition fresh_feedback : @Global21cm Q :=
  snd (new_Global21cm env_feedback ∅).
Definition pass_first : @Global21cm Q :=
  snd (run_pass env_feedback fresh_feedback).
Definition mid_feedback : @Global21cm Q :=
  snd (run env_feedback 1 fresh_feedback).
Definition rebooted_feedback : @Global21cm Q :=
  snd (run_entry env_feedback mid_feedback).
Definition pass_second : @Global21cm Q :=
  snd (run_pass env_feedback rebooted_feedback).
Definition end_feedback : @Global21cm Q :=
  snd (run env_feedback 5 mid_feedback).

(** *** A run with feedback and the running maximum, and an estimate of
    length 1 *)
Definition pf_feedback_uponly : @ParameterFile Q :=
  mk_pf false 2 (MminFunction (fun z => z)) FshNone true 0 0 false.
Definition env_uponly : @Env Q :=
  env_of pf_feedback_uponly [pop0] (fun _ _ => 0).
Definition fresh_uponly : @Global21cm Q :=
  snd (new_Global21cm env_uponly ∅).
Definition after_uponly : @Global21cm Q :=
  snd (run env_uponly 5 fresh_uponly).
Definition pf_short_estimate : @ParameterFile Q :=
  mk_pf false 2 (MminFunction (fun _ => [8])) FshNone false 0 0 false.

(** *** Keyword arguments that name phenomenological models *)
Definition kw_tanh_off : gmap string (@Value Q) :=
  <["tanh_model" := VBool false]> {[ "gaussian_model" := VBool true ]}.
Definition kw_gaussian : gmap string (@Value Q) :=
  <["load_ics" := VBool false]> {[ "gaussian_model" := VBool true ]}.

(** *** A second iteration whose suite holds one entry only, and one
    whose grids lie above z = 50 *)
Definition sim_short_suite : @Global21cm Q :=
  sim_of pf_maxiter2 2 [table [30; 20] [5; 7] [0; 0]]
         (table [30; 20] [5; 7] [0; 0]).
Definition sim_high_z : @Global21cm Q :=
  sim_of pf_maxiter2 2
         [table [80; 60] [5; 7] [0; 0]; table [80; 60] [6; 9] [0; 0]]
         (table [80; 60] [6; 9] [0; 0]).

(** *** The object after a first reboot, and a run after the bound was
    raised to 3 *)
Definition after_reboot : @Global21cm Q := snd (reboot env1 sim_first).
Definition after_raised : @Global21cm Q :=
  snd (run env_feedback 5
         (snd (set_maxiter env_feedback 3
                 (snd (new_Global21cm env_feedback ∅))))).

(** *** A step of the medium with two sources, after [step] *)
Definition stepped_two_sources : @StepRecord Q :=
  {| step_t := 1; step_z := 30;
     step_igm := <["Jlw" := 4]> (<["Ja" := 7]> (<["dTb" := - 30]>
                   (<["Ts" := 10]> (snapshot 10 0 0))));
     step_cgm := snapshot 10000 0 1;
     step_RC_igm := ∅; step_RC_cgm := ∅ |}.

(** *** An object whose medium holds one initial record *)
Definition medium_started : @MultiPhaseMedium Q :=
  {| tf := 1; all_t := [0]; all_z := [40];
     all_data_igm := [snapshot 10 0 0];
     all_data_cgm := [snapshot 10000 0 1];
     all_RCs_igm := [∅]; all_RCs_cgm := [∅];
     field := field_of [pop0];
     cosm_nH := fun z => z;
     hydr_Ts := fun z Tk Ja h_2 ne => Tk;
     hydr_dTb := fun z xavg Ts => - z |}.
Definition sim_started : @Global21cm Q :=
  {| kwargs := <["problem_type" := VInt 101]> defaults;
     is_phenom := false; _suite := Some []; _count := None;
     _timer := None; _pf := Some pf_no_feedback;
     _medium := Some medium_started;
     _history := None; _carryover_kwargs := None; _maxiter := None;
     blobs := None |}.

(** *** The medium of the object after its first call of [run] *)
Definition medium_after_first : @MultiPhaseMedium Q :=
  default (medium_of []) (_medium after_first).
Definition refinalized : @Global21cm Q :=
  snd (finalize_history env_no_feedback pf_no_feedback after_first).

(** *** Files after one save of the object of the first call *)
Definition saved_once : @Global21cm Q * gmap string (@FileData Q) :=
  snd (save env_no_feedback "out" "pkl" false (after_first, ∅)).
Definition history_after_first : gmap string (list Q) :=
  default ∅ (_history after_first).

End Example.

(* ================================================================== *)
(** * Facts about the arrays *)

Section ArrayFacts.
Context {F : Type} {NF : Numeric F}.

Lemma np_where_from_bound (mask : list bool) :
  forall k, Forall (fun i => k <= i < k + length mask)%nat
                   (np_where_from k mask).
Proof.
  induction mask as [|b mask IH]; intros k; simpl; [constructor|].
  assert (Hrest : Forall (fun i => k <= i < k + S (length mask))%nat
                         (np_where_from (S k) mask)).
  { eapply Forall_impl; [apply IH|]. simpl. intros i Hi. lia. }
  destruct b; [constructor; [lia | exact Hrest] | exact Hrest].
Qed.

Lemma np_where_bound (mask : list bool) :
  Forall (fun i => i < length mask)%nat (np_where mask).
Proof.
  eapply Forall_impl; [apply (np_where_from_bound mask 0)|].
  simpl. intros i Hi. lia.
Qed.

Lemma np_where_from_nonempty (mask : list bool) :
  forall k, Exists (fun b => b = true) mask -> np_where_from k mask <> [].
Proof.
  induction mask as [|b mask IH]; intros k Hex; inversion Hex; subst; simpl.
  - discriminate.
  - destruct b; [discriminate | by apply IH].
Qed.

Lemma fancy_index_total (a : list F) (idx : list nat) :
  Forall (fun i => i < length a)%nat idx ->
  exists r, fancy_index a idx = Ok r /\ length r = length idx.
Proof.
  induction 1 as [|i idx Hi _ IH]; simpl; [by exists []|].
  destruct IH as (r & -> & Hlen).
  unfold index. destruct (lookup_lt_is_Some_2 a i Hi) as [x ->]. simpl.
  exists (x :: r). simpl. by rewrite Hlen.
Qed.

Lemma np_interp_total (x xp fp : list F) :
  xp <> [] -> length fp = length xp ->
  exists r, np_interp x xp fp = Ok r /\ length r = length x.
Proof.
  intros Hne Hlen. destruct xp as [|x0 xp]; [done|].
  destruct fp as [|f0 fp]; [done|]. simpl in *.
  rewrite bool_decide_eq_true_2; [|lia].
  eexists; split; [reflexivity|]. by rewrite length_map.
Qed.

(** The errors are computed whenever the newest grid is not empty, has
    its curve at full length, and is not longer than the previous
    iteration's series. *)
Lemma convergence_errors_total (znow dTb_now zpre dTb_pre0 : list F) :
  znow <> [] -> length dTb_now = length znow ->
  (length znow <= length zpre)%nat ->
  (length znow <= length dTb_pre0)%nat ->
  exists e, convergence_errors znow dTb_now zpre dTb_pre0 = Ok e
            /\ length (err_rel e)
               = length (np_where (map (fun z => flt z (lit 50)) znow))
            /\ length (err_abs e) = length (err_rel e).
Proof.
  intros Hne Hd Hz Hp. unfold convergence_errors.
  destruct (np_interp_total zpre znow dTb_now Hne Hd) as (it & -> & Hit).
  simpl.
  set (idx := np_where (map (fun z => flt z (lit 50)) znow)).
  assert (Hidx : Forall (fun i => i < length znow)%nat idx).
  { pose proof (np_where_bound (map (fun z => flt z (lit 50)) znow)) as Hb.
    by rewrite length_map in Hb. }
  destruct (fancy_index_total dTb_pre0 idx) as (pre & -> & Hpre).
  { eapply Forall_impl; [exact Hidx|]. simpl. lia. }
  destruct (fancy_index_total it idx) as (now & -> & Hnow).
  { eapply Forall_impl; [exact Hidx|]. simpl. lia. }
  simpl. eexists; split; [reflexivity|]. simpl.
  rewrite !length_zip_with. lia.
Qed.

Lemma np_max_total (a : list F) :
  a <> [] -> exists x, np_max a = Ok x.
Proof. destruct a; [done|]. simpl. eauto. Qed.

End ArrayFacts.

(* ================================================================== *)
(** * The convergence test *)

Section Convergence.
Context {F : Type} {NF : Numeric F}.

(** Reading the parameter file never fails; it can only memoize it. *)
Lemma pf_reads (env : Env) (self : @Global21cm F) (p : ParameterFile) :
  fst (pf env self) = Ok p ->
  exists self1,
    pf env self = (Ok p, self1) /\ _pf self1 = Some p
    /\ _count self1 = _count self /\ _maxiter self1 = _maxiter self.
Proof.
  unfold pf. destruct (_pf self) eqn:E; simpl; intros [= <-].
  - by exists self.
  - eexists. split; [reflexivity|]. by destruct self.
Qed.

(** Once the errors are at hand, the test of the bound (lines 546-547)
    answers True when the count has reached it. *)
Lemma bound_reached (env : Env) (self : @Global21cm F) (c : Z)
    (p : ParameterFile) (e : Errors) :
  _count self = Some c -> _pf self = Some p ->
  match _maxiter self with
  | Some n => n
  | None => feedback_maxiter p
  end <= c ->
  fst ((let! c' := count in
        let! mx := maxiter env in
        if mx <=? c' then ret true
        else let! p' := pf env in ret (tolerance_test p' e)) self)
  = Ok true.
Proof.
  intros Hc Hp Hmx. apply Z.leb_le in Hmx.
  unfold bind, count, maxiter, pf. rewrite Hc, Hp.
  destruct (_maxiter self); simpl; unfold ret; by rewrite Hmx.
Qed.

(** C1, as the code has it.  When the count has reached the configured
    maximum and is not 1, [_is_converged] never returns False, whatever
    the tolerances, the mean-error flag and the errors are: whenever it
    returns, it returns True; and it does return when the reads of the
    two curves and their comparison, which come before the test of the
    bound, raise nothing, and with [debug] on neither does the report. *)
Theorem is_converged_at_maxiter (env : Env) (self : Global21cm)
    (c : Z) (p : ParameterFile) :
  _count self = Some c -> c <> 1 ->
  fst (pf env self) = Ok p ->
  match _maxiter self with
  | Some n => n
  | None => feedback_maxiter p
  end <= c ->
  (forall b, fst (_is_converged env self) = Ok b -> b = true)
  /\ (forall (h sim_pre last : gmap string (list F))
             (older : list (gmap string (list F)))
             (z d zpre dpre : list F) (e : Errors),
        _history self = Some h ->
        h !! "z" = Some z -> h !! "dTb" = Some d ->
        _suite self = Some (older ++ [sim_pre; last]) ->
        sim_pre !! "z" = Some zpre -> sim_pre !! "dTb" = Some dpre ->
        convergence_errors (reversed z) (reversed d)
                           (reversed zpre) (reversed dpre) = Ok e ->
        (debug p = true -> debug_report e = Ok tt) ->
        fst (_is_converged env self) = Ok true).
Proof.
  intros Hc Hc1 Hp Hmx.
  destruct (pf_reads env self p Hp) as (self1 & Hpf & Hp1 & Hc1' & Hm1).
  assert (Hcs : _count self1 = Some c) by (by rewrite Hc1').
  rewrite <- Hm1 in Hmx.
  pose proof (fun e => bound_reached env self1 c p e Hcs Hp1 Hmx) as Hend.
  split.
  - intros b. unfold _is_converged. unfold bind at 1. unfold count at 1.
    rewrite Hc. destruct (Z.eqb_spec c 1) as [|_]; [done|].
    unfold bind at 1, history at 1, getattr at 1.
    destruct (_history self) as [h|]; [|discriminate].
    unfold bind at 1, lift at 1.
    destruct (getitem h "z") as [z|]; [|discriminate].
    unfold bind at 1, history at 1, getattr at 1.
    destruct (_history self) as [h'|]; [|discriminate].
    unfold bind at 1, lift at 1.
    destruct (getitem h' "dTb") as [d|]; [|discriminate].
    unfold bind at 1, getattr at 1.
    destruct (_suite self) as [suite|]; [|discriminate].
    unfold bind at 1, lift at 1.
    destruct (index_from_end suite 2) as [sim_pre|]; [|discriminate].
    unfold bind at 1, lift at 1.
    destruct (getitem sim_pre "z") as [zpre|]; [|discriminate].
    unfold bind at 1, lift at 1.
    destruct (getitem sim_pre "dTb") as [dpre|]; [|discriminate].
    unfold bind at 1, lift at 1.
    destruct (convergence_errors _ _ _ _) as [e|]; [|discriminate].
    unfold bind at 1. rewrite Hpf.
    unfold bind at 1.
    destruct (debug p).
    + unfold lift at 1. destruct (debug_report e) as [[]|]; [|discriminate].
      rewrite Hend. by intros [= <-].
    + unfold ret at 1. rewrite Hend. by intros [= <-].
  - intros h sim_pre last older z d zpre dpre e Hh Hz Hd Hs Hzp Hdp He Hrep.
    unfold _is_converged, bind at 1, count at 1. rewrite Hc.
    destruct (Z.eqb_spec c 1) as [|_]; [done|].
    unfold bind at 1, history at 1, getattr at 1. rewrite Hh.
    unfold bind at 1, lift at 1, getitem at 1. rewrite Hz.
    unfold bind at 1, history at 1, getattr at 1. rewrite Hh.
    unfold bind at 1, lift at 1, getitem at 1. rewrite Hd.
    unfold bind at 1, getattr at 1. rewrite Hs.
    unfold bind at 1, lift at 1, index_from_end, index.
    rewrite rev_app_distr. simpl.
    unfold bind at 1, lift at 1, getitem at 1. rewrite Hzp.
    unfold bind at 1, lift at 1, getitem at 1. rewrite Hdp.
    unfold bind at 1, lift at 1. rewrite He.
    unfold bind at 1. rewrite Hpf.
    unfold bind at 1.
    destruct (debug p).
    + unfold lift at 1. rewrite (Hrep eq_refl). apply Hend.
    + unfold ret at 1. apply Hend.
Qed.
End Convergence.

(** X1.  The first iteration answers False before the bound is looked
    at, and the object is as before. *)
Lemma is_converged_first (F : Type) (NF : Numeric F) (env : Env)
    (self : @Global21cm F) :
  _count self = Some 1 -> _is_converged env self = (Ok false, self).
Proof. intros Hc. unfold _is_converged, bind, count. by rewrite Hc. Qed.

(** C1, a run of it: the second iteration of a run with
    [feedback_maxiter = 2], a newest grid of five redshifts against a
    previous grid of four, a curve that moved from 1 to 100, the
    mean-error policy with [rtol = 0.01] and [debug] on. *)
Lemma is_converged_at_maxiter_witness :
  fst (_is_converged Example.env1 Example.sim_longer) = Ok true.
Proof.
  destruct (is_converged_at_maxiter Example.env1 Example.sim_longer 2
              Example.pf_maxiter2) as [_ H];
    [reflexivity | discriminate | reflexivity | simpl; lia |].
  eapply (H Example.table_longer Example.table_shorter
            Example.table_longer []
            [60; 55; 48; 30; 6]%Q [100; 200; 300; 400; 500]%Q
            [60; 52; 30; 6]%Q [1; 2; 3; 4]%Q).
  - reflexivity.
  - reflexivity.
  - reflexivity.
  - reflexivity.
  - reflexivity.
  - reflexivity.
  - vm_compute. reflexivity.
  - intros _. vm_compute. reflexivity.
Defined.

(** C1 as stated fails: with [feedback_maxiter = 1] the count reaches
    the bound on the first iteration, and the answer is False. *)
Lemma is_converged_maxiter1_false :
  _count Example.sim_first = Some 1
  /\ feedback_maxiter Example.pf_maxiter1 = 1
  /\ fst (_is_converged Example.env1 Example.sim_first) = Ok false.
Proof. repeat split. Qed.

(** C4, the code at inputs that tell the two masks apart.  The mask is
    taken from the newest grid and used as positions in the series of
    the previous grid.
    - Newest grid (40, 45), previous grid (40, 60): the previous point at
      z = 60 is compared, and it carries the whole error.
    - Newest grid (40, 60), previous grid (30, 45): the previous point at
      z = 45 is left out.
    - Newest grid (30, 40, 45), previous grid (30, 40): position 2 does
      not exist in the previous series. *)
Lemma convergence_mask_is_newest_grid :
  convergence_errors [40; 45]%Q [1; 2]%Q [40; 60]%Q [1; 7]%Q
    = Ok {| dTb_pre := [1; 7]%Q; dTb_now_interp := [1; 2]%Q;
            err_rel := [0; 5 # 2]%Q; err_abs := [0; 5]%Q |}
  /\ convergence_errors_claimed [40; 45]%Q [1; 2]%Q [40; 60]%Q [1; 7]%Q
    = Ok {| dTb_pre := [1]%Q; dTb_now_interp := [1]%Q;
            err_rel := [0]%Q; err_abs := [0]%Q |}
  /\ convergence_errors [40; 60]%Q [1; 2]%Q [30; 45]%Q [5; 7]%Q
    = Ok {| dTb_pre := [5]%Q; dTb_now_interp := [1]%Q;
            err_rel := [4]%Q; err_abs := [4]%Q |}
  /\ convergence_errors_claimed [40; 60]%Q [1; 2]%Q [30; 45]%Q [5; 7]%Q
    = Ok {| dTb_pre := [5; 7]%Q; dTb_now_interp := [1; 5 # 4]%Q;
            err_rel := [4; 23 # 5]%Q; err_abs := [4; 23 # 4]%Q |}
  /\ convergence_errors [30; 40; 45]%Q [1; 2; 3]%Q [30; 40]%Q [1; 2]%Q
    = Raise IndexError.
Proof. repeat split. Qed.

(** The same inputs in IEEE doubles, and what a NaN does to the test: a
    NaN in the newest curve makes the mean error a NaN, which is neither
    above nor below the tolerance. *)
Lemma convergence_mask_in_doubles :
  convergence_errors [40; 45]%float [1; 2]%float [40; 60]%float
                     [1; 7]%float
    = Ok {| dTb_pre := [1; 7]%float; dTb_now_interp := [1; 2]%float;
            err_rel := [0; 2.5]%float; err_abs := [0; 5]%float |}
  /\ convergence_errors [30; 40; 45]%float [1; 2; 3]%float
                        [30; 40]%float [1; 2]%float
    = Raise IndexError
  /\ (exists e,
        convergence_errors [40; 45]%float [nan; 2]%float [40; 45]%float
                           [1; 2]%float = Ok e
        /\ flt (lit (1 # 100)) (np_mean (err_rel e)) = false
        /\ flt (np_mean (err_rel e)) (lit (1 # 100)) = false).
Proof.
  split; [vm_compute; reflexivity|].
  split; [vm_compute; reflexivity|].
  eexists. split; [vm_compute; reflexivity|].
  split; vm_compute; reflexivity.
Qed.

(** The clip and the running maximum in IEEE doubles: a NaN passes the
    clip and stays in the running maximum, and a NaN never compares above
    the ceiling. *)
Lemma clip_and_accumulate_in_doubles :
  elementwise fmin [8; 8]%float [10; 5]%float = Ok [8; 5]%float
  /\ np_maximum_accumulate [8; 5]%float = [8; 8]%float
  /\ elementwise fmin [8; nan; 3]%float [10; 20; 30]%float
     = Ok [8; nan; 3]%float
  /\ np_maximum_accumulate [8; nan; 3]%float = [8; nan; nan]%float
  /\ flt 30%float nan = false.
Proof. repeat (split; [vm_compute; reflexivity|]). vm_compute; reflexivity. Qed.

(* ================================================================== *)
(** * The update of Mmin *)

Lemma rbind_Ok {A B} (m : result A) (k : A -> result B) (b : B) :
  rbind m k = Ok b -> exists a, m = Ok a /\ k a = Ok b.
Proof. destruct m as [a|e]; simpl; [eauto | discriminate]. Qed.

(** Peel the first binding of a successful computation. *)
Ltac peel H x Hx :=
  apply rbind_Ok in H; destruct H as (x & Hx & H).

#[global] Instance Q_order : NumericOrder Q.
Proof.
  split.
  - intros a b c Hab Hbc. simpl in *.
    apply negb_false_iff, Qle_bool_iff in Hab.
    apply Qle_bool_iff in Hbc.
    apply negb_false_iff, Qle_bool_iff. by eapply Qle_trans.
  - intros a c. simpl. apply negb_false_iff.
    destruct (Qle_bool a c) eqn:E; [exact E|].
    apply Qle_bool_iff, Qle_refl.
  - intros a b. simpl. destruct (Qle_bool b a); auto.
Qed.

Section MminFacts.
Context {F : Type} {NF : Numeric F}.

Lemma zip_with_replicate_l (op : F -> F -> F) (x : F) (b : list F) :
  zip_with op (replicate (length b) x) b = map (op x) b.
Proof. induction b as [|y b IH]; simpl; [done | by rewrite IH]. Qed.

Lemma zip_with_replicate_r (op : F -> F -> F) (y : F) (a : list F) :
  zip_with op a (replicate (length a) y) = map (fun x => op x y) a.
Proof. induction a as [|x a IH]; simpl; [done | by rewrite IH]. Qed.

Lemma broadcast_to_same (a : list F) : broadcast_to (length a) a = a.
Proof. unfold broadcast_to. by rewrite bool_decide_eq_true_2. Qed.

Lemma broadcast_to_one (n : nat) (x : F) :
  broadcast_to n [x] = replicate n x.
Proof.
  unfold broadcast_to. case_bool_decide as E; [|done].
  simpl in E. by subst n.
Qed.

(** What a ufunc that returns has computed: the position-by-position
    combination of its two operands, each broadcast to the length of the
    result. *)
Lemma elementwise_Ok (op : F -> F -> F) (a b r : list F) :
  elementwise op a b = Ok r ->
  length (broadcast_to (length r) a) = length r
  /\ length (broadcast_to (length r) b) = length r
  /\ r = zip_with op (broadcast_to (length r) a)
                     (broadcast_to (length r) b).
Proof.
  unfold elementwise. case_bool_decide as E.
  - intros [= <-].
    assert (Hl : length (zip_with op a b) = length a).
    { rewrite length_zip_with. lia. }
    rewrite Hl. rewrite broadcast_to_same.
    rewrite E at 1 3 5. by rewrite broadcast_to_same.
  - destruct a as [|x [|x' a]].
    + destruct b as [|y [|y' b]]; [done | | discriminate].
      intros [= <-]. by repeat split.
    + intros [= <-]. rewrite length_map, broadcast_to_one,
        broadcast_to_same, length_replicate, zip_with_replicate_l. done.
    + destruct b as [|y [|y' b]]; try discriminate.
      intros [= <-].
      change (op x y :: op x' y :: map (fun x0 => op x0 y) a)
        with (map (fun x0 => op x0 y) (x :: x' :: a)).
      rewrite length_map, broadcast_to_one, broadcast_to_same,
        length_replicate, zip_with_replicate_r. done.
Qed.

Lemma elementwise_same (op : F -> F -> F) (a b : list F) :
  length a = length b -> elementwise op a b = Ok (zip_with op a b).
Proof. intros E. unfold elementwise. by rewrite bool_decide_eq_true_2. Qed.

Lemma index_from_end_last {A} (l : list A) (x : A) :
  index_from_end l 1 = Ok x -> last l = Some x.
Proof.
  unfold index_from_end, index.
  destruct l as [|y l] using rev_ind; [discriminate|].
  rewrite rev_app_distr, last_snoc. simpl. congruence.
Qed.

Lemma index_head {A} (l : list A) (x : A) :
  index l 0 = Ok x -> head l = Some x.
Proof. unfold index. destruct l; simpl; congruence. Qed.

Lemma getitem_Ok {V} (d : gmap string V) (k : string) (v : V) :
  getitem d k = Ok v -> d !! k = Some v.
Proof. unfold getitem. destruct (d !! k); congruence. Qed.

Lemma attr_Ok {A} (o : option A) (v : A) : attr o = Ok v -> o = Some v.
Proof. destruct o; simpl; congruence. Qed.

(** Every key that [suite_entry] writes holds the series, and every
    other key holds what the history holds. *)
Lemma suite_entry_felt (p : ParameterFile)
    (hist : gmap string (list F)) (Mm : list F) (popid : nat) :
  popid ∈ feedback_LW_felt_by p ->
  suite_entry p hist Mm !! braced "pop_Mmin" popid = Some Mm.
Proof.
  unfold suite_entry. generalize (feedback_LW_felt_by p). intros l.
  induction l as [|q l IH] using rev_ind; [by intros ?%elem_of_nil|].
  rewrite foldl_app. simpl. intros [Hin| ->%list_elem_of_singleton]%elem_of_app.
  - rewrite lookup_insert. case_decide; [done | by apply IH].
  - by rewrite lookup_insert_eq.
Qed.

Lemma suite_entry_other (p : ParameterFile)
    (hist : gmap string (list F)) (Mm : list F) (k : string) :
  (forall popid, popid ∈ feedback_LW_felt_by p ->
                 k <> braced "pop_Mmin" popid) ->
  suite_entry p hist Mm !! k = hist !! k.
Proof.
  unfold suite_entry. generalize (feedback_LW_felt_by p). intros l.
  induction l as [|q l IH] using rev_ind; [done|].
  intros Hk. rewrite foldl_app. simpl. rewrite lookup_insert_ne.
  - apply IH. intros popid Hin. apply Hk, elem_of_app. by left.
  - intros E. apply (Hk q); [|done]. apply elem_of_app. right.
    by apply list_elem_of_singleton.
Qed.

(** The update, read off lines 307-370: its grid, its raw estimate, the
    damping, the ceiling, the clip and the running maximum. *)
Lemma Mmin_update_Ok (env : Env) (p : ParameterFile) (cnt : Z)
    (su : option (list (gmap string (list F)))) (ps : list Population)
    (hist : gmap string (list F)) (u : MminUpdate) :
  Mmin_update env p cnt su ps hist = Ok u ->
  exists Jlw0 fM raw popid pop_fb clipped,
    hist !! "z" = Some (ztmp u) /\ hist !! "Jlw" = Some Jlw0
    /\ f_M env p cnt su ps (ztmp u)
          (map (fun x => fdiv x (lit (1 # 10 ^ 21))) Jlw0) = Ok fM
    /\ fM (ztmp u) = Ok raw
    /\ (cnt <= 1 -> _Mmin_next u = raw)
    /\ (1 < cnt ->
        exists suite entry hz hM prev,
          su = Some suite /\ last suite = Some entry
          /\ entry !! "z" = Some hz
          /\ entry !! braced "pop_Mmin" popid = Some hM
          /\ np_interp (ztmp u) (reversed hz) (reversed hM) = Ok prev
          /\ np_mean_rows raw prev = Ok (_Mmin_next u))
    /\ head (feedback_LW_felt_by p) = Some popid
    /\ ps !! popid = Some pop_fb
    /\ Mmin_ceil u
       = VirialMass (halos pop_fb) (feedback_LW_Tcut p) (ztmp u)
    /\ elementwise fmin (_Mmin_next u) (Mmin_ceil u) = Ok clipped
    /\ Mmin u = if feedback_LW_Mmin_uponly p
                then np_maximum_accumulate clipped else clipped.
Proof.
  intros H. unfold Mmin_update in H.
  peel H z Hz. peel H Jlw0 HJ. peel H fM HfM. peel H next Hnext.
  peel H popid Hpop. peel H pop_fb Hfb. peel H clipped Hclip.
  injection H as <-. simpl.
  apply getitem_Ok in Hz, HJ. apply index_head in Hpop.
  assert (Hfb' : ps !! popid = Some pop_fb).
  { unfold index in Hfb. destruct (ps !! popid); congruence. }
  destruct (Z.ltb_spec 1 cnt) as [Hgt|Hle].
  - peel Hnext suite Hsu. peel Hnext entry Hent. peel Hnext popid' Hpop'.
    peel Hnext hz Hhz. peel Hnext hM HhM. peel Hnext prev Hprev.
    peel Hnext raw Hraw.
    apply index_head in Hpop'. rewrite Hpop in Hpop'.
    injection Hpop' as <-.
    exists Jlw0, fM, raw, popid, pop_fb, clipped.
    do 4 (split; [done|]). split; [lia|]. split.
    + intros _. exists suite, entry, hz, hM, prev.
      repeat split; try done;
        eauto using attr_Ok, index_from_end_last, getitem_Ok.
    + done.
  - exists Jlw0, fM, next, popid, pop_fb, clipped.
    do 5 (split; [done|]). split; [lia | done].
Qed.








(** A self-shielding option that is a function selects the power law, as
    every value other than None does. *)
Lemma f_sh_of_function (env : Env) (p : ParameterFile)
    (g : list F -> list F) (cnt : Z)
    (su : option (list (gmap string (list F)))) (ps : list Population) :
  f_sh env (with_feedback_LW_fsh (FshFunction g) p) cnt su ps
  = f_sh_power_law env (with_feedback_LW_fsh (FshFunction g) p) cnt su ps.
Proof. reflexivity. Qed.

End MminFacts.

(** C6, the code at a user-supplied function.  The option is the
    function that returns 2 at every redshift; whatever [pow] is, the
    self-shielding factor that the code applies is the clipped power law
    (at most 1), and it is this factor that multiplies the interpolated
    flux in [f_J]. *)
Lemma user_f_sh_is_not_used (pw : Q -> Q -> Q) :
  exists g x,
    feedback_LW_fsh Example.pf_user_fsh = FshFunction g
    /\ g [20]%Q = [2]%Q
    /\ f_sh (Example.env_of Example.pf_user_fsh [] pw) Example.pf_user_fsh 1
         (Some []) [Example.pop_of true Example.rising_ceiling] [20]%Q
       = Ok (Array [x])
    /\ Qle_bool x 1%Q = true
    /\ f_J (Example.env_of Example.pf_user_fsh [] pw) Example.pf_user_fsh 1
         (Some []) [Example.pop_of true Example.rising_ceiling]
         [30; 10]%Q [4; 4]%Q [20]%Q
       = Ok [fmul x 4%Q].
Proof.
  exists (fun z => map (fun _ => 2%Q) z).
  exists (fmin (lit 1)
            (pw (fdiv (NH2 (Example.env_of Example.pf_user_fsh [] pw)
                           20%Q 100%Q)
                      (lit (inject_Z (10 ^ 14))))
                (lit (- 3 # 4)))).
  split; [reflexivity|]. split; [reflexivity|].
  split; [reflexivity|]. split; [|reflexivity].
  set (y := pw _ _).
  change (Qle_bool (if Qle_bool 1 y then 1%Q else y) 1 = true).
  destruct (Qle_bool 1 y) eqn:E; [reflexivity|].
  apply Qle_bool_iff, Qnot_lt_le. intros Hlt.
  apply Qlt_le_weak, Qle_bool_iff in Hlt. congruence.
Qed.

(* ================================================================== *)
(** * The fluxes of a step *)

Section StepFacts.
Context {F : Type} {NF : Numeric F}.

Lemma step_bands_sum (env : Env) (p : ParameterFile)
    (fld : RadiationField) (z : F) (i : nat) (bands : list (F * F)) :
  forall j J J',
    step_bands env p fld z i j bands J = Ok J' ->
    exists ts, band_terms env p fld z i j bands = Ok ts
               /\ snd J' = fold_left fadd ts (snd J).
Proof.
  induction bands as [|band bands IH]; intros j J J' H; simpl in *.
  - injection H as <-. by exists [].
  - destruct (band_has_LyA env band); simpl in H.
    + peel H this Hthis. rewrite Hthis. simpl.
      destruct (IH _ _ _ H) as (ts & -> & ->). simpl. eauto.
    + by apply IH.
Qed.

Lemma step_pops_sum (env : Env) (p : ParameterFile)
    (fld : RadiationField) (z : F) (ps : list Population) :
  forall i J J',
    step_pops env p fld z i ps J = Ok J' ->
    exists ts,
      Jlw_terms env (feedback_configured p) p fld z i ps = Ok ts
      /\ snd J' = fold_left fadd ts (snd J).
Proof.
  induction ps as [|pop ps IH]; intros i J J' H; simpl in *.
  - injection H as <-. by exists [].
  - destruct (is_lya_src pop); simpl in H; [|by apply IH].
    peel H rte Hrte. rewrite Hrte. simpl.
    destruct (existsb id rte); simpl in H.
    + peel H bands Hb. peel H J1 HJ1. rewrite Hb. simpl.
      destruct (step_bands_sum _ _ _ _ _ _ _ _ _ HJ1) as (t1 & -> & E1).
      destruct (IH _ _ _ H) as (t2 & -> & E2). simpl.
      exists (t1 ++ t2). split; [done|].
      by rewrite fold_left_app, <- E1.
    + destruct (IH _ _ _ H) as (t2 & -> & E2). simpl.
      eexists; split; [reflexivity|]. rewrite E2. simpl.
      unfold feedback_configured. by destruct (feedback_LW_Mmin p).
Qed.

(** C7, as the code has it.  The Jlw attached to the igm state of a step
    is the sum, from 0.0 and in the order of the loops, over the sources
    of Lyman-alpha photons of: the closed-form flux of a population
    without radiative transfer when minimum-halo-mass feedback is
    configured, and nothing from it when it is not; the flux of every
    band that contains the Lyman-alpha line for a population with
    radiative transfer. *)
Theorem step_Jlw_is_sum (env : Env) (p : ParameterFile)
    (m : MultiPhaseMedium) (r0 r : StepRecord) :
  step_record env p m r0 = Ok r ->
  exists ts,
    Jlw_terms env (feedback_configured p) p (field m) (step_z r0) 0
              (pops (field m)) = Ok ts
    /\ step_igm r !! "Jlw" = Some (np_sum ts).
Proof.
  intros H. unfold step_record in H.
  peel H J HJ. peel H Tk HTk. peel H h_2 Hh2. peel H e He.
  peel H x_cgm Hx. peel H h_2' Hh2'. injection H as <-. simpl.
  destruct (step_pops_sum _ _ _ _ _ _ _ _ HJ) as (ts & Hts & E).
  exists ts. split; [exact Hts|].
  rewrite lookup_insert_eq. by rewrite E.
Qed.

End StepFacts.

(** C7, a run of it: feedback configured, the first population in closed
    form (1), the second no source, the third with one band on the line
    (3). *)
Lemma step_Jlw_is_sum_witness :
  exists ts,
    Jlw_terms Example.env1 true Example.pf_maxiter1
      Example.field_two_sources 30%Q 0
      (pops Example.field_two_sources) = Ok ts
    /\ <["Jlw" := 4%Q]> (<["Ja" := 7%Q]> (<["dTb" := (-30)%Q]>
         (<["Ts" := 10%Q]> (Example.snapshot 10 0 0)))) !! "Jlw"
       = Some (np_sum ts).
Proof.
  exact (step_Jlw_is_sum Example.env1 Example.pf_maxiter1
           Example.medium_two_sources (Example.raw_step 1 30)
           {| step_t := 1%Q; step_z := 30%Q;
              step_igm := <["Jlw" := 4%Q]> (<["Ja" := 7%Q]>
                            (<["dTb" := (-30)%Q]> (<["Ts" := 10%Q]>
                               (Example.snapshot 10 0 0))));
              step_cgm := Example.snapshot 10000 0 1;
              step_RC_igm := ∅; step_RC_cgm := ∅ |} eq_refl).
Defined.

(** C7 as stated fails: without minimum-halo-mass feedback a population
    in closed form adds its Lyman-alpha flux and no Lyman-Werner flux.
    The sum the claim describes is 1 + 3; the step carries 3. *)
Lemma step_Jlw_without_feedback :
  feedback_LW_Mmin Example.pf_no_feedback = MminNone
  /\ (exists r,
        step_record Example.env1 Example.pf_no_feedback
          Example.medium_two_sources (Example.raw_step 1 30) = Ok r
        /\ step_igm r !! "Jlw" = Some 3%Q)
  /\ Jlw_terms Example.env1 true Example.pf_no_feedback
       Example.field_two_sources 30%Q 0
       (pops Example.field_two_sources) = Ok [1; 3]%Q.
Proof.
  split; [reflexivity|]. split; [|reflexivity].
  eexists. split; reflexivity.
Qed.

(* ================================================================== *)
(** * [reboot] *)

Section RebootFacts.
Context {F : Type} {NF : Numeric F}.

Lemma carryover_pops_only (ps : list (@Population F)) :
  forall i d, carryover_only d -> carryover_only (carryover_pops i ps d).
Proof.
  induction ps as [|pop ps IH]; intros i d Hd; simpl; [done|].
  apply IH. intros k.
  destruct (sed_tab pop), (i =? 0)%nat;
    repeat (rewrite lookup_insert; case_decide; subst);
    intros Hk; try (by apply Hd);
    unfold carryover_key; eauto.
Qed.

Lemma carryover_tau_only (fld : @RadiationField F) :
  carryover_only (carryover_tau fld).
Proof.
  intros k. unfold carryover_tau. destruct (tau_solver fld).
  - rewrite lookup_singleton. case_decide; subst.
    + intros _. by left.
    + by intros [? [=]].
  - rewrite lookup_empty. by intros [? [=]].
Qed.

(** The carryover keys are none of the keys that [__init__] looks at. *)
Lemma carryover_only_lookup (d kw : gmap string (@Value F)) (k : string) :
  carryover_only d ->
  k ∈ ["tanh_model"; "gaussian_model"; "parametric_model"; "load_ics";
       "problem_type"] ->
  (d ∪ kw) !! k = kw !! k.
Proof.
  intros Hd Hk. rewrite lookup_union_r; [done|].
  destruct (d !! k) eqn:E; [|done]. exfalso.
  assert (Hkey : carryover_key k) by (apply Hd; eauto).
  repeat (apply elem_of_cons in Hk as [-> | Hk]);
    try (by apply elem_of_nil in Hk);
    destruct Hkey as [? | [? | [i ?]]]; discriminate.
Qed.

Lemma phenom_kind_union (d kw : gmap string (@Value F)) :
  carryover_only d -> phenom_kind (d ∪ kw) = phenom_kind kw.
Proof.
  intros Hd. unfold phenom_kind.
  rewrite !(carryover_only_lookup d kw) by (done || set_solver). done.
Qed.

Lemma defaults_union (kw : gmap string (@Value F)) :
  kw !! "load_ics" = Some (VBool true) -> defaults ∪ kw = kw.
Proof.
  intros H. apply map_eq. intros k. unfold defaults.
  destruct (decide (k = "load_ics")) as [-> | Hne].
  - rewrite H. apply lookup_union_Some_l. apply lookup_singleton_eq.
  - apply lookup_union_r. by apply lookup_singleton_ne.
Qed.

(** What [__init__] does to an object that is being rebooted. *)
Lemma init_again (env : Env) (self : Global21cm) (c : Z)
    (suite : list (gmap string (list F))) :
  let kw := kwargs self in
  phenom_kind kw = None ->
  kw !! "load_ics" = Some (VBool true) -> is_Some (kw !! "problem_type") ->
  _pf self = None -> _count self = Some c -> _suite self = Some suite ->
  __init__ env kw self
  = (Ok tt, set__pf (Some (new_ParameterFile env kw))
              (set_is_phenom false self)).
Proof.
  intros kw Hph Hl [v Hv] Hpf Hc Hs. subst kw.
  unfold __init__, _check_if_phenom, bind. rewrite Hph. simpl.
  rewrite (defaults_union _ Hl), Hv. simpl.
  unfold pf. simpl. rewrite Hpf. simpl.
  destruct self; simpl in *; subst.
  destruct (verbose _); reflexivity.
Qed.

(** C8.  On an object that has finished a pass, [reboot] deletes the
    medium and the history and replaces the parameter-file snapshot by a
    fresh one built from the keyword arguments; the suite, the count, the
    timer, the memoized maximum and the blobs are as before.  When the
    count is 1 the carryover dictionary - the memoized one if there is
    one, otherwise the one built now from the instances of the medium
    that is being deleted - is memoized and merged into the keyword
    arguments; at any other count the keyword arguments and the memo are
    untouched. *)
Theorem reboot_frame (env : Env) (self : Global21cm) (c : Z)
    (p : ParameterFile) (m : MultiPhaseMedium)
    (h : gmap string (list F)) (suite : list (gmap string (list F))) :
  _count self = Some c -> _pf self = Some p -> _medium self = Some m ->
  _history self = Some h -> _suite self = Some suite ->
  is_phenom self = false -> phenom_kind (kwargs self) = None ->
  kwargs self !! "load_ics" = Some (VBool true) ->
  is_Some (kwargs self !! "problem_type") ->
  match _carryover_kwargs self with
  | Some d => carryover_only d
  | None => True
  end ->
  let ck := match _carryover_kwargs self with
            | Some d => d
            | None => carryover_pops 0 (pops (field m))
                                     (carryover_tau (field m))
            end in
  let kw' := if (c =? 1)%Z then ck ∪ kwargs self else kwargs self in
  reboot env self
  = (Ok tt,
     {| kwargs := kw'; is_phenom := false; _suite := Some suite;
        _count := Some c; _timer := _timer self;
        _pf := Some (new_ParameterFile env kw');
        _medium := None; _history := None;
        _carryover_kwargs := if (c =? 1)%Z then Some ck
                             else _carryover_kwargs self;
        _maxiter := _maxiter self; blobs := blobs self |}).
Proof.
  intros Hc Hp Hm Hh Hs Hph Hk Hl Hpt Hck ck kw'.
  assert (Hck' : carryover_only ck).
  { subst ck. destruct (_carryover_kwargs self); [done|].
    apply carryover_pops_only, carryover_tau_only. }
  unfold reboot, bind at 1. unfold bind at 1. unfold count. rewrite Hc.
  destruct (c =? 1)%Z eqn:Ec.
  - (* the reboot after the first iteration *)
    set (s1 := set_kwargs (ck ∪ kwargs self)
                 (set__carryover_kwargs (Some ck) self)).
    assert (Hmerge :
      bind (carryover_kwargs env)
           (fun ck0 => modify (fun self0 =>
                         set_kwargs (ck0 ∪ kwargs self0) self0)) self
      = (Ok tt, s1)).
    { unfold bind, carryover_kwargs, gets, bind. subst s1 ck.
      destruct (_carryover_kwargs self) eqn:E.
      - unfold ret, modify. destruct self; simpl in *; by subst.
      - unfold modify, get_pops, bind, medium, ret. simpl.
        rewrite Hm. simpl. rewrite Hm. simpl.
        destruct self; simpl in *; by subst. }
    rewrite Hmerge. unfold delattr, bind, gets.
    assert (E1 : _pf s1 = Some p) by (subst s1; by destruct self).
    rewrite E1. cbv beta iota.
    assert (E2 : _medium (set__pf None s1) = Some m)
      by (subst s1; by destruct self).
    rewrite E2. cbv beta iota.
    assert (E3 : _history (set__medium None (set__pf None s1)) = Some h)
      by (subst s1; by destruct self).
    rewrite E3. cbv beta iota.
    set (s2 := set__history None (set__medium None (set__pf None s1))).
    assert (Ekw : kwargs s2 = ck ∪ kwargs self)
      by (subst s2 s1; by destruct self).
    pose proof (init_again env s2 c suite) as Hinit. cbv zeta in Hinit.
    rewrite Ekw in *. rewrite Hinit.
    + subst kw' s2 s1. destruct self; simpl in *; by subst.
    + by rewrite phenom_kind_union.
    + rewrite carryover_only_lookup; [done|done|set_solver].
    + rewrite carryover_only_lookup; [done|done|set_solver].
    + subst s2 s1; by destruct self.
    + subst s2 s1. destruct self; simpl in *; by subst.
    + subst s2 s1. destruct self; simpl in *; by subst.
  - (* a later reboot *)
    unfold ret at 1. unfold delattr, bind, gets. rewrite Hp.
    cbv beta iota.
    assert (E2 : _medium (set__pf None self) = Some m)
      by (by destruct self).
    rewrite E2. cbv beta iota.
    assert (E3 : _history (set__medium None (set__pf None self)) = Some h)
      by (by destruct self).
    rewrite E3. cbv beta iota.
    set (s2 := set__history None (set__medium None (set__pf None self))).
    pose proof (init_again env s2 c suite) as Hinit. cbv zeta in Hinit.
    assert (Ekw : kwargs s2 = kwargs self) by (subst s2; by destruct self).
    rewrite Ekw in *.
    rewrite Hinit; try done;
      subst kw' s2; destruct self; simpl in *; by subst.
Qed.

End RebootFacts.

(** C8, a run of it: the first reboot (the count is 1, nothing is
    memoized yet) of an object whose medium has the opacity solver 11,
    the spectral model 3 and the halo table 7. *)
Lemma reboot_frame_witness :
  exists self',
    reboot Example.env1 Example.sim_first = (Ok tt, self')
    /\ _medium self' = None /\ _history self' = None
    /\ _pf self' = Some Example.pf_maxiter1
    /\ _suite self' = _suite Example.sim_first
    /\ _count self' = Some 1
    /\ _carryover_kwargs self'
       = Some (<["hmf_instance" := VObject 7]>
                 (<["pop_psm_instance{0}" := VObject 3]>
                    {[ "tau_instance" := VObject 11 ]}))
    /\ kwargs self' !! "hmf_instance" = Some (VObject 7)
    /\ kwargs self' !! "load_ics" = Some (VBool true).
Proof.
  eexists. split.
  - apply (reboot_frame Example.env1 Example.sim_first 1
             Example.pf_maxiter1
             (Example.medium_of [Example.pop_of true (fun _ => 1000%Q)])
             (Example.table [30; 20]%Q [5; 7]%Q [0; 0]%Q)
             [Example.table [30; 20]%Q [5; 7]%Q [0; 0]%Q]);
      first [reflexivity | eexists; reflexivity | exact I].
  - repeat split; reflexivity.
Defined.

(* ================================================================== *)
(** * [run] called again *)

Section RunFacts.
Context {F : Type} {NF : Numeric F}.

(** [__init__] always leaves a suite on the object. *)
Lemma init_tracks_suite (env : Env) (kw : gmap string Value)
    (self : @Global21cm F) :
  hasattr (_suite (snd (__init__ env kw self))) = true.
Proof.
  destruct self as [kw0 ph su cn tm pf0 md hs ck mx bl].
  unfold __init__, _check_if_phenom, bind, modify, pf, gets, count, ret.
  destruct (phenom_kind kw); simpl;
    [|destruct pf0; simpl];
    destruct (verbose _); simpl; destruct cn; simpl; destruct su;
    reflexivity.
Qed.

(** X2.  With a suite on the object the guard of line 216 does not
    fire, with or without a finished history; with an empty suite there
    is no reboot either, and [run] goes on to the pass. *)
Lemma run_entry_tracked (env : Env) (self : @Global21cm F) :
  is_phenom self = false -> _suite self = Some [] ->
  run_entry env self = (Ok false, self).
Proof.
  intros Hph Hs. unfold run_entry, bind, gets. rewrite Hph, Hs. simpl.
  rewrite andb_false_r. by rewrite Hs.
Qed.

(** On an object that tracks a suite and is not phenomenological the
    entry of [run] never says that the work is done: it goes on to the
    pass, through a reboot when the suite has entries, or the reboot
    raises. *)
Lemma run_entry_goes_on (env : Env) (self : @Global21cm F) :
  hasattr (_suite self) = true -> is_phenom self = false ->
  fst (run_entry env self) <> Ok true.
Proof.
  intros Hs Hph. unfold run_entry, bind, gets. rewrite Hph.
  destruct (_suite self) as [[|e l]|] eqn:E; simpl in *; try done.
  - rewrite andb_false_r, E. by simpl.
  - rewrite andb_false_r, E. destruct (reboot env self) as [[[]|x] s'];
      by simpl.
Qed.

End RunFacts.

(** C2, the code on an object without feedback.  No object that
    [__init__] has set up and that is not phenomenological returns at the
    entry of [run], since it tracks a suite.  In the example the first
    call steps the medium twice and finishes the history; the second
    call does not return at the guard: it runs the pass again, the count
    goes from 1 to 2, and the history is rebuilt from the lists of the
    medium, which in this medium keep what the first call appended. *)
Lemma run_twice_without_feedback :
  (forall (F : Type) (NF : Numeric F) (env : @Env F)
          (kw : gmap string Value) (self0 : @Global21cm F),
      is_phenom (snd (__init__ env kw self0)) = false ->
      fst (run_entry env (snd (__init__ env kw self0))) <> Ok true)
  /\ feedback_LW_Mmin Example.pf_no_feedback = MminNone
  /\ run Example.env_no_feedback 5
         (snd (new_Global21cm Example.env_no_feedback ∅))
     = (Ok tt, Example.after_first)
  /\ _suite Example.after_first = Some []
  /\ _count Example.after_first = Some 1
  /\ _history Example.after_first ≫= (fun h => h !! "z")
     = Some [30; 20]%Q
  /\ run_entry Example.env_no_feedback Example.after_first
     = (Ok false, Example.after_first)
  /\ run Example.env_no_feedback 5 Example.after_first
     = (Ok tt, Example.after_second)
  /\ _count Example.after_second = Some 2
  /\ _history Example.after_second ≫= (fun h => h !! "z")
     = Some [30; 20; 30; 20]%Q.
Proof.
  split.
  { intros F NF env kw self0. apply run_entry_goes_on.
    apply init_tracks_suite. }
  split; [reflexivity|].
  split; [vm_compute; reflexivity|].
  split; [vm_compute; reflexivity|].
  split; [vm_compute; reflexivity|].
  split; [vm_compute; reflexivity|].
  split; [vm_compute; reflexivity|].
  split; [vm_compute; reflexivity|].
  split; vm_compute; reflexivity.
Qed.

(* ================================================================== *)
(** * [save] *)

Section SaveFacts.
Context {F : Type} {NF : Numeric F}.

Lemma append_inv_head (p a b : string) : p +:+ a = p +:+ b -> a = b.
Proof. induction p as [|c p IH]; simpl; [done|]. intros [= H]. auto. Qed.

Lemma history_ne_blobs (prefix suffix suffix' : string) :
  history_path prefix suffix <> blobs_path prefix suffix'.
Proof. intros H. by apply append_inv_head in H. Qed.

Lemma history_ne_parameters (prefix suffix : string) :
  history_path prefix suffix <> parameters_path prefix.
Proof. intros H. by apply append_inv_head in H. Qed.

Lemma blobs_ne_parameters (prefix suffix : string) :
  blobs_path prefix suffix <> parameters_path prefix.
Proof. intros H. by apply append_inv_head in H. Qed.

Lemma save_check_refuses (self : @Global21cm F)
    (fs : gmap string (@FileData F)) (prefix suffix : string)
    (old : FileData) :
  fs !! history_path prefix suffix = Some old ->
  save_check prefix suffix false (self, fs) = (Raise IOError, (self, fs)).
Proof.
  intros H. unfold save_check, bind, path_exists, gets. simpl.
  by rewrite H.
Qed.

Lemma save_check_removes (self : @Global21cm F)
    (fs : gmap string (@FileData F)) (prefix suffix : string)
    (old : FileData) :
  fs !! history_path prefix suffix = Some old ->
  save_check prefix suffix true (self, fs)
  = (Ok tt, (self, delete (history_path prefix suffix) fs)).
Proof.
  intros H. unfold save_check, bind, path_exists, gets. simpl.
  by rewrite H.
Qed.

Lemma save_check_passes (self : @Global21cm F)
    (fs : gmap string (@FileData F)) (prefix suffix : string)
    (clobber : bool) :
  fs !! history_path prefix suffix = None ->
  save_check prefix suffix clobber (self, fs) = (Ok tt, (self, fs)).
Proof.
  intros H. unfold save_check, bind, path_exists, gets. simpl.
  by rewrite H.
Qed.

Lemma ascii_row_Ok (env : Env) (h : gmap string (list F)) (i : nat)
    (keys : list string) :
  Forall (fun k => exists series, h !! k = Some series
                                  /\ (i < length series)%nat
                                  /\ scalar_series env k = true) keys ->
  ascii_row env h i keys
  = Ok (omap (fun k => h !! k ≫= (fun series => series !! i)) keys).
Proof.
  induction 1 as [|k keys (series & Hk & Hi & Hsc) _ IH]; [done|].
  destruct (lookup_lt_is_Some_2 series i Hi) as [x Hx].
  simpl. unfold getitem, index. rewrite Hk. simpl. rewrite Hx. simpl.
  rewrite Hsc. simpl. by rewrite IH.
Qed.

Lemma ascii_rows_Ok (env : Env) (h : gmap string (list F))
    (keys : list string) :
  forall n i printed,
    Forall (fun k => exists series,
                h !! k = Some series
                /\ (i + n <= length series)%nat
                /\ (n <> O -> scalar_series env k = true)) keys ->
    ascii_rows env h keys i n printed
    = (Ok tt,
       printed
       ++ map (fun j => omap (fun k => h !! k ≫= (fun series => series !! j))
                             keys)
              (seq i n)).
Proof.
  induction n as [|n IH]; intros i printed Hall; simpl.
  - by rewrite app_nil_r.
  - rewrite ascii_row_Ok.
    + rewrite IH; [by rewrite <- app_assoc|].
      eapply Forall_impl; [exact Hall|].
      intros k (series & ? & ? & Hsc). exists series.
      split; [done|]. split; [lia | auto].
    + eapply Forall_impl; [exact Hall|].
      intros k (series & ? & ? & Hsc). exists series.
      split; [done|]. split; [lia | auto].
Qed.

Lemma dict_keys_lookup (h : gmap string (list F)) (k : string) :
  k ∈ dict_keys h -> exists series, h !! k = Some series.
Proof.
  unfold dict_keys.
  intros ([k' v] & -> & Hin%elem_of_map_to_list)%list_elem_of_fmap. eauto.
Qed.

Lemma dict_keys_nil (h : gmap string (list F)) :
  dict_keys h = [] -> h = ∅.
Proof.
  unfold dict_keys. intros E%fmap_nil_inv. by apply map_to_list_empty_iff.
Qed.

(** On a printable table the loop prints every row and raises nothing. *)
Lemma printable_rows (env : Env) (h : gmap string (list F)) :
  ascii_printable env h ->
  ascii_rows env h (dict_keys h) 0 (ascii_height h) []
  = (Ok tt, ascii_table h).
Proof.
  intros Hp. rewrite ascii_rows_Ok; [done|].
  apply Forall_forall. intros k (series & Hk)%dict_keys_lookup.
  exists series. by destruct (Hp k series Hk).
Qed.

Lemma ascii_row_Ok_inv (env : Env) (h : gmap string (list F)) (i : nat)
    (keys : list string) (r : list F) :
  ascii_row env h i keys = Ok r ->
  Forall (fun k => exists series, h !! k = Some series
                                  /\ (i < length series)%nat
                                  /\ scalar_series env k = true) keys.
Proof.
  revert r. induction keys as [|k keys IH]; intros r H; [constructor|].
  simpl in H. peel H series Hk. peel H x Hx. peel H u Hsc. peel H rest Hr.
  constructor; [|by eapply IH].
  exists series. split; [by apply getitem_Ok|]. split.
  - unfold index in Hx. destruct (series !! i) eqn:E; [|discriminate].
    by eapply lookup_lt_Some.
  - by destruct (scalar_series env k).
Qed.

Lemma ascii_rows_Ok_inv (env : Env) (h : gmap string (list F))
    (keys : list string) :
  forall n i printed,
    fst (ascii_rows env h keys i n printed) = Ok tt ->
    forall j, (i <= j < i + n)%nat ->
              exists r, ascii_row env h j keys = Ok r.
Proof.
  induction n as [|n IH]; intros i printed H j Hj; [lia|].
  simpl in H. destruct (ascii_row env h i keys) as [r|e] eqn:E;
    [|discriminate].
  destruct (decide (j = i)) as [-> | Hne]; [eauto|].
  apply (IH (S i) _ H). lia.
Qed.

(** The loop of the ASCII format raises nothing on a printable table
    and on no other. *)
Lemma printable_exactly (env : Env) (h : gmap string (list F)) :
  fst (ascii_rows env h (dict_keys h) 0 (ascii_height h) []) = Ok tt
  <-> ascii_printable env h.
Proof.
  split.
  - intros H k series Hk.
    destruct (ascii_height h) as [|n] eqn:En; [split; [lia | done]|].
    destruct (ascii_rows_Ok_inv _ _ _ _ _ _ H n) as [r Hr]; [lia|].
    apply ascii_row_Ok_inv in Hr.
    assert (Hin : k ∈ dict_keys h).
    { unfold dict_keys. apply list_elem_of_fmap. exists (k, series).
      split; [done|]. by apply elem_of_map_to_list. }
    apply (proj1 (Forall_forall _ _) Hr) in Hin
      as (series' & Hk' & Hlen & Hsc).
    rewrite Hk in Hk'. injection Hk' as <-. split; [lia | done].
  - intros H. by rewrite printable_rows.
Qed.
(** The history block on an object with a finished history, for a
    combination of suite and format that it accepts, with h5py at hand
    for hdf5: the history file holds the payload, the parameter file is
    not touched, and nothing is raised when, for npz, the object has
    blobs and, for ASCII, the history has a field and is printable. *)
Lemma save_history_writes (env : Env) (self : @Global21cm F)
    (fs : gmap string (@FileData F)) (prefix suffix : string)
    (suite : list (gmap string (list F))) (h : gmap string (list F)) :
  _suite self = Some suite -> _history self = Some h ->
  suite = [] \/ suffix = "pkl" ->
  (suffix = "hdf5" \/ suffix = "h5" -> h5py_installed env = true) ->
  exists r fs',
    save_history env prefix suffix (self, fs) = (r, (self, fs'))
    /\ fs' !! history_path prefix suffix
       = Some (history_payload env suffix suite h)
    /\ fs' !! parameters_path prefix = fs !! parameters_path prefix
    /\ ((suffix = "npz" -> is_Some (blobs self)) ->
        (suffix ∉ ["pkl"; "hdf5"; "h5"; "npz"] ->
         h <> ∅ /\ ascii_printable env h) ->
        r = Ok tt).
Proof.
  intros Hs Hh Hok Hh5.
  pose proof (history_ne_blobs prefix suffix suffix) as Hb.
  pose proof (history_ne_parameters prefix suffix) as Hp.
  pose proof (blobs_ne_parameters prefix suffix) as Hbp.
  unfold save_history, history_payload, history, bind, on_self, getattr,
    write_file, modify, try_except, raise, ret. simpl.
  rewrite Hs. simpl.
  destruct (bool_decide (suffix = "pkl")) eqn:Epkl.
  - (* pickle *)
    rewrite andb_false_r.
    destruct suite as [|e suite]; simpl; rewrite ?Hh; simpl;
      destruct (blobs self); simpl;
      eexists; eexists; (split; [reflexivity|]);
      repeat split; try done; by simplify_map_eq.
  - destruct Hok as [-> | ->]; [|done]. simpl.
    destruct (bool_decide (suffix = "hdf5") || bool_decide (suffix = "h5"))
      eqn:Eh5; [|destruct (bool_decide (suffix = "npz")) eqn:Enpz];
      simpl.
    + rewrite Hh5; simpl.
      2: { apply orb_true_iff in Eh5
             as [E%bool_decide_eq_true | E%bool_decide_eq_true]; auto. }
      rewrite Hh. simpl.
      eexists; eexists; (split; [reflexivity|]).
      repeat split; try done; by simplify_map_eq.
    + rewrite Hh. simpl. apply bool_decide_eq_true in Enpz.
      destruct (blobs self) as [b|] eqn:Eb; simpl.
      * destruct (size b =? 0)%nat; simpl;
          eexists; eexists; (split; [reflexivity|]);
          repeat split; try done; by simplify_map_eq.
      * eexists; eexists; (split; [reflexivity|]).
        repeat split; try (by simplify_map_eq).
        intros Hbl _. destruct (Hbl Enpz) as [? [=]].
    + (* ASCII *)
      assert (Hnot : suffix ∉ ["pkl"; "hdf5"; "h5"; "npz"]).
      { apply bool_decide_eq_false in Epkl, Enpz.
        apply orb_false_iff in Eh5 as [E1%bool_decide_eq_false
                                       E2%bool_decide_eq_false].
        intros Hin.
        repeat (apply elem_of_cons in Hin as [-> | Hin]; [done|]).
        by apply elem_of_nil in Hin. }
      rewrite Hh. simpl.
      pose proof (printable_rows env h) as Hrows.
      unfold printed_rows, ascii_height in *.
      destruct (last (dict_keys h)) as [key|] eqn:Elast; simpl.
      * assert (Hin : key ∈ dict_keys h).
        { apply last_Some in Elast as [l' ->]. apply elem_of_app. right.
          by apply list_elem_of_singleton. }
        destruct (dict_keys_lookup h key Hin) as [series Hk].
        unfold lift, getitem. rewrite Hk in *. simpl in *.
        eexists; eexists; (split; [reflexivity|]).
        split; [by simplify_map_eq|]. split; [by simplify_map_eq|].
        intros _ Hpr. destruct (Hpr Hnot) as [_ Hprint].
        by rewrite (Hrows Hprint).
      * eexists; eexists; (split; [reflexivity|]).
        apply last_None in Elast.
        split; [by simplify_map_eq|]. split; [by simplify_map_eq|].
        intros _ Hne. destruct (Hne Hnot) as [Hne' _].
        destruct Hne'. by apply dict_keys_nil.
Qed.

(** The parameter block leaves every other file alone. *)
Lemma save_parameters_elsewhere (env : Env) (self : @Global21cm F)
    (fs : gmap string (@FileData F)) (prefix : string) (clobber : bool)
    (fn : string) :
  fn <> parameters_path prefix ->
  (snd (save_parameters env prefix clobber (self, fs))).2 !! fn = fs !! fn.
Proof.
  intros Hne.
  unfold save_parameters, bind, path_exists, gets, os_remove, write_file,
    modify, on_self, ret. simpl.
  destruct (fs !! parameters_path prefix); simpl;
    [destruct clobber; simpl|];
    try destruct (pf env self) as [[p|e] self']; simpl;
    by simplify_map_eq.
Qed.


(** C9, as the code has it.  When the history file exists, a save that
    may not overwrite raises IOError and changes neither the files nor
    the object; a save that may overwrite, on an object with a finished
    history and for a combination that [save] accepts (no iteration in
    the suite, or the pkl format) with h5py at hand for hdf5 and h5, ends
    with the history file holding the newly written payload, whatever
    the file held before: for the ASCII format the header and the rows
    printed, which are all the rows of the table when it is printable. *)
Theorem save_overwrite_protection (env : Env) (self : @Global21cm F)
    (fs : gmap string (@FileData F)) (prefix suffix : string)
    (old : FileData) :
  fs !! history_path prefix suffix = Some old ->
  save env prefix suffix false (self, fs) = (Raise IOError, (self, fs))
  /\ (forall suite h,
        _suite self = Some suite -> _history self = Some h ->
        suite = [] \/ suffix = "pkl" ->
        (suffix = "hdf5" \/ suffix = "h5" -> h5py_installed env = true) ->
        (snd (save env prefix suffix true (self, fs))).2
          !! history_path prefix suffix
        = Some (history_payload env suffix suite h)
        /\ (ascii_printable env h -> printed_rows env h = ascii_table h)).
Proof.
  intros Hold. split.
  - unfold save, bind. by rewrite (save_check_refuses _ _ _ _ old).
  - intros suite h Hs Hh Hok Hh5. split.
    + unfold save, bind.
      rewrite (save_check_removes _ _ _ _ old) by done.
      destruct (save_history_writes env self
                  (delete (history_path prefix suffix) fs) prefix suffix
                  suite h Hs Hh Hok Hh5) as (r & fs' & -> & Hfile & _).
      destruct r as [[]|e]; [|exact Hfile].
      rewrite save_parameters_elsewhere; [exact Hfile|].
      apply history_ne_parameters.
    + intros Hprint. unfold printed_rows.
      by rewrite (printable_rows env h Hprint).
Qed.


End SaveFacts.

(** C9, a run of it: the object of the second iteration, the pkl format,
    a history file that exists. *)
Lemma save_overwrite_protection_witness :
  save Example.env1 "out" "pkl" false
       (Example.sim_second, Example.files_with_history)
  = (Raise IOError, (Example.sim_second, Example.files_with_history))
  /\ (forall suite h,
        _suite Example.sim_second = Some suite ->
        _history Example.sim_second = Some h ->
        suite = [] \/ "pkl" = "pkl" ->
        ("pkl" = "hdf5" \/ "pkl" = "h5" ->
         h5py_installed Example.env1 = true) ->
        (snd (save Example.env1 "out" "pkl" true
                (Example.sim_second, Example.files_with_history))).2
          !! history_path "out" "pkl"
        = Some (history_payload Example.env1 "pkl" suite h)
        /\ (ascii_printable Example.env1 h ->
            printed_rows Example.env1 h = ascii_table h)).
Proof.
  apply (save_overwrite_protection Example.env1 Example.sim_second
           Example.files_with_history "out" "pkl" (Foreign 0)).
  reflexivity.
Defined.

(** C9 as stated fails for a suite with iterations and another format:
    the existing file is removed, then the format is refused, and no
    file takes its place.  It fails in the same way for the h5 format
    where h5py is not installed. *)
Lemma save_clobber_removes_then_raises :
  Example.files_with_history !! "out.history.txt" = Some (Foreign 1)
  /\ fst (save Example.env1 "out" "txt" true
            (Example.sim_second, Example.files_with_history))
     = Raise TypeError
  /\ (snd (save Example.env1 "out" "txt" true
             (Example.sim_second, Example.files_with_history))).2
       !! "out.history.txt" = None
  /\ Example.files_with_h5 !! "out.history.h5" = Some (Foreign 3)
  /\ fst (save (Example.without_h5py Example.env_no_feedback) "out" "h5"
            true (Example.after_first, Example.files_with_h5))
     = Raise ImportError
  /\ (snd (save (Example.without_h5py Example.env_no_feedback) "out" "h5"
             true (Example.after_first, Example.files_with_h5))).2
       !! "out.history.h5" = None.
Proof.
  split; [reflexivity|]. split; [reflexivity|]. split; [reflexivity|].
  split; [reflexivity|]. split; vm_compute; reflexivity.
Qed.



(* ================================================================== *)
(** * Runs of the smaller facts *)

(** X1, a run of it: the first iteration of the example object. *)
Lemma is_converged_first_witness :
  _is_converged Example.env1 Example.sim_first
  = (Ok false, Example.sim_first).
Proof.
  apply (is_converged_first Q Q_numeric Example.env1 Example.sim_first).
  reflexivity.
Defined.

(** X2, a run of it: the object after a first call without feedback. *)
Lemma run_entry_tracked_witness :
  run_entry Example.env_no_feedback Example.after_first
  = (Ok false, Example.after_first).
Proof.
  apply (run_entry_tracked Example.env_no_feedback Example.after_first).
  - vm_compute. reflexivity.
  - vm_compute. reflexivity.
Defined.


(* ================================================================== *)
(** * What the methods keep *)

Section Stable.
Context {S : Type}.

Lemma bind_Ok {A B} (m : M S A) (k : A -> M S B) (s s' : S) (b : B) :
  bind m k s = (Ok b, s') ->
  exists a s1, m s = (Ok a, s1) /\ k a s1 = (Ok b, s').
Proof.
  unfold bind. destruct (m s) as [[a|e] s1]; [eauto | discriminate].
Qed.

Lemma stable_ret {A} (P : S -> Prop) (a : A) : stable P (ret a).
Proof. by intros s. Qed.

Lemma stable_raise {A} (P : S -> Prop) (e : exn) : stable P (@raise S A e).
Proof. by intros s. Qed.

Lemma stable_lift {A} (P : S -> Prop) (r : result A) : stable P (lift r).
Proof. by intros s. Qed.

Lemma stable_gets {A} (P : S -> Prop) (f : S -> A) : stable P (gets f).
Proof. by intros s. Qed.

Lemma stable_modify (P : S -> Prop) (f : S -> S) :
  (forall s, P s -> P (f s)) -> stable P (modify f).
Proof. intros H s. apply H. Qed.

Lemma stable_bind {A B} (P : S -> Prop) (m : M S A) (k : A -> M S B) :
  stable P m -> (forall a, stable P (k a)) -> stable P (bind m k).
Proof.
  intros Hm Hk s Hs. unfold bind. specialize (Hm s Hs).
  destruct (m s) as [[a|e] s1]; simpl in *; [by apply Hk | done].
Qed.

Lemma stable_try_except {A} (P : S -> Prop) (m h : M S A) (e : exn) :
  stable P m -> stable P h -> stable P (try_except m e h).
Proof.
  intros Hm Hh s Hs. unfold try_except. specialize (Hm s Hs).
  destruct (m s) as [[a|e'] s1]; simpl in *; [done|].
  destruct (bool_decide (e' = e)); [by apply Hh | done].
Qed.

Lemma stable_at {A} (P : S -> Prop) (m : M S A) (s s' : S)
    (r : result A) :
  stable P m -> m s = (r, s') -> P s -> P s'.
Proof. intros H E Hs. specialize (H s Hs). by rewrite E in H. Qed.

End Stable.

(** A property [P] of the object survives an assignment when it holds
    after it wherever it held before.  The side conditions of the lemmas
    below all have this shape. *)
Ltac survive :=
  intros; try assumption; cbv beta in *;
  repeat match goal with H : _ /\ _ |- _ => destruct H end;
  repeat split; try assumption;
  unfold count_of, suite_of in *; simpl in *;
  repeat match goal with E : _ = None |- _ => rewrite E in * end;
  simpl in *;
  first [assumption | congruence].

Section StableMethods.
Context {F : Type} {NF : Numeric F}.
Context (env : @Env F).
Context (P : @Global21cm F -> Prop).
Hypothesis Hpf : forall v s, P s -> P (set__pf v s).
Hypothesis Hmedium : forall v s, P s -> P (set__medium v s).
Hypothesis Hhistory : forall v s, P s -> P (set__history v s).
Hypothesis Hcarryover : forall v s, P s -> P (set__carryover_kwargs v s).
Hypothesis Hkwargs : forall v s, P s -> P (set_kwargs v s).
Hypothesis His_phenom : forall v s, P s -> P (set_is_phenom v s).
Hypothesis Hnew_suite :
  forall s, _suite s = None -> P s -> P (set__suite (Some []) s).
Hypothesis Hnew_count :
  forall s, _count s = None -> P s -> P (set__count (Some 0) s).
Hypothesis Hnew_maxiter :
  forall v s, _maxiter s = None -> P s -> P (set__maxiter (Some v) s).
Hypothesis Hcount : forall v s, P s -> P (set__count v s).
Hypothesis Htimer : forall v s, P s -> P (set__timer v s).
Hypothesis Hsuite :
  forall e s, P s -> P (set__suite (Some (suite_of s ++ [e])) s).

Lemma stable_getattr {A} (f : Global21cm -> option A) :
  stable P (getattr f).
Proof. intros s Hs. unfold getattr. by destruct (f s). Qed.

Lemma stable_delattr {A} (f : Global21cm -> option A)
    (clear : Global21cm -> Global21cm) :
  (forall s, P s -> P (clear s)) -> stable P (delattr f clear).
Proof. intros H s Hs. unfold delattr. destruct (f s); simpl; auto. Qed.

Lemma stable_pf : stable P (pf env).
Proof using Hpf.
  intros s Hs. unfold pf. destruct (_pf s); simpl; [done | by apply Hpf].
Qed.

Lemma stable_medium : stable P (medium env).
Proof using Hmedium.
  intros s Hs. unfold medium.
  destruct (_medium s); simpl; [done | by apply Hmedium].
Qed.

Lemma stable_count : stable P count.
Proof using Hnew_count.
  intros s Hs. unfold count.
  destruct (_count s) eqn:E; simpl; [done | by apply Hnew_count].
Qed.

Lemma stable_maxiter : stable P (maxiter env).
Proof using Hpf Hnew_maxiter.
  intros s Hs. unfold maxiter. destruct (_maxiter s) eqn:E; simpl; [done|].
  unfold pf. destruct (_pf s); simpl.
  - by apply Hnew_maxiter.
  - apply Hnew_maxiter; [done | by apply Hpf].
Qed.

Lemma stable_history : stable P history.
Proof. apply stable_getattr. Qed.

Lemma stable_get_pops : stable P (get_pops env).
Proof using Hmedium.
  apply stable_bind; [apply stable_medium | intros; apply stable_ret].
Qed.

Lemma stable_new_suite :
  stable P (bind (gets _suite)
              (fun su => match su with
                         | None => modify (set__suite (Some []))
                         | Some _ => ret tt
                         end)).
Proof using Hnew_suite.
  intros s Hs. unfold bind, gets, modify, ret. simpl.
  destruct (_suite s) eqn:E; simpl; [done | by apply Hnew_suite].
Qed.

(** One step of a proof that a method keeps [P]: the structure of the
    method decides the lemma. *)
Ltac stable_step :=
  first
    [ apply stable_ret | apply stable_raise | apply stable_lift
    | apply stable_gets | apply stable_getattr | apply stable_history
    | apply stable_pf | apply stable_medium | apply stable_count
    | apply stable_get_pops
    | apply stable_bind; [|intros ?]
    | apply stable_modify; intros ? ?;
      first [ by apply Hpf | by apply Hmedium | by apply Hhistory
            | by apply Hcarryover | by apply Hkwargs
            | by apply His_phenom ]
    | apply stable_delattr; intros ? ?;
      first [ by apply Hpf | by apply Hmedium | by apply Hhistory ]
    | match goal with
      | |- stable _ (if ?b then _ else _) => destruct b
      | |- stable _ (match ?x with _ => _ end) => destruct x
      end ].

Lemma stable_init (kw : gmap string Value) : stable P (__init__ env kw).
Proof using Hpf Hhistory Hkwargs His_phenom Hnew_suite Hnew_count.
  unfold __init__, _check_if_phenom.
  apply stable_bind; [destruct (phenom_kind kw); repeat stable_step|].
  intros ph. do 3 (apply stable_bind; [repeat stable_step | intros ?]).
  apply stable_bind; [repeat stable_step | intros ?].
  apply stable_new_suite.
Qed.

Lemma stable_carryover_kwargs : stable P (carryover_kwargs env).
Proof using Hmedium Hcarryover.
  unfold carryover_kwargs. repeat stable_step.
Qed.

Lemma stable_reboot : stable P (reboot env).
Proof using Hpf Hmedium Hhistory Hcarryover Hkwargs His_phenom Hnew_suite
  Hnew_count.
  unfold reboot.
  apply stable_bind; [stable_step | intros c].
  apply stable_bind; [|intros _].
  { destruct (c =? 1).
    - apply stable_bind; [apply stable_carryover_kwargs | intros ck].
      stable_step.
    - stable_step. }
  do 4 (apply stable_bind; [stable_step | intros ?]).
  apply stable_init.
Qed.

Lemma stable_run_entry : stable P (run_entry env).
Proof using Hpf Hmedium Hhistory Hcarryover Hkwargs His_phenom Hnew_suite
  Hnew_count.
  unfold run_entry.
  apply stable_bind; [stable_step | intros ph].
  destruct ph; [stable_step|].
  do 2 (apply stable_bind; [stable_step | intros ?]).
  match goal with |- stable _ (if ?b then _ else _) => destruct b end;
    [stable_step|].
  apply stable_bind; [stable_step | intros su].
  destruct su as [[|? ?]|]; [stable_step | | stable_step].
  apply stable_bind; [apply stable_reboot | intros; stable_step].
Qed.

Lemma stable_init_dTb : stable P (_init_dTb env).
Proof using Hmedium. unfold _init_dTb. repeat stable_step. Qed.

Lemma stable_history_alias (k k' : string) :
  stable P (history_alias k k').
Proof using Hhistory. unfold history_alias. repeat stable_step. Qed.

Lemma stable_history_update (d : gmap string (list F)) :
  stable P (history_update d).
Proof using Hhistory. unfold history_update. repeat stable_step. Qed.

Lemma stable_finalize_history (p : ParameterFile) :
  stable P (finalize_history env p).
Proof using Hmedium Hhistory.
  unfold finalize_history.
  repeat first [ apply stable_history_alias | apply stable_history_update
               | stable_step ].
Qed.

Lemma stable_is_converged : stable P (_is_converged env).
Proof using Hpf Hnew_count Hnew_maxiter.
  unfold _is_converged.
  repeat first [ apply stable_maxiter | stable_step ].
Qed.

Lemma stable_run_pass : stable P (run_pass env).
Proof using Hpf Hmedium Hhistory Hnew_count Hcount.
  unfold run_pass.
  repeat first [ apply stable_init_dTb | apply stable_finalize_history
               | stable_step
               | apply stable_modify; intros ? ?; by apply Hcount ].
Qed.

Lemma stable_run (fuel : nat) : stable P (run env fuel).
Proof using Hpf Hmedium Hhistory Hcarryover Hkwargs His_phenom Hnew_suite
  Hnew_count Hnew_maxiter Hcount Htimer Hsuite.
  induction fuel as [|fuel IH]; [apply stable_raise|].
  simpl. apply stable_bind; [apply stable_run_entry | intros fin].
  destruct fin; [stable_step|].
  apply stable_bind; [by apply stable_run_pass | intros _].
  apply stable_bind; [stable_step | intros p].
  apply stable_bind;
    [|intros _; apply stable_modify; intros ? ?; by apply Htimer].
  assert (Hblock :
    stable P
      (let! h := history in
       let! c := count in
       let! su := gets _suite in
       let! ps := get_pops env in
       let! u := lift (Mmin_update env p c su ps h) in
       let! suite := getattr _suite in
       let! h' := history in
       modify (set__suite (Some (suite ++ [suite_entry p h' (Mmin u)]))) ;;
       modify (fun self =>
                 set_kwargs (kwargs_with_Mmin p u (kwargs self)) self) ;;
       let! conv := _is_converged env in
       if conv then ret tt else run env fuel)).
  { do 4 (apply stable_bind; [stable_step | intros ?]).
    apply stable_bind; [stable_step | intros u].
    intros s Hs. unfold bind at 1. unfold getattr at 1.
    destruct (_suite s) as [suite|] eqn:Esu; [|done].
    unfold bind at 1, history at 1, getattr at 1.
    destruct (_history s) as [h'|]; [|done].
    unfold bind at 1, modify at 1. cbv beta iota.
    assert (Hs' : P (set__suite
                       (Some (suite ++ [suite_entry p h' (Mmin u)])) s)).
    { specialize (Hsuite (suite_entry p h' (Mmin u)) s Hs).
      unfold suite_of in Hsuite. by rewrite Esu in Hsuite. }
    revert Hs'.
    generalize (set__suite
                  (Some (suite ++ [suite_entry p h' (Mmin u)])) s).
    clear s Hs Esu. intros s Hs.
    assert (Hrest :
      stable P
        (modify (fun self =>
                   set_kwargs (kwargs_with_Mmin p u (kwargs self)) self) ;;
         let! conv := _is_converged env in
         if conv then ret tt else run env fuel)).
    { apply stable_bind; [stable_step | intros _].
      apply stable_bind; [apply stable_is_converged | intros conv].
      destruct conv; [stable_step | exact IH]. }
    by apply Hrest. }
  destruct (feedback_LW_Mmin p); [stable_step | exact Hblock ..].
Qed.

End StableMethods.

Section Counting.
Context {F : Type} {NF : Numeric F}.
Context (env : @Env F).

Lemma count_Ok (s s' : @Global21cm F) (c : Z) :
  count s = (Ok c, s') -> c = count_of s /\ _count s' = Some c.
Proof.
  unfold count, count_of. destruct (_count s) eqn:E; simpl; intros H.
  - injection H as <- <-. by rewrite E.
  - by injection H as <- <-.
Qed.

Lemma maxiter_Ok (s s' : @Global21cm F) (mx : Z) :
  maxiter env s = (Ok mx, s') -> _maxiter s' = Some mx.
Proof.
  unfold maxiter. destruct (_maxiter s) eqn:E.
  - intros H. by injection H as <- <-.
  - unfold pf. destruct (_pf s); intros H; by injection H as <- <-.
Qed.

Lemma getattr_Ok {A} (f : @Global21cm F -> option A)
    (s s' : @Global21cm F) (v : A) :
  getattr f s = (Ok v, s') -> f s = Some v /\ s' = s.
Proof.
  unfold getattr. destruct (f s); intros H; [|discriminate].
  by injection H as <- <-.
Qed.

End Counting.

(** One more bind of a run that returned: the state after it keeps the
    property [P]. *)
Ltac keep_core env P H Hinv a s1 :=
  let Hs := fresh "Hstep" in
  let Hst := fresh "Hst" in
  apply bind_Ok in H as (a & s1 & Hs & H);
  match type of Hs with
  | ?m _ = _ =>
      assert (Hst : stable P m) by
        (first [ apply stable_ret | apply stable_lift | apply stable_gets
               | apply stable_getattr | apply stable_history
               | apply stable_pf; survive
               | apply stable_medium; survive
               | apply stable_get_pops; survive
               | apply stable_count; survive
               | apply stable_modify; survive
               | apply stable_init_dTb; survive
               | apply stable_finalize_history; survive
               | apply stable_is_converged; survive
               | apply stable_run_entry; survive
               | match goal with
                 | |- stable _ (if ?b then _ else _) =>
                     destruct b; first [apply stable_lift | apply stable_ret]
                 end ])
  end;
  apply (stable_at P _ _ _ _ Hst Hs) in Hinv; clear Hst Hs.

Ltac keep_through env P H Hinv :=
  let a := fresh "a" in
  let s1 := fresh "s" in
  keep_core env P H Hinv a s1.

Tactic Notation "keep_as" constr(env) constr(P) ident(H) ident(Hinv)
    ident(a) ident(s1) :=
  keep_core env P H Hinv a s1.

Section RunCounting.
Context {F : Type} {NF : Numeric F}.
Context (env : @Env F).

Lemma run_pass_count (s s' : @Global21cm F) :
  run_pass env s = (Ok tt, s') ->
  count_of s' = count_of s + 1 /\ suite_of s' = suite_of s.
Proof.
  intros H. unfold run_pass in H.
  pose (c0 := count_of s). pose (l := suite_of s).
  assert (Hinv : (fun x : @Global21cm F =>
                    count_of x = c0 /\ suite_of x = l) s) by done.
  do 11 keep_through env (fun x : @Global21cm F =>
                            count_of x = c0 /\ suite_of x = l) H Hinv.
  apply bind_Ok in H as (c & t1 & Hc & H).
  assert (Hinv' : count_of t1 = c0 /\ suite_of t1 = l).
  { refine (stable_at (fun x : @Global21cm F =>
                         count_of x = c0 /\ suite_of x = l) _ _ _ _
              (stable_count _ _) Hc Hinv). survive. }
  apply count_Ok in Hc as [-> Hc].
  injection H as <-. destruct Hinv as [H1 _]. destruct Hinv' as [_ H2].
  split; [|exact H2]. unfold count_of at 1. simpl. unfold c0 in H1. lia.
Qed.

Lemma is_converged_false (s s' : @Global21cm F) :
  _is_converged env s = (Ok false, s') ->
  count_of s = 1
  \/ exists mx, _maxiter s' = Some mx /\ count_of s < mx.
Proof.
  intros H. unfold _is_converged in H.
  apply bind_Ok in H as (c & t1 & Hc & H).
  apply count_Ok in Hc as [-> Hc].
  destruct (count_of s =? 1) eqn:E; [left; lia | right].
  pose (c0 := count_of s).
  assert (Hinv : (fun x : @Global21cm F => count_of x = c0) t1)
    by (unfold count_of at 1; by rewrite Hc).
  do 11 keep_through env (fun x : @Global21cm F => count_of x = c0) H Hinv.
  apply bind_Ok in H as (c' & t2 & Hc' & H).
  apply count_Ok in Hc' as [-> _]. cbv beta in Hinv. rewrite Hinv in H.
  apply bind_Ok in H as (mx & t3 & Hmx & H).
  apply maxiter_Ok in Hmx.
  destruct (mx <=? c0) eqn:E'; [discriminate|].
  keep_through env (fun x : @Global21cm F => _maxiter x = Some mx) H Hmx.
  injection H as _ <-. exists mx. split; [done | unfold c0 in E'; lia].
Qed.

(** What a call of [run] that returns has done to the count, the suite
    and the memo of the bound. *)
Lemma run_accounting (fuel : nat) (self self' : @Global21cm F) :
  run env fuel self = (Ok tt, self') ->
  count_of self <= count_of self'
  /\ (exists added,
        suite_of self' = suite_of self ++ added
        /\ Z.of_nat (length added) <= count_of self' - count_of self)
  /\ count_of self' <= Z.max (default 2 (_maxiter self'))
                             (Z.max 2 (count_of self + 1)).
Proof.
  revert self self'. induction fuel as [|fuel IH]; intros self self' H;
    [discriminate|].
  simpl in H.
  remember (count_of self) as c0 eqn:Ec0.
  remember (suite_of self) as l eqn:El.
  assert (Hinv : (fun x : @Global21cm F =>
                    count_of x = c0 /\ suite_of x = l) self) by done.
  clear Ec0 El.
  keep_as env (fun x : @Global21cm F => count_of x = c0 /\ suite_of x = l)
          H Hinv fin t0.
  destruct fin.
  { injection H as <-. destruct Hinv as [-> ->].
    split; [lia|]. split; [|lia].
    exists []. rewrite app_nil_r. split; [done | simpl; lia]. }
  apply bind_Ok in H as ([] & t1 & Hpass & H).
  apply run_pass_count in Hpass as (Hc1 & Hs1).
  destruct Hinv as [Hc Hl]. rewrite Hc in Hc1. rewrite Hl in Hs1.
  clear t0 Hc Hl.
  assert (Hinv : (fun x : @Global21cm F =>
                    count_of x = c0 + 1 /\ suite_of x = l) t1) by done.
  clear Hc1 Hs1.
  keep_as env (fun x : @Global21cm F =>
                 count_of x = c0 + 1 /\ suite_of x = l) H Hinv p t2.
  apply bind_Ok in H as ([] & s2 & Hblock & H).
  injection H as <-.
  change (count_of (set__timer (Some (elapsed env)) s2))
    with (count_of s2).
  change (suite_of (set__timer (Some (elapsed env)) s2))
    with (suite_of s2).
  change (_maxiter (set__timer (Some (elapsed env)) s2))
    with (_maxiter s2).
  assert (Hdone :
    count_of s2 = c0 + 1 /\ suite_of s2 = l ->
    c0 <= count_of s2
    /\ (exists added,
          suite_of s2 = l ++ added
          /\ Z.of_nat (length added) <= count_of s2 - c0)
    /\ count_of s2 <= Z.max (default 2 (_maxiter s2)) (Z.max 2 (c0 + 1))).
  { intros [-> ->]. split; [lia|]. split; [|lia].
    exists []. rewrite app_nil_r. split; [done | simpl; lia]. }
  assert (Hfeedback :
    (let! h := history in
     let! c := count in
     let! su := gets _suite in
     let! ps := get_pops env in
     let! u := lift (Mmin_update env p c su ps h) in
     let! suite := getattr _suite in
     let! h' := history in
     modify (set__suite (Some (suite ++ [suite_entry p h' (Mmin u)]))) ;;
     modify (fun self =>
               set_kwargs (kwargs_with_Mmin p u (kwargs self)) self) ;;
     let! conv := _is_converged env in
     if conv then ret tt else run env fuel) t2 = (Ok tt, s2) ->
    c0 <= count_of s2
    /\ (exists added,
          suite_of s2 = l ++ added
          /\ Z.of_nat (length added) <= count_of s2 - c0)
    /\ count_of s2 <= Z.max (default 2 (_maxiter s2)) (Z.max 2 (c0 + 1))).
  { clear Hblock Hdone. intros H.
    do 4 keep_through env (fun x : @Global21cm F =>
                             count_of x = c0 + 1 /\ suite_of x = l) H Hinv.
    keep_as env (fun x : @Global21cm F =>
                   count_of x = c0 + 1 /\ suite_of x = l) H Hinv u t3.
    apply bind_Ok in H as (suite & t4 & Hsu & H).
    apply getattr_Ok in Hsu as [Hsu ->].
    apply bind_Ok in H as (h' & t4 & Hh & H).
    apply getattr_Ok in Hh as [_ ->].
    apply bind_Ok in H as ([] & t4 & Hmod & H).
    injection Hmod as <-.
    remember (suite_entry p h' (Mmin u)) as e eqn:Ee. clear Ee.
    assert (Hinv2 : (fun x : @Global21cm F =>
                       count_of x = c0 + 1 /\ suite_of x = l ++ [e])
                      (set__suite (Some (suite ++ [e])) t3)).
    { destruct Hinv as [Hc Hl]. split; [exact Hc|].
      unfold suite_of in *. simpl. rewrite Hsu in Hl. simpl in Hl.
      by rewrite Hl. }
    clear Hinv Hsu.
    keep_through env (fun x : @Global21cm F =>
                        count_of x = c0 + 1 /\ suite_of x = l ++ [e])
                 H Hinv2.
    apply bind_Ok in H as (conv & t5 & Hconv & H).
    assert (Hinv3 : count_of t5 = c0 + 1 /\ suite_of t5 = l ++ [e]).
    { refine (stable_at (fun x : @Global21cm F =>
                           count_of x = c0 + 1 /\ suite_of x = l ++ [e])
                _ _ _ _ (stable_is_converged env _ _ _ _)
                Hconv Hinv2); survive. }
    destruct Hinv3 as [Hc4 Hl4].
    destruct conv.
    { injection H as <-. rewrite Hc4, Hl4. split; [lia|]. split; [|lia].
      exists [e]. split; [done | simpl; lia]. }
    apply is_converged_false in Hconv.
    destruct Hinv2 as [Hc3 _]. rewrite Hc3 in Hconv.
    assert (Hmemo : forall mx, _maxiter t5 = Some mx ->
                               _maxiter s2 = Some mx).
    { intros mx Hmx.
      refine (stable_at (fun x => _maxiter x = Some mx) _ _ _ _
                (stable_run env _ _ _ _ _ _ _ _ _ _ _ _ _ fuel)
                H Hmx); survive. }
    apply IH in H as (Hle & (added & Hadd & Hlen) & Hbound).
    rewrite Hc4 in Hle, Hlen, Hbound. rewrite Hl4 in Hadd.
    split; [lia|]. split.
    - exists (e :: added). split.
      + by rewrite Hadd, <- app_assoc.
      + simpl length. lia.
    - destruct Hconv as [H1 | (mx & Hmx & Hlt)].
      + lia.
      + rewrite (Hmemo mx Hmx) in *. simpl in *. lia. }
  destruct (feedback_LW_Mmin p).
  - injection Hblock as <-. by apply Hdone.
  - by apply Hfeedback.
  - by apply Hfeedback.
  - by apply Hfeedback.
Qed.

End RunCounting.

(* ================================================================== *)
(** * The iterations of [run] *)

Section RunIterations.
Context {F : Type} {NF : Numeric F}.
Context (env : @Env F).

(** X4.  A call of [run] that returns leaves the count
    at most at the bound that [self.maxiter] holds, or at 2, or one above
    the count it started from, whichever is largest: the recursion goes
    on only while the count is 1 or below the bound. *)
Theorem run_count_bounded (fuel : nat) (self self' : @Global21cm F) :
  run env fuel self = (Ok tt, self') ->
  count_of self' <= Z.max (default 2 (_maxiter self'))
                          (Z.max 2 (count_of self + 1)).
Proof. intros H. by apply run_accounting in H as (_ & _ & ?). Qed.

(** X5.  A call of [run] that returns has only
    appended to the suite, never more entries than passes it has counted,
    and the count has not gone down. *)
Theorem run_appends_per_pass (fuel : nat) (self self' : @Global21cm F) :
  run env fuel self = (Ok tt, self') ->
  count_of self <= count_of self'
  /\ exists added,
       suite_of self' = suite_of self ++ added
       /\ Z.of_nat (length added) <= count_of self' - count_of self.
Proof. intros H. by apply run_accounting in H as (? & ? & _). Qed.

(** X6.  Whether [run] returns or raises, the
    entries that the suite held are still its first entries, in order; a
    bound that [self.maxiter] had memoized is still the memoized one;
    and the blobs are untouched. *)
Theorem run_keeps_suite_entries (fuel : nat) (self : @Global21cm F) :
  (exists added,
     suite_of (snd (run env fuel self)) = suite_of self ++ added)
  /\ (_maxiter self = None
      \/ _maxiter (snd (run env fuel self)) = _maxiter self)
  /\ blobs (snd (run env fuel self)) = blobs self.
Proof.
  split; [|split].
  - refine (stable_run env
              (fun x => exists added, suite_of x = suite_of self ++ added)
              _ _ _ _ _ _ _ _ _ _ _ _ fuel self _);
      try (intros; assumption).
    + intros s E [added H]. exists added.
      unfold suite_of in *. simpl. by rewrite E in H.
    + intros e s [added H]. exists (added ++ [e]).
      unfold suite_of at 1. simpl. by rewrite H, app_assoc.
    + exists []. by rewrite app_nil_r.
  - refine (stable_run env
              (fun x => _maxiter self = None
                        \/ _maxiter x = _maxiter self)
              _ _ _ _ _ _ _ _ _ _ _ _ fuel self _);
      try (intros; assumption); [|by right].
    intros v s E [H | H]; [by left|]. left. simpl in H. congruence.
  - refine (stable_run env (fun x => blobs x = blobs self)
              _ _ _ _ _ _ _ _ _ _ _ _ fuel self _);
      try (intros; assumption). done.
Qed.

(** X7.  Whether [reboot] returns or raises, it
    leaves the count, the suite, the timer, the memo of the bound and the
    blobs as they were. *)
Theorem reboot_keeps_bookkeeping (self : @Global21cm F) :
  count_of (snd (reboot env self)) = count_of self
  /\ suite_of (snd (reboot env self)) = suite_of self
  /\ _timer (snd (reboot env self)) = _timer self
  /\ _maxiter (snd (reboot env self)) = _maxiter self
  /\ blobs (snd (reboot env self)) = blobs self.
Proof.
  refine (stable_reboot env
            (fun x => count_of x = count_of self
                      /\ suite_of x = suite_of self
                      /\ _timer x = _timer self
                      /\ _maxiter x = _maxiter self
                      /\ blobs x = blobs self)
            _ _ _ _ _ _ _ _ self _);
    try (intros; assumption); [| |done].
  - intros s E (? & H & ?). split; [done|]. split; [|done].
    unfold suite_of in *. simpl. by rewrite E in H.
  - intros s E (H & ?). split; [|done].
    unfold count_of in *. simpl. by rewrite E in H.
Qed.

(** X8.  Whether [_is_converged] returns
    or raises, the keyword arguments, the suite, the history, the medium,
    the timer, the carried-over instances and the blobs are as before,
    and [self.count] reads the same: the call only fills the lazy [count],
    [pf] and [maxiter]. *)
Theorem is_converged_fills_caches_only (self : @Global21cm F) :
  kwargs (snd (_is_converged env self)) = kwargs self
  /\ is_phenom (snd (_is_converged env self)) = is_phenom self
  /\ _suite (snd (_is_converged env self)) = _suite self
  /\ _timer (snd (_is_converged env self)) = _timer self
  /\ _medium (snd (_is_converged env self)) = _medium self
  /\ _history (snd (_is_converged env self)) = _history self
  /\ _carryover_kwargs (snd (_is_converged env self))
     = _carryover_kwargs self
  /\ blobs (snd (_is_converged env self)) = blobs self
  /\ count_of (snd (_is_converged env self)) = count_of self.
Proof.
  refine (stable_is_converged env
            (fun x => kwargs x = kwargs self
                      /\ is_phenom x = is_phenom self
                      /\ _suite x = _suite self
                      /\ _timer x = _timer self
                      /\ _medium x = _medium self
                      /\ _history x = _history self
                      /\ _carryover_kwargs x = _carryover_kwargs self
                      /\ blobs x = blobs self
                      /\ count_of x = count_of self)
            _ _ _ self _);
    try (intros; assumption); [|by repeat split].
  intros s E (? & ? & ? & ? & ? & ? & ? & ? & H).
  repeat (split; [done|]).
  unfold count_of in *. simpl. by rewrite E in H.
Qed.

End RunIterations.

(** X4, a run of it: a new object with feedback and
    [feedback_maxiter = 2] stops at count 2. *)
Lemma run_count_bounded_witness :
  run Example.env_feedback 5
      (snd (new_Global21cm Example.env_feedback ∅))
  = (Ok tt, Example.after_feedback)
  /\ _count Example.after_feedback = Some 2
  /\ _maxiter Example.after_feedback = Some 2
  /\ count_of Example.after_feedback
     <= Z.max (default 2 (_maxiter Example.after_feedback))
              (Z.max 2 (count_of (snd (new_Global21cm
                                         Example.env_feedback ∅)) + 1)).
Proof.
  split; [vm_compute; reflexivity|].
  split; [vm_compute; reflexivity|].
  split; [vm_compute; reflexivity|].
  apply (run_count_bounded Example.env_feedback 5).
  vm_compute; reflexivity.
Defined.

(** X5, a run of it: the same run appends two
    entries to the empty suite of the new object. *)
Lemma run_appends_per_pass_witness :
  length (suite_of Example.after_feedback) = 2%nat
  /\ count_of (snd (new_Global21cm Example.env_feedback ∅))
     <= count_of Example.after_feedback
  /\ exists added,
       suite_of Example.after_feedback
       = suite_of (snd (new_Global21cm Example.env_feedback ∅)) ++ added
       /\ Z.of_nat (length added)
          <= count_of Example.after_feedback
             - count_of (snd (new_Global21cm Example.env_feedback ∅)).
Proof.
  split; [vm_compute; reflexivity|].
  apply (run_appends_per_pass Example.env_feedback 5).
  vm_compute; reflexivity.
Defined.

(* ================================================================== *)
(** * The feedback iteration of [run] *)

Section FeedbackIteration.
Context {F : Type} {NF : Numeric F}.
Context (env : @Env F).

(** A pass that returns has stored the count, one above what it read. *)
Lemma run_pass_sets_count (s s' : @Global21cm F) :
  run_pass env s = (Ok tt, s') -> _count s' = Some (count_of s + 1).
Proof.
  intros H. unfold run_pass in H.
  pose (c0 := count_of s).
  assert (Hinv : (fun x : @Global21cm F => count_of x = c0) s) by done.
  do 11 keep_through env (fun x : @Global21cm F => count_of x = c0) H Hinv.
  apply bind_Ok in H as (c & t1 & Hc & H).
  apply count_Ok in Hc as [-> Hc].
  injection H as <-. simpl. cbv beta in Hinv. by rewrite Hinv.
Qed.

(** One iteration of the feedback loop.  On a call of [run] that returns
    and did not return at its entry, with feedback configured in the
    parameter file of the pass: the update is computed from the history
    of the pass, the count after the increment and the suite as the pass
    left it, and the entry that holds its series is appended to that
    suite; the entries of later iterations come after it. *)
Lemma run_feedback_iteration (fuel : nat) (self self' s1 s2 : @Global21cm F)
    (p : ParameterFile) (m : MultiPhaseMedium) :
  run env (S fuel) self = (Ok tt, self') ->
  run_entry env self = (Ok false, s1) ->
  run_pass env s1 = (Ok tt, s2) ->
  _pf s2 = Some p -> _medium s2 = Some m ->
  feedback_configured p = true ->
  exists h suite u rest,
    _history s2 = Some h /\ _suite s2 = Some suite
    /\ _count s2 = Some (count_of self + 1)
    /\ Mmin_update env p (count_of self + 1) (Some suite)
                   (pops (field m)) h = Ok u
    /\ suite_of self' = suite ++ suite_entry p h (Mmin u) :: rest.
Proof.
  intros H Hentry Hpass Hp Hm Hfb.
  assert (Hc1 : count_of s1 = count_of self).
  { refine (stable_at (fun x : @Global21cm F => count_of x = count_of self)
              _ _ _ _ (stable_run_entry env _ _ _ _ _ _ _ _ _) Hentry _);
      survive. }
  pose proof (run_pass_sets_count _ _ Hpass) as Hc2. rewrite Hc1 in Hc2.
  cbn [run] in H.
  unfold bind at 1 in H. rewrite Hentry in H.
  unfold bind at 1 in H. rewrite Hpass in H.
  unfold bind at 1 in H. unfold pf at 1 in H. rewrite Hp in H.
  apply bind_Ok in H as ([] & s3 & Hblock & H).
  injection H as <-.
  change (suite_of (set__timer (Some (elapsed env)) s3))
    with (suite_of s3).
  assert (Hfeedback :
    (let! h := history in
     let! c := count in
     let! su := gets _suite in
     let! ps := get_pops env in
     let! u := lift (Mmin_update env p c su ps h) in
     let! suite := getattr _suite in
     let! h' := history in
     modify (set__suite (Some (suite ++ [suite_entry p h' (Mmin u)]))) ;;
     modify (fun self =>
               set_kwargs (kwargs_with_Mmin p u (kwargs self)) self) ;;
     let! conv := _is_converged env in
     if conv then ret tt else run env fuel) s2 = (Ok tt, s3) ->
    exists h suite u rest,
      _history s2 = Some h /\ _suite s2 = Some suite
      /\ _count s2 = Some (count_of self + 1)
      /\ Mmin_update env p (count_of self + 1) (Some suite)
                     (pops (field m)) h = Ok u
      /\ suite_of s3 = suite ++ suite_entry p h (Mmin u) :: rest).
  { clear Hblock. intros H.
    apply bind_Ok in H as (h & t & Hh & H).
    apply getattr_Ok in Hh as [Hh ->].
    unfold bind at 1, count at 1 in H. rewrite Hc2 in H.
    unfold bind at 1, gets at 1 in H.
    unfold bind at 1, get_pops, bind at 1, medium in H. rewrite Hm in H.
    unfold ret at 1 in H.
    apply bind_Ok in H as (u & t & Hu & H).
    unfold lift in Hu. injection Hu as Hu <-.
    apply bind_Ok in H as (suite & t & Hsu & H).
    apply getattr_Ok in Hsu as [Hsu ->].
    apply bind_Ok in H as (h' & t & Hh' & H).
    apply getattr_Ok in Hh' as [Hh' ->].
    rewrite Hh in Hh'. injection Hh' as <-.
    apply bind_Ok in H as ([] & t & Hmod & H). injection Hmod as <-.
    apply bind_Ok in H as ([] & t & Hmod & H). injection Hmod as <-.
    apply bind_Ok in H as (conv & t5 & Hconv & H).
    rewrite Hsu in Hu.
    exists h, suite, u.
    set (entry := suite_entry p h (Mmin u)) in *.
    set (P := fun x : @Global21cm F =>
                exists rest, suite_of x = suite ++ entry :: rest).
    assert (Hnew : forall s, _suite s = None -> P s ->
                             P (set__suite (Some []) s)).
    { intros s E [rest Hr]. unfold suite_of in Hr. rewrite E in Hr.
      simpl in Hr. by destruct suite. }
    assert (Happ : forall e s, P s ->
                               P (set__suite (Some (suite_of s ++ [e])) s)).
    { intros e s [rest Hr]. exists (rest ++ [e]).
      unfold suite_of at 1. simpl. rewrite Hr.
      by rewrite <- app_assoc. }
    assert (H5 : P t5).
    { refine (stable_at P _ _ _ _ (stable_is_converged env P _ _ _)
                Hconv _); try (intros; assumption).
      by exists []. }
    assert (H3 : P s3).
    { destruct conv.
      - by injection H as <-.
      - refine (stable_at P _ _ _ _
                  (stable_run env P _ _ _ _ _ _ Hnew _ _ _ _ Happ fuel) H H5);
          try (intros; assumption). }
    destruct H3 as [rest H3]. exists rest. by repeat split. }
  unfold feedback_configured in Hfb.
  destruct (feedback_LW_Mmin p); [discriminate | by apply Hfeedback ..].
Qed.


Lemma np_interp_length (x xp fp r : list F) :
  np_interp x xp fp = Ok r -> length r = length x.
Proof.
  unfold np_interp. destruct xp as [|x0 xp]; [discriminate|].
  destruct fp as [|f0 fp]; [discriminate|].
  case_bool_decide; [|discriminate]. intros [= <-]. by rewrite length_map.
Qed.

(** X3.  On a call of [run] that returns and did not return at its
    entry, with feedback configured in the parameter file of the pass:
    right after the entries that the suite held, the suite holds the
    entry of this iteration, which has the final Mmin series of the
    update of this iteration under the key [pop_Mmin{popid}] of every
    population in [feedback_LW_felt_by], and the series of the history
    under every other key. *)
Theorem run_appends_Mmin_entry (fuel : nat)
    (self self' s1 s2 : @Global21cm F) (p : ParameterFile)
    (m : MultiPhaseMedium) :
  run env (S fuel) self = (Ok tt, self') ->
  run_entry env self = (Ok false, s1) ->
  run_pass env s1 = (Ok tt, s2) ->
  _pf s2 = Some p -> _medium s2 = Some m ->
  feedback_configured p = true ->
  exists h suite u entry rest,
    _history s2 = Some h /\ _suite s2 = Some suite
    /\ Mmin_update env p (count_of self + 1) (Some suite)
                   (pops (field m)) h = Ok u
    /\ suite_of self' = suite ++ entry :: rest
    /\ (forall popid,
          popid ∈ feedback_LW_felt_by p ->
          entry !! braced "pop_Mmin" popid = Some (Mmin u))
    /\ (forall k,
          (forall popid, popid ∈ feedback_LW_felt_by p ->
                         k <> braced "pop_Mmin" popid) ->
          entry !! k = h !! k).
Proof.
  intros H Hentry Hpass Hp Hm Hfb.
  destruct (run_feedback_iteration _ _ _ _ _ _ _ H Hentry Hpass Hp Hm Hfb)
    as (h & suite & u & rest & Hh & Hsu & _ & Hu & Hrec).
  exists h, suite, u, (suite_entry p h (Mmin u)), rest.
  do 4 (split; [done|]). split.
  - intros popid Hin. by apply suite_entry_felt.
  - intros k Hk. by apply suite_entry_other.
Qed.

(** C5.  On a call of [run] that returns and did not return at its
    entry, with feedback configured: the update whose series the
    iteration records is computed at the count after the increment of
    line 299.  When that count is 1 the series before the ceiling is the
    raw estimate [f_M(ztmp)]; when it is above 1 it is the mean, position
    by position, of the raw estimate and of the series that the last
    entry of the suite holds for the population that feels the feedback,
    interpolated onto the redshifts of this iteration (numpy stretches
    a raw estimate of length 1 along the grid).  The recorded series is
    this one after the clip and the running maximum. *)
Theorem run_damps_Mmin (fuel : nat) (self self' s1 s2 : @Global21cm F)
    (p : ParameterFile) (m : MultiPhaseMedium) :
  run env (S fuel) self = (Ok tt, self') ->
  run_entry env self = (Ok false, s1) ->
  run_pass env s1 = (Ok tt, s2) ->
  _pf s2 = Some p -> _medium s2 = Some m ->
  feedback_configured p = true ->
  exists h suite u Jlw0 fM raw clipped rest,
    _history s2 = Some h /\ _suite s2 = Some suite
    /\ _count s2 = Some (count_of self + 1)
    /\ Mmin_update env p (count_of self + 1) (Some suite)
                   (pops (field m)) h = Ok u
    /\ suite_of self' = suite ++ suite_entry p h (Mmin u) :: rest
    /\ h !! "z" = Some (ztmp u) /\ h !! "Jlw" = Some Jlw0
    /\ f_M env p (count_of self + 1) (Some suite) (pops (field m))
           (ztmp u) (map (fun x => fdiv x (lit (1 # 10 ^ 21))) Jlw0)
       = Ok fM
    /\ fM (ztmp u) = Ok raw
    /\ (count_of self + 1 <= 1 -> _Mmin_next u = raw)
    /\ (1 < count_of self + 1 ->
        exists entry popid hz hM prev,
          last suite = Some entry
          /\ head (feedback_LW_felt_by p) = Some popid
          /\ entry !! "z" = Some hz
          /\ entry !! braced "pop_Mmin" popid = Some hM
          /\ np_interp (ztmp u) (reversed hz) (reversed hM) = Ok prev
          /\ length prev = length (ztmp u)
          /\ _Mmin_next u
             = zip_with (fun a b => fdiv (fadd a b) (of_Z 2))
                 (broadcast_to (length (_Mmin_next u)) raw)
                 (broadcast_to (length (_Mmin_next u)) prev)
          /\ (length raw = length prev ->
              _Mmin_next u
              = zip_with (fun a b => fdiv (fadd a b) (of_Z 2)) raw prev))
    /\ elementwise fmin (_Mmin_next u) (Mmin_ceil u) = Ok clipped
    /\ Mmin u = if feedback_LW_Mmin_uponly p
                then np_maximum_accumulate clipped else clipped.
Proof.
  intros H Hentry Hpass Hp Hm Hfb.
  destruct (run_feedback_iteration _ _ _ _ _ _ _ H Hentry Hpass Hp Hm Hfb)
    as (h & suite & u & rest & Hh & Hsu & Hc & Hu & Hrec).
  destruct (Mmin_update_Ok _ _ _ _ _ _ _ Hu)
    as (Jlw0 & fM & raw & popid & pop_fb & clipped & Hz & HJ & HfM & Hraw
        & Hfirst & Hlater & Hpop & Hfb' & Hceil & Hclip & Hfinal).
  exists h, suite, u, Jlw0, fM, raw, clipped, rest.
  do 9 (split; [done|]). split; [exact Hfirst|]. split; [|done].
  intros Hgt.
  destruct (Hlater Hgt)
    as (suite' & entry & hz & hM & prev & [= <-] & Hlast & Hhz & HhM
        & Hprev & Hmean).
  exists entry, popid, hz, hM, prev.
  do 5 (split; [done|]).
  split; [by apply np_interp_length in Hprev|].
  split.
  - unfold np_mean_rows in Hmean.
    by apply elementwise_Ok in Hmean as (_ & _ & Hzip).
  - intros Hlen. unfold np_mean_rows in Hmean.
    rewrite elementwise_same in Hmean by done. by injection Hmean.
Qed.


End FeedbackIteration.

(** X3, a run of it: the first iteration of a run with feedback from a
    new object. *)
Lemma run_appends_Mmin_entry_witness :
  exists h suite u entry rest,
    _history Example.pass_first = Some h /\ _suite Example.pass_first = Some suite
    /\ Mmin_update Example.env_feedback Example.pf_feedback
         (count_of Example.fresh_feedback + 1) (Some suite)
         (pops (field (Example.medium_in Example.pass_first))) h = Ok u
    /\ suite_of Example.after_feedback = suite ++ entry :: rest
    /\ (forall popid,
          popid ∈ feedback_LW_felt_by Example.pf_feedback ->
          entry !! braced "pop_Mmin" popid = Some (Mmin u))
    /\ (forall k,
          (forall popid, popid ∈ feedback_LW_felt_by Example.pf_feedback ->
                         k <> braced "pop_Mmin" popid) ->
          entry !! k = h !! k).
Proof.
  apply (run_appends_Mmin_entry Example.env_feedback 4 Example.fresh_feedback
           Example.after_feedback Example.fresh_feedback Example.pass_first
           Example.pf_feedback (Example.medium_in Example.pass_first));
    vm_compute; reflexivity.
Defined.

(** C5, a run of it: the second iteration of a run with feedback, from
    the object as the first iteration left it at its recursive call.
    The raw estimate is (70, 80), the series of the first iteration is
    (50, 60), and the series before the ceiling is (60, 70). *)
Lemma run_damps_Mmin_witness :
  exists h suite u Jlw0 fM raw clipped rest,
    _history Example.pass_second = Some h /\ _suite Example.pass_second = Some suite
    /\ _count Example.pass_second = Some (count_of Example.mid_feedback + 1)
    /\ Mmin_update Example.env_feedback Example.pf_feedback
         (count_of Example.mid_feedback + 1) (Some suite)
         (pops (field (Example.medium_in Example.pass_second))) h = Ok u
    /\ suite_of Example.end_feedback
       = suite ++ suite_entry Example.pf_feedback h (Mmin u) :: rest
    /\ h !! "z" = Some (ztmp u) /\ h !! "Jlw" = Some Jlw0
    /\ f_M Example.env_feedback Example.pf_feedback
           (count_of Example.mid_feedback + 1) (Some suite)
           (pops (field (Example.medium_in Example.pass_second)))
           (ztmp u) (map (fun x => fdiv x (lit (1 # 10 ^ 21))) Jlw0)
       = Ok fM
    /\ fM (ztmp u) = Ok raw
    /\ (count_of Example.mid_feedback + 1 <= 1 -> _Mmin_next u = raw)
    /\ (1 < count_of Example.mid_feedback + 1 ->
        exists entry popid hz hM prev,
          last suite = Some entry
          /\ head (feedback_LW_felt_by Example.pf_feedback) = Some popid
          /\ entry !! "z" = Some hz
          /\ entry !! braced "pop_Mmin" popid = Some hM
          /\ np_interp (ztmp u) (reversed hz) (reversed hM) = Ok prev
          /\ length prev = length (ztmp u)
          /\ _Mmin_next u
             = zip_with (fun a b => fdiv (fadd a b) (of_Z 2))
                 (broadcast_to (length (_Mmin_next u)) raw)
                 (broadcast_to (length (_Mmin_next u)) prev)
          /\ (length raw = length prev ->
              _Mmin_next u
              = zip_with (fun a b => fdiv (fadd a b) (of_Z 2)) raw prev))
    /\ elementwise fmin (_Mmin_next u) (Mmin_ceil u) = Ok clipped
    /\ Mmin u = if feedback_LW_Mmin_uponly Example.pf_feedback
                then np_maximum_accumulate clipped else clipped.
Proof.
  apply (run_damps_Mmin Example.env_feedback 4 Example.mid_feedback
           Example.end_feedback Example.rebooted_feedback Example.pass_second
           Example.pf_feedback (Example.medium_in Example.pass_second));
    vm_compute; reflexivity.
Defined.


(** The name of the formula in a string that is equal to the literal
    but is another object: line 336 does not recognise it. *)
Lemma f_M_needs_the_interned_name :
  fst (Mmin_update Example.env_feedback
         (Example.mk_pf false 2 (MminNamed "visbal2015" false) FshNone
                        false 0 0 false)
         1 (Some []) [Example.pop0]
         (Example.history_in Example.pass_first), tt)
  = Raise NotImplementedError.
Proof. vm_compute. reflexivity. Qed.

(** The numbers of these runs, and an update whose raw estimate has
    length 1: the clip stretches it along the ceiling. *)
Lemma feedback_runs_in_numbers :
  map (fun e => e !! "pop_Mmin{0}") (suite_of Example.end_feedback)
  = [Some [50; 60]%Q; Some [50; 60]%Q]
  /\ (Mmin_update Example.env_feedback Example.pf_feedback 2
        (_suite Example.pass_second) [Example.pop0]
        (Example.history_in Example.pass_second)
      = Ok {| ztmp := [30; 20]%Q; _Mmin_next := [60; 70]%Q;
              Mmin_ceil := [50; 60]%Q; Mmin := [50; 60]%Q |})
  /\ map (fun e => e !! "pop_Mmin{0}") (suite_of Example.after_uponly)
     = [Some [30; 30]%Q; Some [30; 30]%Q]
  /\ (Mmin_update Example.env_feedback Example.pf_short_estimate 1
        (Some []) [Example.pop0] (Example.history_in Example.pass_first)
      = Ok {| ztmp := [30; 20]%Q; _Mmin_next := [8]%Q;
              Mmin_ceil := [50; 60]%Q; Mmin := [8; 8]%Q |}).
Proof. split; [|split; [|split]]; vm_compute; reflexivity. Qed.

(* ================================================================== *)
(** * The constructor *)

Section InitFacts.
Context {F : Type} {NF : Numeric F}.
Context (env : @Env F).

Lemma defaults_lookup (kw : gmap string (@Value F)) (k : string) :
  (defaults ∪ kw) !! k
  = if bool_decide (k = "load_ics") then Some (VBool true) else kw !! k.
Proof.
  unfold defaults. case_bool_decide as Hk.
  - subst k. apply lookup_union_Some_l. apply lookup_singleton_eq.
  - apply lookup_union_r. by apply lookup_singleton_ne.
Qed.

(** The keyword arguments that [__init__] stores, as a function of the
    ones it was called with. *)
Lemma init_kwargs (kw : gmap string Value) (self : @Global21cm F) :
  kwargs (snd (__init__ env kw self))
  = match (defaults ∪ kw) !! "problem_type" with
    | Some _ => defaults ∪ kw
    | None => <["problem_type" := VInt 101]> (defaults ∪ kw)
    end
  /\ fst (__init__ env kw self) = Ok tt
  /\ is_Some (_suite (snd (__init__ env kw self)))
  /\ is_phenom (snd (__init__ env kw self))
     = bool_decide (is_Some (phenom_kind kw)).
Proof.
  unfold __init__, _check_if_phenom.
  destruct self as [kw0 ph0 su0 c0 t0 pf0 m0 h0 ck0 mx0 b0].
  destruct (phenom_kind kw) as [k|], pf0, c0, su0;
    unfold bind, modify, ret, gets, pf, count; simpl;
    destruct (verbose _); simpl; repeat split; eauto.
Qed.

(** X9.  With a parameter file and a printer that return, the
    constructor returns.  The keyword arguments it stores have [load_ics] set to True whatever the
    caller passed, [problem_type] as passed or 101 when it was not
    passed, and every other key as passed; the new object has an empty
    suite. *)
Theorem init_keyword_arguments (kw : gmap string Value) :
  fst (new_Global21cm env kw) = Ok tt
  /\ kwargs (snd (new_Global21cm env kw)) !! "load_ics"
     = Some (VBool true)
  /\ kwargs (snd (new_Global21cm env kw)) !! "problem_type"
     = Some (default (VInt 101) (kw !! "problem_type"))
  /\ (forall k, k <> "load_ics" -> k <> "problem_type" ->
        kwargs (snd (new_Global21cm env kw)) !! k = kw !! k)
  /\ _suite (snd (new_Global21cm env kw)) = Some [].
Proof.
  unfold new_Global21cm.
  destruct (init_kwargs kw blank) as (Hkw & Hok & _ & _).
  split; [exact Hok|]. rewrite Hkw.
  pose proof (defaults_lookup kw "problem_type") as Hpt.
  rewrite bool_decide_eq_false_2 in Hpt by done.
  split; [|split; [|split]].
  - destruct ((defaults ∪ kw) !! "problem_type");
      [|rewrite lookup_insert_ne by done];
      by rewrite defaults_lookup, bool_decide_eq_true_2.
  - rewrite Hpt. destruct (kw !! "problem_type") eqn:E; simpl.
    + by rewrite defaults_lookup, bool_decide_eq_false_2.
    + by rewrite lookup_insert_eq.
  - intros k Hl Hp.
    destruct ((defaults ∪ kw) !! "problem_type");
      [|rewrite lookup_insert_ne by done];
      by rewrite defaults_lookup, bool_decide_eq_false_2.
  - unfold __init__, _check_if_phenom.
    destruct (phenom_kind kw); unfold bind, modify, ret, gets, pf, count;
      simpl; by destruct (verbose _).
Qed.

(** X10.  Keyword arguments that select a
    phenomenological model give an object that holds the model's
    parameter file and its history from the start, and on which [run]
    returns at once without changing anything. *)
Theorem phenom_object_is_finished (kw : gmap string Value)
    (k : PhenomKind) (fuel : nat) :
  phenom_kind kw = Some k ->
  fst (new_Global21cm env kw) = Ok tt
  /\ is_phenom (snd (new_Global21cm env kw)) = true
  /\ _pf (snd (new_Global21cm env kw)) = Some (fst (phenom_model env k kw))
  /\ _history (snd (new_Global21cm env kw))
     = Some (snd (phenom_model env k kw))
  /\ run env (S fuel) (snd (new_Global21cm env kw))
     = (Ok tt, snd (new_Global21cm env kw)).
Proof.
  intros Hk.
  assert (Hs : fst (new_Global21cm env kw) = Ok tt
               /\ is_phenom (snd (new_Global21cm env kw)) = true
               /\ _pf (snd (new_Global21cm env kw))
                  = Some (fst (phenom_model env k kw))
               /\ _history (snd (new_Global21cm env kw))
                  = Some (snd (phenom_model env k kw))).
  { unfold new_Global21cm, __init__, _check_if_phenom. rewrite Hk.
    unfold bind, modify, ret, gets, pf, count; simpl.
    by destruct (verbose _). }
  destruct Hs as (H1 & H2 & H3 & H4). repeat (split; [done|]).
  simpl. unfold run_entry, bind, gets. rewrite H2. done.
Qed.

(** X11.  A [tanh_model] keyword that is
    present but false decides the matter: the object is not
    phenomenological and gets no history, whatever [gaussian_model] and
    [parametric_model] say. *)
Theorem falsy_tanh_masks_other_models (kw : gmap string Value)
    (v : Value) :
  kw !! "tanh_model" = Some v -> truthy v = false ->
  is_phenom (snd (new_Global21cm env kw)) = false
  /\ _history (snd (new_Global21cm env kw)) = None.
Proof.
  intros Hv Hf.
  assert (Hk : phenom_kind kw = None).
  { unfold phenom_kind. by rewrite Hv, Hf. }
  unfold new_Global21cm, __init__, _check_if_phenom. rewrite Hk.
  unfold bind, modify, ret, gets, pf, count; simpl.
  by destruct (verbose _).
Qed.

End InitFacts.

(** X10, a run of it: a Gaussian model. *)
Lemma phenom_object_is_finished_witness :
  phenom_kind Example.kw_gaussian = Some Gaussian
  /\ fst (new_Global21cm Example.env1 Example.kw_gaussian) = Ok tt
  /\ is_phenom (snd (new_Global21cm Example.env1 Example.kw_gaussian))
     = true
  /\ _pf (snd (new_Global21cm Example.env1 Example.kw_gaussian))
     = Some (fst (phenom_model Example.env1 Gaussian Example.kw_gaussian))
  /\ _history (snd (new_Global21cm Example.env1 Example.kw_gaussian))
     = Some (snd (phenom_model Example.env1 Gaussian Example.kw_gaussian))
  /\ run Example.env1 1 (snd (new_Global21cm Example.env1
                                             Example.kw_gaussian))
     = (Ok tt, snd (new_Global21cm Example.env1 Example.kw_gaussian)).
Proof.
  split; [vm_compute; reflexivity|].
  apply (phenom_object_is_finished Example.env1 Example.kw_gaussian
           Gaussian 0).
  vm_compute; reflexivity.
Defined.

(** X11, a run of it: [tanh_model=False]
    next to [gaussian_model=True]. *)
Lemma falsy_tanh_masks_other_models_witness :
  Example.kw_tanh_off !! "gaussian_model" = Some (VBool true)
  /\ is_phenom (snd (new_Global21cm Example.env1 Example.kw_tanh_off))
     = false
  /\ _history (snd (new_Global21cm Example.env1 Example.kw_tanh_off))
     = None.
Proof.
  split; [vm_compute; reflexivity|].
  apply (falsy_tanh_masks_other_models Example.env1 Example.kw_tanh_off
           (VBool false)); vm_compute; reflexivity.
Defined.

(* ================================================================== *)
(** * Where the convergence test raises *)

Section ConvergenceErrors.
Context {F : Type} {NF : Numeric F}.
Context (env : @Env F).

(** X12.  Past the first iteration the test
    reads the entry before the last of the suite: with fewer than two
    entries it raises IndexError and leaves the object as it was. *)
Theorem is_converged_needs_two_entries (self : @Global21cm F) (c : Z)
    (h : gmap string (list F)) (z d : list F)
    (suite : list (gmap string (list F))) :
  _count self = Some c -> c <> 1 ->
  _history self = Some h -> h !! "z" = Some z -> h !! "dTb" = Some d ->
  _suite self = Some suite -> (length suite < 2)%nat ->
  _is_converged env self = (Raise IndexError, self).
Proof.
  intros Hc Hc1 Hh Hz Hd Hs Hlen.
  unfold _is_converged, bind, count. rewrite Hc.
  destruct (Z.eqb_spec c 1) as [|_]; [done|].
  unfold history, getattr, lift, getitem, index_from_end, index.
  rewrite Hh. simpl. rewrite Hz. simpl. rewrite Hh. simpl.
  rewrite Hd. simpl. rewrite Hs. simpl.
  rewrite lookup_ge_None_2; [done|]. rewrite length_rev. lia.
Qed.

Lemma np_where_from_none (mask : list bool) :
  forall k, Forall (fun b => b = false) mask -> np_where_from k mask = [].
Proof.
  induction mask as [|b mask IH]; intros k Hall; [done|].
  inversion Hall; subst. simpl. by apply IH.
Qed.

(** X13.  With [debug] on, the
    report takes the maximum of the errors over the points of the newest
    grid below z = 50; when there is none the test raises ValueError,
    before the iteration bound is looked at. *)
Theorem is_converged_debug_needs_low_redshift (self : @Global21cm F)
    (c : Z) (p : ParameterFile) (h sim_pre last : gmap string (list F))
    (older : list (gmap string (list F))) (z d zpre dpre : list F) :
  _count self = Some c -> c <> 1 ->
  fst (pf env self) = Ok p -> debug p = true ->
  _history self = Some h -> h !! "z" = Some z -> h !! "dTb" = Some d ->
  _suite self = Some (older ++ [sim_pre; last]) ->
  sim_pre !! "z" = Some zpre -> sim_pre !! "dTb" = Some dpre ->
  z <> [] -> length d = length z ->
  Forall (fun zi => flt zi (lit 50) = false) z ->
  fst (_is_converged env self) = Raise ValueError.
Proof.
  intros Hc Hc1 Hp Hdbg Hh Hz Hd Hs Hzp Hdp Hne Hlen Hall.
  destruct (np_interp_total (reversed zpre) (reversed z) (reversed d))
    as (it & Hit & _).
  { unfold reversed. intros E. apply Hne.
    apply (f_equal (@rev F)) in E. by rewrite rev_involutive in E. }
  { unfold reversed. by rewrite !length_rev. }
  assert (Hidx : np_where (map (fun zi => flt zi (lit 50)) (reversed z))
                 = []).
  { apply np_where_from_none. apply Forall_map. unfold reversed.
    apply Forall_rev. exact Hall. }
  assert (He : convergence_errors (reversed z) (reversed d)
                 (reversed zpre) (reversed dpre)
               = Ok {| dTb_pre := []; dTb_now_interp := [];
                       err_rel := []; err_abs := [] |}).
  { unfold convergence_errors. rewrite Hit, Hidx. done. }
  destruct (pf_reads env self p Hp) as (self1 & Hpf & _).
  unfold _is_converged, bind, count. rewrite Hc.
  destruct (Z.eqb_spec c 1) as [|_]; [done|].
  unfold history, getattr, lift, getitem, index_from_end, index.
  rewrite Hh. simpl. rewrite Hz. simpl. rewrite Hh. simpl.
  rewrite Hd. simpl. rewrite Hs. simpl.
  rewrite rev_app_distr. simpl. rewrite Hzp, Hdp, He.
  rewrite Hpf, Hdbg. done.
Qed.

End ConvergenceErrors.

(** X12, a run of it: count 2 and a suite
    of one entry. *)
Lemma is_converged_needs_two_entries_witness :
  _is_converged Example.env1 Example.sim_short_suite
  = (Raise IndexError, Example.sim_short_suite).
Proof.
  apply (is_converged_needs_two_entries Example.env1
           Example.sim_short_suite 2
           (Example.table [30; 20] [5; 7] [0; 0])%Q
           [30; 20]%Q [5; 7]%Q
           [Example.table [30; 20] [5; 7] [0; 0]]%Q);
    first [reflexivity | done | simpl; lia].
Defined.

(** X13, a run of it: both grids
    lie above z = 50 and [debug] is on. *)
Lemma is_converged_debug_needs_low_redshift_witness :
  fst (_is_converged Example.env1 Example.sim_high_z) = Raise ValueError.
Proof.
  apply (is_converged_debug_needs_low_redshift Example.env1
           Example.sim_high_z 2 Example.pf_maxiter2
           (Example.table [80; 60] [6; 9] [0; 0])%Q
           (Example.table [80; 60] [5; 7] [0; 0])%Q
           (Example.table [80; 60] [6; 9] [0; 0])%Q
           [] [80; 60]%Q [6; 9]%Q [80; 60]%Q [5; 7]%Q);
    first [reflexivity | done | repeat constructor].
Defined.

(* ================================================================== *)
(** * The instances that are carried over, and a second reboot *)

Section CarryoverFacts.
Context {F : Type} {NF : Numeric F}.
Context (env : @Env F).

Lemma string_length_app (a b : string) :
  String.length (a +:+ b) = (String.length a + String.length b)%nat.
Proof. induction a as [|x a IH]; simpl; [done | by rewrite IH]. Qed.

Lemma append_inv_tail (a b c : string) : a +:+ c = b +:+ c -> a = b.
Proof.
  revert b. induction a as [|x a IH]; intros [|y b]; simpl; try done.
  - intros H. apply (f_equal String.length) in H.
    simpl in H. rewrite !string_length_app in H. simpl in H. lia.
  - intros H. apply (f_equal String.length) in H.
    simpl in H. rewrite !string_length_app in H. simpl in H. lia.
  - intros [= -> H]. f_equal. by apply IH.
Qed.

Lemma braced_inj (name : string) (i j : nat) :
  braced name i = braced name j -> i = j.
Proof.
  unfold braced. intros H.
  apply append_inv_head in H. apply append_inv_head in H.
  apply append_inv_tail in H. by apply (inj pretty).
Qed.

Lemma carryover_pops_psm (ps : list (@Population F)) :
  forall i0 d j,
    carryover_pops i0 ps d !! braced "pop_psm_instance" (i0 + j)
    = match ps !! j with
      | Some pop =>
          if sed_tab pop then Some (VObject (src pop))
          else d !! braced "pop_psm_instance" (i0 + j)
      | None => d !! braced "pop_psm_instance" (i0 + j)
      end.
Proof.
  assert (Hbelow : forall (ps : list (@Population F)) i0 d j,
            (j < i0)%nat ->
            carryover_pops i0 ps d !! braced "pop_psm_instance" j
            = d !! braced "pop_psm_instance" j).
  { clear ps. induction ps as [|pop ps IH]; intros i0 d j Hj; [done|].
    simpl. rewrite IH by lia.
    destruct (sed_tab pop), (i0 =? 0)%nat;
      rewrite ?lookup_insert_ne; try done.
    all: intros E; apply braced_inj in E; lia. }
  induction ps as [|pop ps IH]; intros i0 d j; [done|].
  simpl. destruct j as [|j].
  - rewrite Nat.add_0_r. rewrite Hbelow by lia. simpl.
    destruct (sed_tab pop), (i0 =? 0)%nat;
      rewrite ?lookup_insert_ne by done;
      rewrite ?lookup_insert_eq; done.
  - replace (i0 + S j)%nat with (S i0 + j)%nat by lia.
    rewrite IH. simpl.
    assert (Hne : braced "pop_psm_instance" i0
                  <> braced "pop_psm_instance" (S i0 + j)).
    { intros E. apply braced_inj in E. lia. }
    destruct (ps !! j) as [q|]; [destruct (sed_tab q); [done|]|];
      destruct (sed_tab pop), (i0 =? 0)%nat;
      rewrite ?lookup_insert_ne; done.
Qed.

Lemma carryover_pops_hmf (ps : list (@Population F)) :
  forall i0 d,
    carryover_pops i0 ps d !! "hmf_instance"
    = match ps with
      | pop :: _ =>
          if (i0 =? 0)%nat then Some (VObject (halos_id (halos pop)))
          else d !! "hmf_instance"
      | [] => d !! "hmf_instance"
      end.
Proof.
  assert (Hlater : forall (ps : list (@Population F)) i0 d,
            carryover_pops (S i0) ps d !! "hmf_instance"
            = d !! "hmf_instance").
  { clear ps. induction ps as [|pop ps IH]; intros i0 d; [done|].
    simpl. rewrite IH.
    destruct (sed_tab pop); rewrite ?lookup_insert_ne; done. }
  destruct ps as [|pop ps]; intros i0 d; [done|]. simpl.
  rewrite Hlater. destruct (i0 =? 0)%nat eqn:E.
  - by rewrite lookup_insert_eq.
  - destruct (sed_tab pop); rewrite ?lookup_insert_ne; done.
Qed.

Lemma carryover_pops_tau (ps : list (@Population F)) :
  forall i0 d,
    carryover_pops i0 ps d !! "tau_instance" = d !! "tau_instance".
Proof.
  induction ps as [|pop ps IH]; intros i0 d; [done|]. simpl. rewrite IH.
  destruct (sed_tab pop), (i0 =? 0)%nat; rewrite ?lookup_insert_ne; done.
Qed.

(** X14.  On an object that has not memoized them
    yet, [carryover_kwargs] never raises and memoizes a dictionary that
    holds: the optical-depth solver under [tau_instance] when the field
    has one, the halo table of the first population under
    [hmf_instance] when there is a population, and under
    [pop_psm_instance{i}] the spectral model of population [i] exactly
    when that population tabulates its spectrum. *)
Theorem carryover_kwargs_content (self : @Global21cm F)
    (m : MultiPhaseMedium) :
  _carryover_kwargs self = None -> fst (medium env self) = Ok m ->
  exists d,
    fst (carryover_kwargs env self) = Ok d
    /\ _carryover_kwargs (snd (carryover_kwargs env self)) = Some d
    /\ d !! "tau_instance" = VObject <$> tau_solver (field m)
    /\ d !! "hmf_instance"
       = (fun pop => VObject (halos_id (halos pop)))
           <$> head (pops (field m))
    /\ forall i,
         d !! braced "pop_psm_instance" i
         = match pops (field m) !! i with
           | Some pop =>
               if sed_tab pop then Some (VObject (src pop)) else None
           | None => None
           end.
Proof.
  intros Hmemo Hm.
  remember (carryover_pops 0 (pops (field m)) (carryover_tau (field m)))
    as d eqn:Ed.
  assert (Htau : d !! "tau_instance" = VObject <$> tau_solver (field m)).
  { rewrite Ed, carryover_pops_tau. unfold carryover_tau.
    destruct (tau_solver (field m)); [|done].
    by rewrite lookup_singleton_eq. }
  assert (Hhmf : d !! "hmf_instance"
                 = (fun pop => VObject (halos_id (halos pop)))
                     <$> head (pops (field m))).
  { rewrite Ed, carryover_pops_hmf.
    assert (Hno : carryover_tau (field m) !! "hmf_instance" = None).
    { unfold carryover_tau. destruct (tau_solver (field m)); [|done].
      by apply lookup_singleton_ne. }
    destruct (pops (field m)); [exact Hno | done]. }
  assert (Hpsm : forall i,
            d !! braced "pop_psm_instance" i
            = match pops (field m) !! i with
              | Some pop =>
                  if sed_tab pop then Some (VObject (src pop)) else None
              | None => None
              end).
  { intros i. rewrite Ed.
    pose proof (carryover_pops_psm (pops (field m)) 0
                  (carryover_tau (field m)) i) as H.
    simpl in H. rewrite H.
    assert (Hno : carryover_tau (field m) !! braced "pop_psm_instance" i
                  = None).
    { unfold carryover_tau. destruct (tau_solver (field m)); [|done].
      by apply lookup_singleton_ne. }
    by rewrite Hno. }
  exists d.
  destruct self as [kw0 ph0 su0 c0 t0 pf0 m0 h0 ck0 mx0 b0].
  simpl in Hmemo. subst ck0.
  unfold carryover_kwargs, get_pops, bind, gets, modify, ret, medium.
  unfold medium in Hm. simpl in *.
  destruct m0 as [m0|]; simpl in *; injection Hm as Hm;
    subst m; rewrite <- Ed; (split; [reflexivity|]);
    (split; [reflexivity|]);
    (split; [exact Htau|]); (split; [exact Hhmf | exact Hpsm]).
Qed.

Lemma init_has_pf (kw : gmap string Value) (self : @Global21cm F) :
  is_Some (_pf (snd (__init__ env kw self))).
Proof.
  unfold __init__, _check_if_phenom.
  destruct self as [kw0 ph0 su0 c0 t0 pf0 m0 h0 ck0 mx0 b0].
  destruct (phenom_kind kw) as [k|], pf0, c0, su0;
    unfold bind, modify, ret, gets, pf, count; simpl;
    destruct (verbose _); simpl; eauto.
Qed.

Lemma delattr_Ok {A} (f : @Global21cm F -> option A)
    (clear : @Global21cm F -> @Global21cm F) (s s' : @Global21cm F) :
  delattr f clear s = (Ok tt, s') -> s' = clear s.
Proof.
  unfold delattr. destruct (f s); intros H; [|discriminate].
  by injection H as <-.
Qed.

(** X15.  [reboot] deletes the medium and does not
    build a new one, so a second [reboot] straight after one that
    returned raises AttributeError, and by then it has deleted the
    parameter file again. *)
Theorem reboot_twice_raises (self s1 : @Global21cm F) :
  reboot env self = (Ok tt, s1) ->
  fst (reboot env s1) = Raise AttributeError
  /\ _pf (snd (reboot env s1)) = None
  /\ _medium (snd (reboot env s1)) = None.
Proof.
  intros H.
  assert (Hcount : count_of s1 = count_of self).
  { refine (stable_at (fun x => count_of x = count_of self) _ _ _ _
              (stable_reboot env _ _ _ _ _ _ _ _ _) H eq_refl); survive. }
  unfold reboot in H.
  apply bind_Ok in H as (c & t1 & Hc & H).
  apply count_Ok in Hc as [-> Hc1].
  apply bind_Ok in H as ([] & t2 & Hck & H).
  assert (Hmemo : count_of self = 1 -> is_Some (_carryover_kwargs t2)).
  { intros E. rewrite E in Hck. simpl in Hck.
    apply bind_Ok in Hck as (ck & t3 & Hck & Hmod).
    injection Hmod as <-. simpl.
    unfold carryover_kwargs in Hck.
    apply bind_Ok in Hck as (memo & t4 & Hg & Hck).
    injection Hg as <- <-.
    destruct (_carryover_kwargs t1) as [d|] eqn:Ememo.
    - injection Hck as _ <-. rewrite Ememo. eauto.
    - apply bind_Ok in Hck as ([] & t5 & _ & Hck).
      apply bind_Ok in Hck as (m & t6 & _ & Hck).
      apply bind_Ok in Hck as (ps & t7 & _ & Hck).
      apply bind_Ok in Hck as ([] & t8 & Hset & Hck).
      injection Hck as _ <-. injection Hset as <-. simpl. eauto. }
  assert (Hcnt2 : is_Some (_count t2)).
  { destruct (count_of self =? 1) eqn:E.
    - apply bind_Ok in Hck as (ck & t3 & Hck & Hmod).
      injection Hmod as <-. simpl.
      refine (stable_at (fun x => is_Some (_count x)) _ _ _ _
                (stable_carryover_kwargs env _ _ _) Hck _);
        [survive | survive | rewrite Hc1; eauto].
    - injection Hck as <-. rewrite Hc1. eauto. }
  apply bind_Ok in H as ([] & t3 & Hd1 & H). apply delattr_Ok in Hd1.
  apply bind_Ok in H as ([] & t4 & Hd2 & H). apply delattr_Ok in Hd2.
  apply bind_Ok in H as ([] & t5 & Hd3 & H). apply delattr_Ok in Hd3.
  apply bind_Ok in H as (kw & t6 & Hg & H). injection Hg as <- <-.
  subst t3 t4 t5.
  set (t5 := set__history None (set__medium None (set__pf None t2))) in *.
  assert (Hmed : _medium s1 = None).
  { refine (stable_at (fun x => _medium x = None) _ _ _ _
              (stable_init env _ _ _ _ _ _ _ _) H eq_refl); survive. }
  assert (Hck1 : count_of self = 1 -> is_Some (_carryover_kwargs s1)).
  { intros E.
    refine (stable_at (fun x => is_Some (_carryover_kwargs x)) _ _ _ _
              (stable_init env _ _ _ _ _ _ _ _) H (Hmemo E)); survive. }
  assert (Hc2 : is_Some (_count s1)).
  { refine (stable_at (fun x => is_Some (_count x)) _ _ _ _
              (stable_init env _ _ _ _ _ _ _ _) H Hcnt2);
      try survive. intros; simpl; eauto. }
  assert (Hpf1 : is_Some (_pf s1)).
  { pose proof (init_has_pf (kwargs t5) t5) as Hpf. by rewrite H in Hpf. }
  destruct Hc2 as [c Hc2]. destruct Hpf1 as [p Hpf1].
  assert (Hc : c = count_of self).
  { rewrite <- Hcount. unfold count_of. by rewrite Hc2. }
  clear H Hcount Hmemo Hcnt2 Hc1 Hck. clear t5.
  destruct (c =? 1) eqn:E.
  - destruct Hck1 as [d Hd]; [lia|].
    destruct s1 as [kw0 ph0 su0 c0 tm0 pf0 m0 h0 ck0 mx0 b0].
    simpl in *. subst.
    unfold reboot, bind, count, carryover_kwargs, gets, ret, modify,
      delattr. simpl. rewrite E. simpl. done.
  - destruct s1 as [kw0 ph0 su0 c0 tm0 pf0 m0 h0 ck0 mx0 b0].
    simpl in *. subst.
    unfold reboot, bind, count, gets, ret, modify, delattr. simpl.
    rewrite E. simpl. done.
Qed.

(** X16.  After the setter of [maxiter] has
    stored a bound, a call of [run] that returns leaves the count at
    most at that bound, or at 2, or one above the count it started from:
    the bound is read from the memo, whatever the parameter files of
    the iterations say. *)
Theorem raised_maxiter_bounds_run (v : Z) (fuel : nat)
    (self self' : @Global21cm F) :
  run env fuel (snd (set_maxiter env v self)) = (Ok tt, self') ->
  _maxiter self' = Some v
  /\ count_of self' <= Z.max v (Z.max 2 (count_of self + 1)).
Proof.
  intros H.
  assert (Hset : _maxiter (snd (set_maxiter env v self)) = Some v
                 /\ count_of (snd (set_maxiter env v self))
                    = count_of self).
  { unfold set_maxiter, bind, pf, modify.
    destruct (_pf self); simpl; done. }
  destruct Hset as [Hmx Hcnt].
  assert (Hmx' : _maxiter self' = Some v).
  { refine (stable_at (fun x => _maxiter x = Some v) _ _ _ _
              (stable_run env _ _ _ _ _ _ _ _ _ _ _ _ _ fuel) H Hmx);
      survive. }
  split; [exact Hmx'|].
  apply run_accounting in H as (_ & _ & Hb).
  rewrite Hmx', Hcnt in Hb. exact Hb.
Qed.

End CarryoverFacts.

(** X14, a run of it: one population with a
    tabulated spectrum and a field with an optical-depth solver. *)
Lemma carryover_kwargs_content_witness :
  exists d,
    fst (carryover_kwargs Example.env1 Example.sim_first) = Ok d
    /\ _carryover_kwargs (snd (carryover_kwargs Example.env1
                                                Example.sim_first))
       = Some d
    /\ d !! "tau_instance" = Some (VObject 11)
    /\ d !! "hmf_instance" = Some (VObject 7)
    /\ forall i,
         d !! braced "pop_psm_instance" i
         = match [Example.pop_of true (fun _ => 1000%Q)] !! i with
           | Some pop =>
               if sed_tab pop then Some (VObject (src pop)) else None
           | None => None
           end.
Proof.
  exact (carryover_kwargs_content Example.env1 Example.sim_first
           (Example.medium_of [Example.pop_of true (fun _ => 1000%Q)])
           eq_refl eq_refl).
Defined.

(** X15, a run of it: the example object after its
    first iteration. *)
Lemma reboot_twice_raises_witness :
  reboot Example.env1 Example.sim_first = (Ok tt, Example.after_reboot)
  /\ fst (reboot Example.env1 Example.after_reboot) = Raise AttributeError
  /\ _pf (snd (reboot Example.env1 Example.after_reboot)) = None
  /\ _medium (snd (reboot Example.env1 Example.after_reboot)) = None.
Proof.
  split; [vm_compute; reflexivity|].
  apply (reboot_twice_raises Example.env1 Example.sim_first).
  vm_compute; reflexivity.
Defined.

(** X16, a run of it: the bound raised to 3 on a
    new object with feedback. *)
Lemma raised_maxiter_bounds_run_witness :
  _maxiter Example.after_raised = Some 3
  /\ count_of Example.after_raised
     <= Z.max 3 (Z.max 2 (count_of (snd (new_Global21cm
                                           Example.env_feedback ∅)) + 1)).
Proof.
  apply (raised_maxiter_bounds_run Example.env_feedback 3 5).
  vm_compute; reflexivity.
Defined.

(* ================================================================== *)
(** * The steps of a pass *)

Section PassFacts.
Context {F : Type} {NF : Numeric F}.
Context (env : @Env F).

Lemma step_bands_Ja (p : ParameterFile) (fld : RadiationField) (z : F)
    (i : nat) (bands : list (F * F)) :
  forall j J J',
    step_bands env p fld z i j bands J = Ok J' ->
    exists ts, Ja_band_terms env p fld z i j bands = Ok ts
               /\ fst J' = fold_left fadd ts (fst J).
Proof.
  induction bands as [|band bands IH]; intros j J J' H; simpl in *.
  - injection H as <-. by exists [].
  - destruct (band_has_LyA env band); simpl in H.
    + peel H this Hthis. rewrite Hthis. simpl.
      destruct (IH _ _ _ H) as (ts & -> & ->). simpl. eauto.
    + by apply IH.
Qed.

Lemma step_pops_Ja (p : ParameterFile) (fld : RadiationField) (z : F)
    (ps : list Population) :
  forall i J J',
    step_pops env p fld z i ps J = Ok J' ->
    exists ts, Ja_terms env p fld z i ps = Ok ts
               /\ fst J' = fold_left fadd ts (fst J).
Proof.
  induction ps as [|pop ps IH]; intros i J J' H; simpl in *.
  - injection H as <-. by exists [].
  - destruct (is_lya_src pop); simpl in H; [|by apply IH].
    peel H rte Hrte. rewrite Hrte. simpl.
    destruct (existsb id rte); simpl in H.
    + peel H bands Hb. peel H J1 HJ1. rewrite Hb. simpl.
      destruct (step_bands_Ja _ _ _ _ _ _ _ _ HJ1) as (t1 & -> & E1).
      destruct (IH _ _ _ H) as (t2 & -> & E2). simpl.
      exists (t1 ++ t2). split; [done|].
      by rewrite fold_left_app, <- E1.
    + destruct (IH _ _ _ H) as (t2 & -> & E2). simpl.
      eexists; split; [reflexivity|]. by rewrite E2.
Qed.

(** What [step] leaves alone. *)
Lemma step_record_keeps (p : ParameterFile) (m : MultiPhaseMedium)
    (r0 r : StepRecord) :
  step_record env p m r0 = Ok r ->
  step_t r = step_t r0 /\ step_z r = step_z r0
  /\ step_cgm r = step_cgm r0 /\ step_RC_igm r = step_RC_igm r0
  /\ step_RC_cgm r = step_RC_cgm r0
  /\ is_Some (step_igm r !! "dTb")
  /\ forall k, k ∉ ["Ts"; "dTb"; "Ja"; "Jlw"] ->
               step_igm r !! k = step_igm r0 !! k.
Proof.
  intros H. unfold step_record in H.
  peel H J HJ. peel H Tk HTk. peel H h_2 Hh2. peel H e He.
  peel H x_cgm Hx. peel H h_2' Hh2'. injection H as <-. simpl.
  repeat (split; [done|]). split.
  - rewrite lookup_insert_ne by done. rewrite lookup_insert_ne by done.
    rewrite lookup_insert_eq. eauto.
  - intros k Hk.
    rewrite !lookup_insert_ne; [done|..]; intros <-; apply Hk;
      repeat constructor.
Qed.

(** X17.  A step that succeeds yields the record of
    the medium with [Ts], [dTb], [Ja] and [Jlw] set in its igm state and
    nothing else changed.  [Jlw] is the sum of its terms, which hold the
    closed-form flux only with feedback configured.  [Ja] is the sum,
    from 0.0 and in the order of
    the loops, over the sources of Lyman-alpha photons of the closed-form
    flux of a population without radiative transfer - with or without
    feedback - and of the flux of every band that contains the line for
    a population with it. *)
Theorem step_adds_four_fields (p : ParameterFile) (m : MultiPhaseMedium)
    (r0 r : StepRecord) :
  step_record env p m r0 = Ok r ->
  step_t r = step_t r0 /\ step_z r = step_z r0
  /\ step_cgm r = step_cgm r0 /\ step_RC_igm r = step_RC_igm r0
  /\ step_RC_cgm r = step_RC_cgm r0
  /\ (forall k, k ∉ ["Ts"; "dTb"; "Ja"; "Jlw"] ->
                step_igm r !! k = step_igm r0 !! k)
  /\ is_Some (step_igm r !! "Ts") /\ is_Some (step_igm r !! "dTb")
  /\ (exists tl,
        Jlw_terms env (feedback_configured p) p (field m) (step_z r0) 0
                  (pops (field m)) = Ok tl
        /\ step_igm r !! "Jlw" = Some (np_sum tl))
  /\ exists ts,
       Ja_terms env p (field m) (step_z r0) 0 (pops (field m)) = Ok ts
       /\ step_igm r !! "Ja" = Some (np_sum ts).
Proof.
  intros H.
  destruct (step_record_keeps _ _ _ _ H)
    as (H1 & H2 & H3 & H4 & H5 & H6 & H7).
  repeat (split; [done|]).
  unfold step_record in H.
  peel H J HJ. peel H Tk HTk. peel H h_2 Hh2. peel H e He.
  peel H x_cgm Hx. peel H h_2' Hh2'. injection H as <-. simpl.
  split; [|split; [|split]].
  - rewrite !lookup_insert_ne by done. rewrite lookup_insert_eq. eauto.
  - rewrite !lookup_insert_ne by done. rewrite lookup_insert_eq. eauto.
  - destruct (step_pops_sum _ _ _ _ _ _ _ _ HJ) as (tl & Htl & E).
    exists tl. split; [exact Htl|].
    rewrite lookup_insert_eq. by rewrite E.
  - destruct (step_pops_Ja _ _ _ _ _ _ _ HJ) as (ts & Hts & E).
    exists ts. split; [exact Hts|].
    rewrite lookup_insert_ne by done. rewrite lookup_insert_eq.
    by rewrite E.
Qed.

(** X18.  Whether the loop of [run] ends normally or
    raises, it has appended to the lists of the medium the times, the
    redshifts, the cgm states and the rate coefficients of the first [n]
    records that the medium yielded, in order, and [n] igm states; none
    of these records lies below the final redshift; and when it ends
    normally the list of brightness temperatures has grown by [n] too. *)
Theorem run_loop_lockstep (p : ParameterFile) (m : MultiPhaseMedium)
    (pending : list StepRecord) (all_dTb : list F) :
  exists n,
    (n <= length pending)%nat
    /\ all_z (snd (run_loop env p m pending all_dTb))
       = all_z m ++ map step_z (take n pending)
    /\ all_t (snd (run_loop env p m pending all_dTb))
       = all_t m ++ map step_t (take n pending)
    /\ length (all_data_igm (snd (run_loop env p m pending all_dTb)))
       = (length (all_data_igm m) + n)%nat
    /\ all_data_cgm (snd (run_loop env p m pending all_dTb))
       = all_data_cgm m ++ map step_cgm (take n pending)
    /\ all_RCs_igm (snd (run_loop env p m pending all_dTb))
       = all_RCs_igm m ++ map step_RC_igm (take n pending)
    /\ all_RCs_cgm (snd (run_loop env p m pending all_dTb))
       = all_RCs_cgm m ++ map step_RC_cgm (take n pending)
    /\ Forall (fun r => flt (step_z r) (final_redshift p) = false)
              (take n pending)
    /\ forall d, fst (run_loop env p m pending all_dTb) = Ok d ->
                 length d = (length all_dTb + n)%nat.
Proof.
  revert m all_dTb.
  assert (Hstop : forall (m : MultiPhaseMedium) (l : list F)
                         (r : result (list F)) (pending : list StepRecord),
            (forall d, r = Ok d -> d = l) ->
            exists n,
              (n <= length pending)%nat
              /\ all_z m = all_z m ++ map step_z (take n pending)
              /\ all_t m = all_t m ++ map step_t (take n pending)
              /\ length (all_data_igm m) = (length (all_data_igm m) + n)%nat
              /\ all_data_cgm m
                 = all_data_cgm m ++ map step_cgm (take n pending)
              /\ all_RCs_igm m
                 = all_RCs_igm m ++ map step_RC_igm (take n pending)
              /\ all_RCs_cgm m
                 = all_RCs_cgm m ++ map step_RC_cgm (take n pending)
              /\ Forall (fun r => flt (step_z r) (final_redshift p) = false)
                        (take n pending)
              /\ forall d, r = Ok d -> length d = (length l + n)%nat).
  { intros m l r pd Hr. exists 0%nat. rewrite take_0. simpl.
    rewrite !app_nil_r. do 7 (split; [done || lia|]).
    split; [constructor|].
    intros d Hd. rewrite (Hr d Hd). lia. }
  induction pending as [|r0 pending IH]; intros m all_dTb.
  { refine (Hstop m all_dTb (Ok all_dTb) [] _). by intros d [= <-]. }
  cbn [run_loop].
  destruct (step_record env p m r0) as [r|e] eqn:Er;
    [|refine (Hstop m all_dTb (Raise e) (r0 :: pending) _);
      by intros d [=]].
  destruct (step_record_keeps _ _ _ _ Er)
    as (Ht & Hz & Hc & Hri & Hrc & [dTb HdTb] & _).
  destruct (flt (step_z r) (final_redshift p)) eqn:Ez;
    [refine (Hstop m all_dTb (Ok all_dTb) (r0 :: pending) _);
     by intros d [= <-]|].
  unfold getitem. rewrite HdTb.
  assert (Hone :
    forall (res : result (list F) * MultiPhaseMedium),
      (exists n,
         (n <= length pending)%nat
         /\ all_z (snd res)
            = all_z (append_step r m) ++ map step_z (take n pending)
         /\ all_t (snd res)
            = all_t (append_step r m) ++ map step_t (take n pending)
         /\ length (all_data_igm (snd res))
            = (length (all_data_igm (append_step r m)) + n)%nat
         /\ all_data_cgm (snd res)
            = all_data_cgm (append_step r m)
              ++ map step_cgm (take n pending)
         /\ all_RCs_igm (snd res)
            = all_RCs_igm (append_step r m)
              ++ map step_RC_igm (take n pending)
         /\ all_RCs_cgm (snd res)
            = all_RCs_cgm (append_step r m)
              ++ map step_RC_cgm (take n pending)
         /\ Forall (fun r => flt (step_z r) (final_redshift p) = false)
                   (take n pending)
         /\ forall d, fst res = Ok d ->
                      length d = (length (all_dTb ++ [dTb]) + n)%nat) ->
      exists n,
        (n <= length (r0 :: pending))%nat
        /\ all_z (snd res) = all_z m ++ map step_z (take n (r0 :: pending))
        /\ all_t (snd res) = all_t m ++ map step_t (take n (r0 :: pending))
        /\ length (all_data_igm (snd res))
           = (length (all_data_igm m) + n)%nat
        /\ all_data_cgm (snd res)
           = all_data_cgm m ++ map step_cgm (take n (r0 :: pending))
        /\ all_RCs_igm (snd res)
           = all_RCs_igm m ++ map step_RC_igm (take n (r0 :: pending))
        /\ all_RCs_cgm (snd res)
           = all_RCs_cgm m ++ map step_RC_cgm (take n (r0 :: pending))
        /\ Forall (fun r => flt (step_z r) (final_redshift p) = false)
                  (take n (r0 :: pending))
        /\ forall d, fst res = Ok d ->
                     length d = (length all_dTb + n)%nat).
  { intros res (n & Hn & H1 & H2 & H3 & H4 & H5 & H6 & H7 & H8).
    exists (S n). simpl in *.
    rewrite H1, H2, H3, H4, H5, H6, <- !app_assoc. simpl.
    rewrite Ht, Hz, Hc, Hri, Hrc, length_app. simpl.
    split; [lia|]. do 6 (split; [done || lia|]).
    split; [constructor; [by rewrite <- Hz | done]|].
    intros d Hd. rewrite (H8 d Hd), length_app. simpl. lia. }
  match goal with
  | |- context [if ?b then _ else _] => destruct b
  end.
  - refine (Hone (Ok (all_dTb ++ [dTb]), append_step r m) _).
    refine (Hstop (append_step r m) (all_dTb ++ [dTb])
              (Ok (all_dTb ++ [dTb])) pending _).
    by intros d [= <-].
  - refine (Hone _ _). apply IH.
Qed.

Lemma init_dTb_loop_records (m : MultiPhaseMedium)
    (todo : list (gmap string F)) :
  forall i done dTb,
    length (snd (_init_dTb_loop m i todo done dTb))
    = (length done + length todo)%nat
    /\ forall d, fst (_init_dTb_loop m i todo done dTb) = Ok d ->
         length d = (length dTb + length todo)%nat
         /\ ((0 < length todo)%nat ->
             (i + length todo <= length (all_z m))%nat)
         /\ (Forall (fun r : gmap string F =>
                       is_Some (r !! "dTb") /\ is_Some (r !! "Ts")) done ->
             Forall (fun r : gmap string F =>
                       is_Some (r !! "dTb") /\ is_Some (r !! "Ts"))
                    (snd (_init_dTb_loop m i todo done dTb))).
Proof.
  induction todo as [|d0 todo IH]; intros i done dTb; simpl.
  - split; [lia|]. intros d [= <-]. repeat split; [lia | lia | done].
  - destruct (_init_dTb_one m i d0) as [[Tb Ts]|e] eqn:E; simpl.
    + assert (Hi : (i < length (all_z m))%nat).
      { unfold _init_dTb_one, index in E.
        destruct (all_z m !! i) eqn:Ei; [|discriminate].
        by apply lookup_lt_Some in Ei. }
      destruct (IH (S i) (done ++ [<["Ts" := Ts]> (<["dTb" := Tb]> d0)])
                   (dTb ++ [Tb])) as [Hlen Hok].
      rewrite length_app in Hlen. simpl in Hlen. split; [lia|].
      intros d Hd. destruct (Hok d Hd) as (H1 & H2 & H3).
      rewrite length_app in H1. simpl in H1.
      split; [lia|]. split; [destruct todo; simpl in *; lia|].
      intros Hdone. apply H3.
      apply Forall_app. split; [done|]. constructor; [|done]. split.
      * rewrite lookup_insert_ne by done. rewrite lookup_insert_eq. eauto.
      * rewrite lookup_insert_eq. eauto.
    + rewrite length_app. simpl. split; [lia|]. by intros d [=].
Qed.

(** X19.  [_init_dTb] keeps the number of initial records
    of the medium, whether it returns or raises.  When it returns, the
    list it returns has one brightness temperature per record and every
    record carries [dTb] and [Ts]; it cannot return when the medium has
    fewer redshifts than records. *)
Theorem init_dTb_records (self : @Global21cm F) (m : MultiPhaseMedium) :
  fst (medium env self) = Ok m ->
  exists m',
    _medium (snd (_init_dTb env self)) = Some m'
    /\ length (all_data_igm m') = length (all_data_igm m)
    /\ all_z m' = all_z m
    /\ forall d, fst (_init_dTb env self) = Ok d ->
         length d = length (all_data_igm m)
         /\ (length (all_data_igm m) <= length (all_z m))%nat
         /\ Forall (fun r : gmap string F =>
                      is_Some (r !! "dTb") /\ is_Some (r !! "Ts"))
                   (all_data_igm m').
Proof.
  intros Hm.
  destruct (init_dTb_loop_records m (all_data_igm m) 0 [] [])
    as [Hlen Hok].
  exists (with_all_data_igm
            (snd (_init_dTb_loop m 0 (all_data_igm m) [] [])) m).
  assert (Hrun : fst (_init_dTb env self)
                 = fst (_init_dTb_loop m 0 (all_data_igm m) [] [])
                 /\ _medium (snd (_init_dTb env self))
                    = Some (with_all_data_igm
                              (snd (_init_dTb_loop m 0 (all_data_igm m)
                                      [] [])) m)).
  { destruct self as [kw0 ph0 su0 c0 tm0 pf0 m0 h0 ck0 mx0 b0].
    unfold _init_dTb, bind, modify, lift, medium in *. simpl in *.
    destruct m0 as [m0|]; simpl in *; injection Hm as Hm; subst m;
      by destruct (fst (_init_dTb_loop _ _ _ _ _)). }
  destruct Hrun as [Hfst Hsnd]. rewrite Hfst.
  split; [exact Hsnd|]. simpl. split; [exact Hlen|]. split; [done|].
  intros d Hd. destruct (Hok d Hd) as (H1 & H2 & H3).
  split; [exact H1|]. split; [|by apply H3].
  destruct (all_data_igm m); simpl in *; lia.
Qed.

(** X20.  When the tables of a pass have been
    built, the history holds the times and the redshifts of the medium
    under [t] and [z]; and unless rate coefficients are saved on top,
    [dTb], [Ts], [Ja] and [Jlw] hold the series of [igm_dTb], [igm_Ts],
    [igm_Ja] and [igm_Jlw]. *)
Theorem finalize_history_tables (p : ParameterFile)
    (self self' : @Global21cm F) (m : MultiPhaseMedium) :
  fst (medium env self) = Ok m ->
  finalize_history env p self = (Ok tt, self') ->
  exists h,
    _history self' = Some h
    /\ h !! "t" = Some (all_t m) /\ h !! "z" = Some (all_z m)
    /\ (save_rate_coefficients p = false ->
        is_Some (h !! "dTb")
        /\ h !! "dTb" = h !! "igm_dTb" /\ h !! "Ts" = h !! "igm_Ts"
        /\ h !! "Ja" = h !! "igm_Ja" /\ h !! "Jlw" = h !! "igm_Jlw").
Proof.
  intros Hm H. unfold finalize_history in H.
  apply bind_Ok in H as (m1 & t1 & Hm1 & H).
  assert (m1 = m) as -> by (rewrite Hm1 in Hm; by injection Hm).
  clear Hm Hm1.
  apply bind_Ok in H as (higm & t2 & _ & H).
  apply bind_Ok in H as (hcgm & t3 & _ & H).
  apply bind_Ok in H as ([] & t4 & Hset & H). injection Hset as <-.
  assert (Halias : forall (k k' : string) (s s' : @Global21cm F) h0,
            _history s = Some h0 ->
            history_alias k k' s = (Ok tt, s') ->
            exists v, h0 !! k' = Some v
                      /\ _history s' = Some (<[k := v]> h0)).
  { intros k k' s s' h0 Hh Ha. unfold history_alias in Ha.
    apply bind_Ok in Ha as (h1 & u1 & Hg & Ha).
    apply getattr_Ok in Hg as [Hg ->]. rewrite Hh in Hg.
    injection Hg as <-.
    apply bind_Ok in Ha as (v & u2 & Hl & Ha).
    unfold lift in Hl. injection Hl as Hl <-.
    apply getitem_Ok in Hl. injection Ha as <-. eauto. }
  assert (Hupd : forall (d : gmap string (list F)) (s s' : @Global21cm F)
                        h0,
            _history s = Some h0 ->
            history_update d s = (Ok tt, s') ->
            _history s' = Some (d ∪ h0)).
  { intros d s s' h0 Hh Hu. unfold history_update in Hu.
    apply bind_Ok in Hu as (h1 & u1 & Hg & Hu).
    apply getattr_Ok in Hg as [Hg ->]. rewrite Hh in Hg.
    injection Hg as <-. by injection Hu as <-. }
  apply bind_Ok in H as ([] & t5 & Hu0 & H).
  apply (Hupd hcgm (set__history (Some higm) t3) t5 higm eq_refl) in Hu0.
  apply bind_Ok in H as ([] & t6 & Ha1 & H).
  apply (Halias _ _ _ _ _ Hu0) in Ha1 as (v1 & Hv1 & Hh1).
  apply bind_Ok in H as ([] & t7 & Ha2 & H).
  apply (Halias _ _ _ _ _ Hh1) in Ha2 as (v2 & Hv2 & Hh2).
  apply bind_Ok in H as ([] & t8 & Ha3 & H).
  apply (Halias _ _ _ _ _ Hh2) in Ha3 as (v3 & Hv3 & Hh3).
  apply bind_Ok in H as ([] & t9 & Ha4 & H).
  apply (Halias _ _ _ _ _ Hh3) in Ha4 as (v4 & Hv4 & Hh4).
  apply bind_Ok in H as ([] & t10 & Hrates & H).
  assert (Hh5 : exists h5, _history t10 = Some h5
                  /\ (save_rate_coefficients p = false ->
                      h5 = <["Jlw" := v4]> (<["Ja" := v3]>
                             (<["Ts" := v2]> (<["dTb" := v1]>
                                (hcgm ∪ higm)))))).
  { destruct (save_rate_coefficients p).
    - apply bind_Ok in Hrates as (ri & u1 & Hl1 & Hrates).
      injection Hl1 as _ <-.
      apply bind_Ok in Hrates as (rc & u2 & Hl2 & Hrates).
      injection Hl2 as _ <-.
      apply bind_Ok in Hrates as ([] & u3 & Hu1 & Hrates).
      apply (Hupd _ _ _ _ Hh4) in Hu1.
      apply (Hupd _ _ _ _ Hu1) in Hrates.
      eexists. split; [exact Hrates | by intros [=]].
    - injection Hrates as <-. eexists. split; [exact Hh4 | done]. }
  destruct Hh5 as (h5 & Hh5 & Hplain).
  apply bind_Ok in H as ([] & t11 & Hu1 & H).
  apply (Hupd _ _ _ _ Hh5) in Hu1.
  apply (Hupd _ _ _ _ Hu1) in H.
  eexists. split; [exact H|].
  split; [|split].
  - rewrite lookup_union_r by (by apply lookup_singleton_ne).
    apply lookup_union_Some_l. apply lookup_singleton_eq.
  - apply lookup_union_Some_l. apply lookup_singleton_eq.
  - intros Hoff. rewrite (Hplain Hoff).
    assert (Hskip : forall (k : string) (hh : gmap string (list F)),
              k <> "z" -> k <> "t" ->
              ({[ "z" := all_z m ]} ∪ ({[ "t" := all_t m ]} ∪ hh)) !! k
              = hh !! k).
    { intros k hh Hz Ht.
      rewrite lookup_union_r by (by apply lookup_singleton_ne).
      by rewrite lookup_union_r by (by apply lookup_singleton_ne). }
    rewrite !Hskip by done.
    rewrite lookup_insert_ne in Hv2 by done.
    rewrite !lookup_insert_ne in Hv3 by done.
    rewrite !lookup_insert_ne in Hv4 by done.
    split; [|split; [|split; [|split]]].
    + rewrite !lookup_insert_ne by done. rewrite lookup_insert_eq. eauto.
    + rewrite !lookup_insert_ne by done. rewrite lookup_insert_eq.
      rewrite ?lookup_insert_ne by done. by rewrite Hv1.
    + rewrite !lookup_insert_ne by done. rewrite lookup_insert_eq.
      rewrite ?lookup_insert_ne by done. by rewrite Hv2.
    + rewrite !lookup_insert_ne by done. rewrite lookup_insert_eq.
      rewrite ?lookup_insert_ne by done. by rewrite Hv3.
    + rewrite lookup_insert_eq. rewrite !lookup_insert_ne by done.
      by rewrite Hv4.
Qed.

End PassFacts.

(** X17, a run of it: two sources, the first in
    closed form, the third with one band that contains the line. *)
Lemma step_adds_four_fields_witness :
  step_record Example.env1 Example.pf_maxiter1 Example.medium_two_sources
              (Example.raw_step 1 30)
  = Ok Example.stepped_two_sources
  /\ Example.stepped_two_sources.(step_igm) !! "Tk" = Some 10%Q
  /\ (exists tl,
        Jlw_terms Example.env1 true Example.pf_maxiter1
                  Example.field_two_sources 30%Q 0
                  (pops Example.field_two_sources) = Ok tl
        /\ Example.stepped_two_sources.(step_igm) !! "Jlw"
           = Some (np_sum tl))
  /\ exists ts,
       Ja_terms Example.env1 Example.pf_maxiter1 Example.field_two_sources
                30%Q 0 (pops Example.field_two_sources) = Ok ts
       /\ Example.stepped_two_sources.(step_igm) !! "Ja"
          = Some (np_sum ts).
Proof.
  assert (E : step_record Example.env1 Example.pf_maxiter1
                Example.medium_two_sources (Example.raw_step 1 30)
              = Ok Example.stepped_two_sources) by (vm_compute; reflexivity).
  split; [exact E|].
  destruct (step_adds_four_fields Example.env1 Example.pf_maxiter1
              Example.medium_two_sources (Example.raw_step 1 30)
              Example.stepped_two_sources E)
    as (_ & _ & _ & _ & _ & Hk & _ & _ & HJlw & HJa).
  split; [|split; [exact HJlw | exact HJa]].
  rewrite Hk; [reflexivity|].
  intros Hin. repeat (apply elem_of_cons in Hin as [Hin | Hin];
                      [discriminate|]).
  by apply elem_of_nil in Hin.
Defined.

(** X19, a run of it: a medium with one initial
    record. *)
Lemma init_dTb_records_witness :
  exists m',
    _medium (snd (_init_dTb Example.env_no_feedback Example.sim_started))
    = Some m'
    /\ length (all_data_igm m') = 1%nat
    /\ all_z m' = [40%Q]
    /\ forall d,
         fst (_init_dTb Example.env_no_feedback Example.sim_started)
         = Ok d ->
         length d = 1%nat
         /\ (1 <= 1)%nat
         /\ Forall (fun r : gmap string Q =>
                      is_Some (r !! "dTb") /\ is_Some (r !! "Ts"))
                   (all_data_igm m').
Proof.
  exact (init_dTb_records Example.env_no_feedback Example.sim_started
           Example.medium_started eq_refl).
Defined.

(** X20, a run of it: the tables of the object
    after its first call of [run], built again. *)
Lemma finalize_history_tables_witness :
  exists h,
    _history Example.refinalized = Some h
    /\ h !! "t" = Some (all_t Example.medium_after_first)
    /\ h !! "z" = Some (all_z Example.medium_after_first)
    /\ (save_rate_coefficients Example.pf_no_feedback = false ->
        is_Some (h !! "dTb")
        /\ h !! "dTb" = h !! "igm_dTb" /\ h !! "Ts" = h !! "igm_Ts"
        /\ h !! "Ja" = h !! "igm_Ja" /\ h !! "Jlw" = h !! "igm_Jlw").
Proof.
  apply (finalize_history_tables Example.env_no_feedback
           Example.pf_no_feedback Example.after_first
           Example.refinalized Example.medium_after_first);
    vm_compute; reflexivity.
Defined.

(* ================================================================== *)
(** * What [save] leaves behind *)

Section SaveMore.
Context {F : Type} {NF : Numeric F}.
Context (env : @Env F).

Lemma stable_on_self {A} (P : @Global21cm F * gmap string (@FileData F)
                              -> Prop)
    (m : M (@Global21cm F) A) :
  (forall fs, stable (fun s => P (s, fs)) m) -> stable P (on_self m).
Proof. intros H [s fs] Hs. unfold on_self. simpl. apply (H fs s Hs). Qed.

(** [save] is built from reads of the object, tests of the paths, and
    removals and writes of files: a property of the object and the files
    that survives the removals and the writes of the three paths, and
    the memo of the parameter file, is kept by [save]. *)
Lemma stable_save (P : @Global21cm F * gmap string (@FileData F) -> Prop)
    (prefix suffix : string) (clobber : bool) :
  (forall v s fs, P (s, fs) -> P (set__pf v s, fs)) ->
  (forall fn s fs,
     fn ∈ [history_path prefix suffix; blobs_path prefix suffix;
           parameters_path prefix] ->
     P (s, fs) -> P (s, delete fn fs)) ->
  (forall fn d s fs,
     fn ∈ [history_path prefix suffix; blobs_path prefix suffix;
           parameters_path prefix] ->
     P (s, fs) -> P (s, <[fn := d]> fs)) ->
  stable P (save env prefix suffix clobber).
Proof.
  intros Hpf Hdel Hins.
  assert (Hh : history_path prefix suffix
               ∈ [history_path prefix suffix; blobs_path prefix suffix;
                  parameters_path prefix]) by repeat constructor.
  assert (Hb : blobs_path prefix suffix
               ∈ [history_path prefix suffix; blobs_path prefix suffix;
                  parameters_path prefix]) by repeat constructor.
  assert (Hp : parameters_path prefix
               ∈ [history_path prefix suffix; blobs_path prefix suffix;
                  parameters_path prefix]) by repeat constructor.
  assert (Hw : forall fn d,
            fn ∈ [history_path prefix suffix; blobs_path prefix suffix;
                  parameters_path prefix] ->
            stable P (write_file fn d)).
  { intros fn d Hfn. apply stable_modify. intros [s fs] Hs.
    by apply Hins. }
  assert (Hr : forall fn,
            fn ∈ [history_path prefix suffix; blobs_path prefix suffix;
                  parameters_path prefix] ->
            stable P (os_remove fn)).
  { intros fn Hfn. apply stable_modify. intros [s fs] Hs. by apply Hdel. }
  assert (Hg : forall A (f : @Global21cm F -> option A),
            stable P (on_self (getattr f))).
  { intros A f. apply stable_on_self. intros fs. apply stable_getattr. }
  assert (Hhist : stable P (on_self history)) by apply Hg.
  assert (Hpfr : stable P (on_self (pf env))).
  { apply stable_on_self. intros fs. apply stable_pf.
    intros v s. apply Hpf. }
  unfold save, save_check, save_history, save_parameters, path_exists.
  repeat first
    [ apply stable_ret | apply stable_raise | apply stable_gets
    | apply stable_lift
    | apply Hg | apply Hhist | apply Hpfr
    | apply Hw; assumption | apply Hr; assumption
    | apply stable_try_except
    | apply stable_bind; [|intros ?]
    | match goal with
      | |- stable _ (if ?b then _ else _) => destruct b
      | |- stable _ (match ?o with Some _ => _ | None => _ end) =>
          destruct o
      end
    | progress cbv zeta ].
Qed.

(** X21.  Whether [save] returns or raises, every
    file other than the history file, the blobs file and the parameter
    file of the prefix is as it was, and so is every attribute of the
    object apart from the memo of the parameter file. *)
Theorem save_touches_three_paths (self : @Global21cm F)
    (fs : gmap string (@FileData F)) (prefix suffix : string)
    (clobber : bool) :
  (forall path,
     path <> history_path prefix suffix ->
     path <> blobs_path prefix suffix ->
     path <> parameters_path prefix ->
     (snd (save env prefix suffix clobber (self, fs))).2 !! path
     = fs !! path)
  /\ set__pf (_pf self)
       (snd (save env prefix suffix clobber (self, fs))).1
     = self.
Proof.
  split.
  - intros path H1 H2 H3.
    refine (stable_save (fun w => w.2 !! path = fs !! path)
              prefix suffix clobber _ _ _ (self, fs) eq_refl).
    + by intros v s fs' H.
    + intros fn s fs' Hfn H. simpl in *.
      rewrite lookup_delete_ne; [done|]. intros ->.
      repeat (apply elem_of_cons in Hfn as [Hfn | Hfn]; [congruence|]).
      by apply elem_of_nil in Hfn.
    + intros fn d s fs' Hfn H. simpl in *.
      rewrite lookup_insert_ne; [done|]. intros ->.
      repeat (apply elem_of_cons in Hfn as [Hfn | Hfn]; [congruence|]).
      by apply elem_of_nil in Hfn.
  - refine (stable_save (fun w => set__pf (_pf self) w.1 = self)
              prefix suffix clobber _ _ _ (self, fs) _).
    + intros v s fs' H. simpl in *. rewrite <- H at 2. by destruct s.
    + by intros fn s fs' _ H.
    + by intros fn d s fs' _ H.
    + simpl. by destruct self.
Qed.

Lemma save_history_leaves_file (prefix suffix : string)
    (w w' : @Global21cm F * gmap string (@FileData F)) :
  save_history env prefix suffix w = (Ok tt, w') ->
  is_Some (w'.2 !! history_path prefix suffix).
Proof.
  pose proof (history_ne_blobs prefix suffix suffix) as Hb.
  destruct w as [s fs].
  unfold save_history, history, bind, on_self, getattr, write_file,
    modify, try_except, raise, ret. simpl.
  destruct (_suite s) as [suite|]; simpl; [|discriminate].
  destruct (bool_decide (suffix = "pkl")) eqn:Epkl.
  - rewrite andb_false_r.
    destruct suite as [|e suite]; simpl;
      [destruct (_history s); simpl; [|discriminate]|];
      destruct (blobs s); simpl; intros [= <-]; simpl;
      rewrite ?lookup_insert_ne by (intros E; by apply Hb);
      rewrite lookup_insert_eq; eauto.
  - rewrite andb_true_r.
    destruct suite as [|e suite]; simpl; [|discriminate].
    destruct (bool_decide (suffix = "hdf5") || bool_decide (suffix = "h5"));
      [destruct (h5py_installed env); simpl; [|discriminate]
      |destruct (bool_decide (suffix = "npz"))];
      simpl; (destruct (_history s) as [h|]; simpl; [|discriminate]).
    + intros [= <-]. simpl. rewrite lookup_insert_eq. eauto.
    + destruct (blobs s) as [b|]; simpl; [|discriminate].
      destruct (size b =? 0)%nat; simpl; intros [= <-]; simpl;
        rewrite ?lookup_insert_ne by (intros E; by apply Hb);
        rewrite lookup_insert_eq; eauto.
    + destruct (last (dict_keys h)) as [key|]; simpl; [|discriminate].
      unfold lift. destruct (getitem h key) as [series|e]; simpl;
        [|discriminate].
      destruct (ascii_rows env h (dict_keys h) 0 (length series) [])
        as [[[]|e] rows]; simpl; [|discriminate].
      intros [= <-]. simpl. rewrite lookup_insert_eq. eauto.
Qed.

Lemma save_parameters_leaves_file (prefix : string)
    (w w' : @Global21cm F * gmap string (@FileData F)) :
  save_parameters env prefix false w = (Ok tt, w') ->
  is_Some (w'.2 !! parameters_path prefix).
Proof.
  destruct w as [s fs].
  unfold save_parameters, bind, path_exists, gets, os_remove, write_file,
    modify, on_self, ret. simpl.
  destruct (fs !! parameters_path prefix) eqn:E; simpl.
  - intros [= <-]. simpl. rewrite E. eauto.
  - destruct (pf env s) as [[p|e] s']; simpl; [|discriminate].
    intros [= <-]. simpl. rewrite lookup_insert_eq. eauto.
Qed.

(** X22.  A save without [clobber] that returns leaves
    a history file and a parameter file behind, so the same save once
    more raises IOError and changes nothing. *)
Theorem save_twice_refused (self self' : @Global21cm F)
    (fs fs' : gmap string (@FileData F)) (prefix suffix : string) :
  save env prefix suffix false (self, fs) = (Ok tt, (self', fs')) ->
  is_Some (fs' !! history_path prefix suffix)
  /\ is_Some (fs' !! parameters_path prefix)
  /\ save env prefix suffix false (self', fs')
     = (Raise IOError, (self', fs')).
Proof.
  intros H. unfold save in H.
  apply bind_Ok in H as ([] & w1 & _ & H).
  apply bind_Ok in H as ([] & w2 & Hhist & H).
  apply save_history_leaves_file in Hhist.
  assert (Hkeep : fs' !! history_path prefix suffix
                  = w2.2 !! history_path prefix suffix).
  { destruct w2 as [s2 fs2].
    pose proof (save_parameters_elsewhere env s2 fs2 prefix false
                  (history_path prefix suffix)
                  (history_ne_parameters prefix suffix)) as Hp.
    by rewrite H in Hp. }
  apply save_parameters_leaves_file in H. simpl in H.
  rewrite <- Hkeep in Hhist. split; [exact Hhist|]. split; [exact H|].
  destruct Hhist as [old Hold].
  unfold save, bind. by rewrite (save_check_refuses _ _ _ _ old).
Qed.

(** X23.  An object without blobs and without
    iterations in its suite, saved where no history file exists: in the
    pkl format the save returns and leaves an empty blobs file behind;
    in the npz format it raises AttributeError once the history file is
    written, and the parameter file is not written. *)
Theorem save_without_blobs (self : @Global21cm F)
    (fs : gmap string (@FileData F)) (prefix : string) (clobber : bool)
    (h : gmap string (list F)) :
  blobs self = None -> _suite self = Some [] -> _history self = Some h ->
  fs !! history_path prefix "pkl" = None ->
  fs !! history_path prefix "npz" = None ->
  (fst (save env prefix "pkl" clobber (self, fs)) = Ok tt
   /\ (snd (save env prefix "pkl" clobber (self, fs))).2
        !! history_path prefix "pkl" = Some (Pickled [h])
   /\ (snd (save env prefix "pkl" clobber (self, fs))).2
        !! blobs_path prefix "pkl" = Some Empty)
  /\ (save env prefix "npz" clobber (self, fs)
      = (Raise AttributeError,
         (self, <[history_path prefix "npz" := Npz h]> fs))).
Proof.
  intros Hb Hs Hh Hpkl Hnpz.
  pose proof (history_ne_blobs prefix "pkl" "pkl") as Hne1.
  pose proof (history_ne_parameters prefix "pkl") as Hne2.
  pose proof (blobs_ne_parameters prefix "pkl") as Hne3.
  split.
  - assert (Hhist : save_history env prefix "pkl" (self, fs)
                    = (Ok tt,
                       (self, <[blobs_path prefix "pkl" := Empty]>
                                (<[history_path prefix "pkl"
                                   := Pickled [h]]>
                                   (<[history_path prefix "pkl" := Empty]>
                                      fs))))).
    { unfold save_history, history, bind, on_self, getattr, write_file,
        modify, try_except, raise, ret. simpl.
      rewrite Hs. simpl. rewrite Hh. simpl. rewrite Hb. simpl. done. }
    assert (Hsave : save env prefix "pkl" clobber (self, fs)
                    = save_parameters env prefix clobber
                        (self, <[blobs_path prefix "pkl" := Empty]>
                                 (<[history_path prefix "pkl"
                                    := Pickled [h]]>
                                    (<[history_path prefix "pkl" := Empty]>
                                       fs)))).
    { unfold save, bind. rewrite save_check_passes by done.
      by rewrite Hhist. }
    rewrite Hsave.
    split; [|split].
    + unfold save_parameters, bind, path_exists, gets, os_remove,
        write_file, modify, on_self, ret. simpl.
      destruct (_ !! parameters_path prefix); simpl;
        [destruct clobber; simpl|];
        try destruct (pf env self) as [[p|e] s'] eqn:Epf; simpl;
        try done; unfold pf in Epf; by destruct (_pf self).
    + rewrite save_parameters_elsewhere by done.
      rewrite lookup_insert_ne by (intros E; by apply Hne1).
      by rewrite lookup_insert_eq.
    + rewrite save_parameters_elsewhere by done.
      by rewrite lookup_insert_eq.
  - unfold save, bind at 1. rewrite save_check_passes by done.
    unfold bind at 1.
    unfold save_history, history, bind, on_self, getattr, write_file,
      modify, try_except, raise, ret. simpl.
    rewrite Hs. simpl. rewrite Hh. simpl. rewrite Hb. simpl.
    by rewrite insert_insert_eq.
Qed.

End SaveMore.

(** X22, a run of it: the object after its first call
    of [run], saved twice under one prefix. *)
Lemma save_twice_refused_witness :
  save Example.env_no_feedback "out" "pkl" false (Example.after_first, ∅)
  = (Ok tt, Example.saved_once)
  /\ is_Some (Example.saved_once.2 !! history_path "out" "pkl")
  /\ is_Some (Example.saved_once.2 !! parameters_path "out")
  /\ save Example.env_no_feedback "out" "pkl" false
          (Example.saved_once.1, Example.saved_once.2)
     = (Raise IOError, (Example.saved_once.1, Example.saved_once.2)).
Proof.
  split; [vm_compute; reflexivity|].
  apply (save_twice_refused Example.env_no_feedback Example.after_first
           Example.saved_once.1 ∅ Example.saved_once.2 "out" "pkl").
  vm_compute; reflexivity.
Defined.

(** X23, a run of it: the same object, which has no
    blobs, saved into an empty directory. *)
Lemma save_without_blobs_witness :
  (fst (save Example.env_no_feedback "out" "pkl" false
             (Example.after_first, ∅)) = Ok tt
   /\ (snd (save Example.env_no_feedback "out" "pkl" false
                 (Example.after_first, ∅))).2
        !! history_path "out" "pkl"
      = Some (Pickled [Example.history_after_first])
   /\ (snd (save Example.env_no_feedback "out" "pkl" false
                 (Example.after_first, ∅))).2
        !! blobs_path "out" "pkl" = Some Empty)
  /\ (save Example.env_no_feedback "out" "npz" false
           (Example.after_first, ∅)
      = (Raise AttributeError,
         (Example.after_first,
          <[history_path "out" "npz"
            := Npz Example.history_after_first]> ∅))).
Proof.
  apply (save_without_blobs Example.env_no_feedback Example.after_first
           ∅ "out" false Example.history_after_first);
    vm_compute; reflexivity.
Defined.

(* ================================================================== *)
(** * The running maximum *)

#[global] Instance Q_max : NumericMax Q.
Proof.
  split. intros a b. simpl. destruct (Qle_bool b a) eqn:E.
  - apply Qle_bool_iff, Qle_refl.
  - apply Qle_bool_iff. apply Qlt_le_weak, Qnot_le_lt.
    intros H. apply Qle_bool_iff in H. congruence.
Qed.

Section RunningMaximum.
Context {F : Type} {NF : Numeric F}.

Lemma accumulate_nondecreasing `{!NumericMax F} (xs : list F) :
  forall acc, nondecreasing (acc :: accumulate_from acc xs).
Proof.
  induction xs as [|x xs IH]; intros acc; simpl; [done|].
  split; [apply fmax_ge_l | apply IH].
Qed.

(** X24.  With [feedback_LW_Mmin_uponly] set,
    the Mmin series that a successful update records never falls from
    one position to the next, for numbers on which the maximum of two is
    not below the first. *)
Theorem Mmin_uponly_nondecreasing `{!NumericMax F} (env : Env)
    (p : ParameterFile)
    (cnt : Z) (su : option (list (gmap string (list F))))
    (ps : list Population) (hist : gmap string (list F))
    (u : MminUpdate) :
  Mmin_update env p cnt su ps hist = Ok u ->
  feedback_LW_Mmin_uponly p = true ->
  nondecreasing (Mmin u).
Proof.
  intros H Hup. unfold Mmin_update in H.
  peel H z Hz. peel H Jlw0 HJ. peel H fM HfM. peel H next Hnext.
  peel H popid Hpop. peel H pop_fb Hfb. peel H clipped Hclip.
  injection H as <-. simpl. rewrite Hup.
  destruct clipped as [|x xs]; [done|].
  apply accumulate_nondecreasing.
Qed.

End RunningMaximum.

(** X24, a run of it: a raw estimate of 8 under
    a ceiling that falls from 10 to 5 is recorded as 8, 8. *)
Lemma Mmin_uponly_nondecreasing_witness :
  Mmin_update Example.env1 Example.pf_uponly 1 (Some [])
    [Example.pop_of true Example.falling_ceiling]
    (Example.table [20; 10]%Q [1; 1]%Q [0; 0]%Q)
  = Ok {| ztmp := [20; 10]%Q; _Mmin_next := [8; 8]%Q;
          Mmin_ceil := [10; 5]%Q; Mmin := [8; 8]%Q |}
  /\ nondecreasing [8; 8]%Q.
Proof.
  split; [reflexivity|].
  apply (Mmin_uponly_nondecreasing Example.env1 Example.pf_uponly 1
           (Some []) [Example.pop_of true Example.falling_ceiling]
           (Example.table [20; 10]%Q [1; 1]%Q [0; 0]%Q)
           {| ztmp := [20; 10]%Q; _Mmin_next := [8; 8]%Q;
              Mmin_ceil := [10; 5]%Q; Mmin := [8; 8]%Q |});
    reflexivity.
Defined.
